(** * Vanessa debugger: the runtime bridging a debug front-end and an
      externally driven debuggee (class [VanessaRuntime]).

    The development embeds the TypeScript class as state-passing Rocq
    functions over an explicit world (the runtime object's fields, the
    disk, the editor, the queue of scheduled events), and proves the
    properties of the breakpoint registry, of line verification, of the
    run loop and of the status-file watcher. *)

From Stdlib Require Import ZArith NArith List String Ascii Bool Lia.
From Stdlib Require Import Permutation Sorted.
From Stdlib Require DecimalFacts DecimalN DecimalPos.
Import ListNotations.
Open Scope Z_scope.
Set Warnings "-register-all".

(* ===================================================================== *)
(** * Part I. The model                                                   *)
(* ===================================================================== *)

(** ** JavaScript strings

    A JavaScript string is a sequence of UTF-16 code units.  File contents
    are the decoded text ([toString()] / the ['utf-8'] option of the
    reading functions). *)

Definition code_unit := N.
Definition jsstring := list code_unit.

Definition js (s : string) : jsstring :=
  map N_of_ascii (list_ascii_of_string s).

(** [a === b] on strings. *)
Fixpoint jsstring_eqb (a b : jsstring) : bool :=
  match a, b with
  | [], [] => true
  | x :: a', y :: b' => (x =? y)%N && jsstring_eqb a' b'
  | _, _ => false
  end.

(** The code units that [String.prototype.trim] strips: the WhiteSpace and
    LineTerminator productions of ECMAScript. *)
Definition isWhiteSpace (c : code_unit) : bool :=
  ((9 <=? c) && (c <=? 13) || (c =? 32) || (c =? 160) || (c =? 5760)
   || (8192 <=? c) && (c <=? 8202) || (c =? 8232) || (c =? 8233)
   || (c =? 8239) || (c =? 8287) || (c =? 12288) || (c =? 65279))%N.

Fixpoint trimStart (s : jsstring) : jsstring :=
  match s with
  | c :: r => if isWhiteSpace c then trimStart r else s
  | [] => []
  end.

Definition trimEnd (s : jsstring) : jsstring := rev (trimStart (rev s)).

Definition trim (s : jsstring) : jsstring := trimEnd (trimStart s).

(** [s.indexOf(c)] for a one-unit search string: the position of the first
    occurrence, or -1. *)
Fixpoint indexOf (c : code_unit) (s : jsstring) : Z :=
  match s with
  | [] => -1
  | d :: r => if (d =? c)%N then 0
              else let k := indexOf c r in if k <? 0 then -1 else k + 1
  end.

(** [s.split(sep)] for a one-unit separator; the result is never empty. *)
Fixpoint split (sep : code_unit) (s : jsstring) : list jsstring :=
  match s with
  | [] => [[]]
  | c :: r =>
      if (c =? sep)%N then [] :: split sep r
      else match split sep r with
           | h :: t => (c :: h) :: t
           | [] => [[c]]
           end
  end.

Definition LF : code_unit := 10%N.
Definition PLUS : code_unit := 43%N.

(** [a[i]] for a number [i]: [undefined] (here [None]) outside the array. *)
Definition array_get {A} (a : list A) (i : Z) : option A :=
  if i <? 0 then None else nth_error a (Z.to_nat i).

Definition array_length {A} (a : list A) : Z := Z.of_nat (List.length a).

(** ** JavaScript [Map], in insertion order *)

Section JsMap.
Context {V : Type}.

Definition Map := list (jsstring * V).

Fixpoint Map_get (k : jsstring) (m : Map) : option V :=
  match m with
  | [] => None
  | (k', v) :: r => if jsstring_eqb k k' then Some v else Map_get k r
  end.

(** An existing key keeps its position; a new key goes last. *)
Fixpoint Map_set (k : jsstring) (v : V) (m : Map) : Map :=
  match m with
  | [] => [(k, v)]
  | (k', v') :: r =>
      if jsstring_eqb k k' then (k', v) :: r else (k', v') :: Map_set k v r
  end.

Fixpoint Map_delete (k : jsstring) (m : Map) : Map :=
  match m with
  | [] => []
  | (k', v') :: r =>
      if jsstring_eqb k k' then r else (k', v') :: Map_delete k r
  end.
End JsMap.
Arguments Map V : clear implicits.

(** ** JSON

    The platform's [JSON.stringify] and [JSON.parse], on the syntax tree of
    a JSON text.  Object members are kept in textual order.  A number is
    kept as an exact decimal [m * 10^e]; the runtime only ever writes and
    reads integers ([e = 0]). *)

Inductive json : Type :=
| JNull
| JBool (b : bool)
| JNum (m e : Z)
| JStr (s : jsstring)
| JArr (l : list json)
| JObj (l : list (jsstring * json)).

Module Chr.
Definition quote : code_unit := 34%N.
Definition backslash : code_unit := 92%N.
Definition slash : code_unit := 47%N.
Definition comma : code_unit := 44%N.
Definition colon : code_unit := 58%N.
Definition minus : code_unit := 45%N.
Definition dot : code_unit := 46%N.
Definition lbrace : code_unit := 123%N.
Definition rbrace : code_unit := 125%N.
Definition lbracket : code_unit := 91%N.
Definition rbracket : code_unit := 93%N.
Definition zero : code_unit := 48%N.
Definition b : code_unit := 98%N.
Definition f : code_unit := 102%N.
Definition n : code_unit := 110%N.
Definition r : code_unit := 114%N.
Definition t : code_unit := 116%N.
Definition u : code_unit := 117%N.
Definition e : code_unit := 101%N.
Definition E : code_unit := 69%N.
End Chr.

(** *** Writing *)

Fixpoint print_uint (d : Decimal.uint) : jsstring :=
  match d with
  | Decimal.Nil => []
  | Decimal.D0 r => 48%N :: print_uint r
  | Decimal.D1 r => 49%N :: print_uint r
  | Decimal.D2 r => 50%N :: print_uint r
  | Decimal.D3 r => 51%N :: print_uint r
  | Decimal.D4 r => 52%N :: print_uint r
  | Decimal.D5 r => 53%N :: print_uint r
  | Decimal.D6 r => 54%N :: print_uint r
  | Decimal.D7 r => 55%N :: print_uint r
  | Decimal.D8 r => 56%N :: print_uint r
  | Decimal.D9 r => 57%N :: print_uint r
  end.

Definition print_Z (z : Z) : jsstring :=
  (if z <? 0 then [Chr.minus] else []) ++ print_uint (N.to_uint (Z.abs_N z)).

Definition hex_digit (v : N) : code_unit :=
  (if v <? 10 then 48 + v else 87 + v)%N.

(** One code unit inside a quoted string (QuoteJSONString): the two-letter
    escapes, [\u00xx] for the other control characters, the unit itself
    otherwise. *)
Definition quote_unit (c : code_unit) : jsstring :=
  (if c =? 8 then [Chr.backslash; Chr.b]
   else if c =? 9 then [Chr.backslash; Chr.t]
   else if c =? 10 then [Chr.backslash; Chr.n]
   else if c =? 12 then [Chr.backslash; Chr.f]
   else if c =? 13 then [Chr.backslash; Chr.r]
   else if c =? 34 then [Chr.backslash; Chr.quote]
   else if c =? 92 then [Chr.backslash; Chr.backslash]
   else if c <? 32 then
     [Chr.backslash; Chr.u; Chr.zero; Chr.zero; hex_digit (c / 16); hex_digit (c mod 16)]
   else [c])%N.

(** Surrogates: a leading one followed by a trailing one stands for one
    code point; any other surrogate is a lone one. *)
Definition is_leading (c : code_unit) : bool :=
  ((55296 <=? c) && (c <=? 56319))%N.

Definition is_trailing (c : code_unit) : bool :=
  ((56320 <=? c) && (c <=? 57343))%N.

(** [UnicodeEscape]: [\u] and four lower-case hexadecimal digits. *)
Definition unicode_escape (c : code_unit) : jsstring :=
  [Chr.backslash; Chr.u; hex_digit (c / 4096); hex_digit ((c / 256) mod 16);
   hex_digit ((c / 16) mod 16); hex_digit (c mod 16)]%N.

(** The code points of a string, quoted: a surrogate pair is written as it
    is, a lone surrogate is escaped, any other unit goes through
    [quote_unit]. *)
Fixpoint quote_units (s : jsstring) : jsstring :=
  match s with
  | [] => []
  | c :: r =>
      if is_leading c then
        match r with
        | d :: r' =>
            if is_trailing d then c :: d :: quote_units r'
            else unicode_escape c ++ quote_units r
        | [] => unicode_escape c
        end
      else if is_trailing c then unicode_escape c ++ quote_units r
      else quote_unit c ++ quote_units r
  end.

Definition quote_string (s : jsstring) : jsstring :=
  Chr.quote :: quote_units s ++ [Chr.quote].

Fixpoint join (sep : jsstring) (l : list jsstring) : jsstring :=
  match l with
  | [] => []
  | [x] => x
  | x :: r => x ++ sep ++ join sep r
  end.

Fixpoint JSON_stringify (v : json) : jsstring :=
  match v with
  | JNull => js "null"
  | JBool true => js "true"
  | JBool false => js "false"
  | JNum m e => if e =? 0 then print_Z m
                else print_Z m ++ [Chr.e] ++ print_Z e
  | JStr s => quote_string s
  | JArr l => [Chr.lbracket] ++ join [Chr.comma] (map JSON_stringify l) ++ [Chr.rbracket]
  | JObj l =>
      [Chr.lbrace]
      ++ join [Chr.comma]
           (map (fun kv => quote_string (fst kv) ++ [Chr.colon] ++ JSON_stringify (snd kv)) l)
      ++ [Chr.rbrace]
  end.

(** *** Reading *)

Definition is_json_ws (c : code_unit) : bool :=
  ((c =? 32) || (c =? 9) || (c =? 10) || (c =? 13))%N.

Fixpoint skip_ws (s : jsstring) : jsstring :=
  match s with
  | c :: r => if is_json_ws c then skip_ws r else s
  | [] => []
  end.

Definition is_digit (c : code_unit) : bool := ((48 <=? c) && (c <=? 57))%N.

Definition cons_digit (c : code_unit) (d : Decimal.uint) : Decimal.uint :=
  match (c - 48)%N with
  | 0%N => Decimal.D0 d
  | 1%N => Decimal.D1 d
  | 2%N => Decimal.D2 d
  | 3%N => Decimal.D3 d
  | 4%N => Decimal.D4 d
  | 5%N => Decimal.D5 d
  | 6%N => Decimal.D6 d
  | 7%N => Decimal.D7 d
  | 8%N => Decimal.D8 d
  | _ => Decimal.D9 d
  end.

Fixpoint take_uint (s : jsstring) : Decimal.uint * jsstring :=
  match s with
  | c :: r =>
      if is_digit c then let (d, r') := take_uint r in (cons_digit c d, r')
      else (Decimal.Nil, s)
  | [] => (Decimal.Nil, [])
  end.

Definition hex_value (c : code_unit) : option N :=
  (if (48 <=? c) && (c <=? 57) then Some (c - 48)
   else if (97 <=? c) && (c <=? 102) then Some (c - 87)
   else if (65 <=? c) && (c <=? 70) then Some (c - 55)
   else None)%N.

Definition hex4 (a b c d : code_unit) : option code_unit :=
  match hex_value a, hex_value b, hex_value c, hex_value d with
  | Some x, Some y, Some z, Some w => Some (((x * 16 + y) * 16 + z) * 16 + w)%N
  | _, _, _, _ => None
  end.

Definition unescape (c : code_unit) : option code_unit :=
  (if c =? 34 then Some 34
   else if c =? 92 then Some 92
   else if c =? 47 then Some 47
   else if c =? 98 then Some 8
   else if c =? 102 then Some 12
   else if c =? 110 then Some 10
   else if c =? 114 then Some 13
   else if c =? 116 then Some 9
   else None)%N.

(** The characters of a string up to its closing quote. *)
Fixpoint parse_chars (s : jsstring) : option (jsstring * jsstring) :=
  match s with
  | [] => None
  | c :: r =>
      if (c =? 34)%N then Some ([], r)
      else if (c =? 92)%N then
        match r with
        | [] => None
        | x :: r1 =>
            if (x =? 117)%N then
              match r1 with
              | h1 :: h2 :: h3 :: h4 :: r2 =>
                  match hex4 h1 h2 h3 h4, parse_chars r2 with
                  | Some u, Some (t, r3) => Some (u :: t, r3)
                  | _, _ => None
                  end
              | _ => None
              end
            else
              match unescape x, parse_chars r1 with
              | Some u, Some (t, r3) => Some (u :: t, r3)
              | _, _ => None
              end
        end
      else if (c <? 32)%N then None
      else
        match parse_chars r with
        | Some (t, r3) => Some (c :: t, r3)
        | None => None
        end
  end.

Fixpoint strip_prefix (p s : jsstring) : option jsstring :=
  match p, s with
  | [], _ => Some s
  | a :: p', c :: s' => if (a =? c)%N then strip_prefix p' s' else None
  | _ :: _, [] => None
  end.

Definition leading_zero (d : Decimal.uint) : bool :=
  match d with
  | Decimal.D0 Decimal.Nil => false
  | Decimal.D0 _ => true
  | _ => false
  end.

Definition Z_of_uint (d : Decimal.uint) : Z := Z.of_N (N.of_uint d).

(** The parts of a number: "-"? int frac? exp? *)
Definition parse_sign (s : jsstring) : bool * jsstring :=
  match s with
  | c :: r => if (c =? 45)%N then (true, r) else (false, s)
  | [] => (false, s)
  end.

Definition parse_frac (s : jsstring) : option (Decimal.uint * jsstring) :=
  match s with
  | c :: r =>
      if (c =? 46)%N then
        let (fp, s3) := take_uint r in
        match fp with
        | Decimal.Nil => None
        | _ => Some (fp, s3)
        end
      else Some (Decimal.Nil, s)
  | [] => Some (Decimal.Nil, s)
  end.

Definition parse_exp (s : jsstring) : option (Z * jsstring) :=
  match s with
  | c :: r =>
      if ((c =? 101) || (c =? 69))%N then
        let (eneg, r1) :=
          match r with
          | x :: r' =>
              if (x =? 45)%N then (true, r')
              else if (x =? 43)%N then (false, r')
              else (false, r)
          | [] => (false, r)
          end in
        let (ep, s4) := take_uint r1 in
        match ep with
        | Decimal.Nil => None
        | _ => Some (if eneg then - Z_of_uint ep else Z_of_uint ep, s4)
        end
      else Some (0, s)
  | [] => Some (0, s)
  end.

Definition parse_number (s : jsstring) : option (json * jsstring) :=
  let (neg, s1) := parse_sign s in
  let (ip, s2) := take_uint s1 in
  match ip with
  | Decimal.Nil => None
  | _ =>
      if leading_zero ip then None else
      match parse_frac s2 with
      | None => None
      | Some (fp, s3) =>
          match parse_exp s3 with
          | None => None
          | Some (ex, s4) =>
              let m := Z_of_uint (Decimal.app ip fp) in
              Some (JNum (if neg then - m else m)
                         (ex - Z.of_nat (Decimal.nb_digits fp)), s4)
          end
      end
  end.

(** The name of a member and the colon after it. *)
Definition parse_key (s : jsstring) : option (jsstring * jsstring) :=
  match skip_ws s with
  | c :: r =>
      if (c =? 34)%N then
        match parse_chars r with
        | Some (k, r1) =>
            match skip_ws r1 with
            | c1 :: r2 => if (c1 =? 58)%N then Some (k, r2) else None
            | [] => None
            end
        | None => None
        end
      else None
  | [] => None
  end.

Fixpoint parse_value (fuel : nat) (s : jsstring) {struct fuel}
  : option (json * jsstring) :=
  match fuel with
  | O => None
  | S f =>
      match skip_ws s with
      | [] => None
      | c :: r =>
          if (c =? 123)%N then
            match skip_ws r with
            | c2 :: r2 =>
                if (c2 =? 125)%N then Some (JObj [], r2)
                else match parse_members f r with
                     | Some (ms, r3) => Some (JObj ms, r3)
                     | None => None
                     end
            | [] => None
            end
          else if (c =? 91)%N then
            match skip_ws r with
            | c2 :: r2 =>
                if (c2 =? 93)%N then Some (JArr [], r2)
                else match parse_elements f r with
                     | Some (vs, r3) => Some (JArr vs, r3)
                     | None => None
                     end
            | [] => None
            end
          else if (c =? 34)%N then
            match parse_chars r with
            | Some (t, r1) => Some (JStr t, r1)
            | None => None
            end
          else if (c =? 116)%N then
            match strip_prefix (js "true") (c :: r) with
            | Some r1 => Some (JBool true, r1)
            | None => None
            end
          else if (c =? 102)%N then
            match strip_prefix (js "false") (c :: r) with
            | Some r1 => Some (JBool false, r1)
            | None => None
            end
          else if (c =? 110)%N then
            match strip_prefix (js "null") (c :: r) with
            | Some r1 => Some (JNull, r1)
            | None => None
            end
          else parse_number (c :: r)
      end
  end
with parse_elements (fuel : nat) (s : jsstring) {struct fuel}
  : option (list json * jsstring) :=
  match fuel with
  | O => None
  | S f =>
      match parse_value f s with
      | Some (v, r) =>
          match skip_ws r with
          | c :: r1 =>
              if (c =? 44)%N then
                match parse_elements f r1 with
                | Some (vs, r2) => Some (v :: vs, r2)
                | None => None
                end
              else if (c =? 93)%N then Some ([v], r1)
              else None
          | [] => None
          end
      | None => None
      end
  end
with parse_members (fuel : nat) (s : jsstring) {struct fuel}
  : option (list (jsstring * json) * jsstring) :=
  match fuel with
  | O => None
  | S f =>
      match parse_key s with
      | Some (k, r2) =>
          match parse_value f r2 with
          | Some (v, r3) =>
              match skip_ws r3 with
              | c3 :: r4 =>
                  if (c3 =? 44)%N then
                    match parse_members f r4 with
                    | Some (ms, r5) => Some ((k, v) :: ms, r5)
                    | None => None
                    end
                  else if (c3 =? 125)%N then Some ([(k, v)], r4)
                  else None
              | [] => None
              end
          | None => None
          end
      | None => None
      end
  end.

(** [JSON.parse]: [None] stands for the SyntaxError it throws. *)
Definition JSON_parse (s : jsstring) : option json :=
  match parse_value (S (List.length s)) s with
  | Some (v, r) => match skip_ws r with [] => Some v | _ :: _ => None end
  | None => None
  end.

(** Property read [o.k] on a parsed object: the last member of that name. *)
Fixpoint json_member (k : jsstring) (l : list (jsstring * json)) : option json :=
  match l with
  | [] => None
  | (k', v) :: r =>
      match json_member k r with
      | Some w => Some w
      | None => if jsstring_eqb k k' then Some v else None
      end
  end.

(** ** The runtime's data *)

(** [interface VanessaBreakpoint]. Numbers are modelled as integers. *)
Record VanessaBreakpoint : Type := {
  id : Z;
  line : Z;
  verified : bool
}.

(** The status record the debuggee writes; the type asserted on the parsed
    status file. *)
Module Info.
Record t : Type := {
  file : jsstring;
  line : Z;
  status : jsstring;
  done : option bool
}.
End Info.

(** Requests made to the editor. *)
Inductive request : Type :=
| OpenTextDocument (file : jsstring)
| ShowTextDocument (file : jsstring)
| ExecuteCommand (command : jsstring).

(** Callbacks waiting on an editor promise. *)
Inductive continuation : Type :=
| Opened (debugInfo : Info.t)
| Shown (debugInfo : Info.t).

(** The fields of the [VanessaRuntime] object, and what it acts on: the
    disk (the files that can be read, with their decoded contents), the
    log of files written, the workspace
    root, the file shown by the active editor, the requests made to the
    editor, the events scheduled with [setImmediate], the pending
    promise callbacks, and the paths that cannot be written (their
    directory is missing, or access to them is denied). *)
Record World : Type := {
  _sourceFile : option jsstring;
  _sourceLines : option (list jsstring);
  _currentLine : Z;
  _breakPoints : Map (list VanessaBreakpoint);
  _breakpointId : Z;
  disk : Map jsstring;
  written : list (jsstring * jsstring);
  rootPath : option jsstring;
  activeTextEditor : option jsstring;
  requests : list request;
  scheduled : list jsstring;
  pending : list continuation;
  readonly : list jsstring
}.

Definition set_sourceFile (v : option jsstring) (w : World) : World :=
  {| _sourceFile := v; _sourceLines := _sourceLines w;
     _currentLine := _currentLine w; _breakPoints := _breakPoints w;
     _breakpointId := _breakpointId w; disk := disk w; written := written w;
     rootPath := rootPath w; activeTextEditor := activeTextEditor w;
     requests := requests w; scheduled := scheduled w; pending := pending w;
     readonly := readonly w |}.

Definition set_sourceLines (v : option (list jsstring)) (w : World) : World :=
  {| _sourceFile := _sourceFile w; _sourceLines := v;
     _currentLine := _currentLine w; _breakPoints := _breakPoints w;
     _breakpointId := _breakpointId w; disk := disk w; written := written w;
     rootPath := rootPath w; activeTextEditor := activeTextEditor w;
     requests := requests w; scheduled := scheduled w; pending := pending w;
     readonly := readonly w |}.

Definition set_currentLine (v : Z) (w : World) : World :=
  {| _sourceFile := _sourceFile w; _sourceLines := _sourceLines w;
     _currentLine := v; _breakPoints := _breakPoints w;
     _breakpointId := _breakpointId w; disk := disk w; written := written w;
     rootPath := rootPath w; activeTextEditor := activeTextEditor w;
     requests := requests w; scheduled := scheduled w; pending := pending w;
     readonly := readonly w |}.

Definition set_breakPoints (v : Map (list VanessaBreakpoint)) (w : World) : World :=
  {| _sourceFile := _sourceFile w; _sourceLines := _sourceLines w;
     _currentLine := _currentLine w; _breakPoints := v;
     _breakpointId := _breakpointId w; disk := disk w; written := written w;
     rootPath := rootPath w; activeTextEditor := activeTextEditor w;
     requests := requests w; scheduled := scheduled w; pending := pending w;
     readonly := readonly w |}.

Definition set_breakpointId (v : Z) (w : World) : World :=
  {| _sourceFile := _sourceFile w; _sourceLines := _sourceLines w;
     _currentLine := _currentLine w; _breakPoints := _breakPoints w;
     _breakpointId := v; disk := disk w; written := written w;
     rootPath := rootPath w; activeTextEditor := activeTextEditor w;
     requests := requests w; scheduled := scheduled w; pending := pending w;
     readonly := readonly w |}.

(** A write that succeeds: the file now holds [data], and the write is
    logged. *)
Definition write_file (file data : jsstring) (w : World) : World :=
  {| _sourceFile := _sourceFile w; _sourceLines := _sourceLines w;
     _currentLine := _currentLine w; _breakPoints := _breakPoints w;
     _breakpointId := _breakpointId w;
     disk := Map_set file data (disk w);
     written := written w ++ [(file, data)];
     rootPath := rootPath w; activeTextEditor := activeTextEditor w;
     requests := requests w; scheduled := scheduled w; pending := pending w;
     readonly := readonly w |}.

Definition set_activeTextEditor (v : option jsstring) (w : World) : World :=
  {| _sourceFile := _sourceFile w; _sourceLines := _sourceLines w;
     _currentLine := _currentLine w; _breakPoints := _breakPoints w;
     _breakpointId := _breakpointId w; disk := disk w; written := written w;
     rootPath := rootPath w; activeTextEditor := v;
     requests := requests w; scheduled := scheduled w; pending := pending w;
     readonly := readonly w |}.

Definition add_request (r : request) (w : World) : World :=
  {| _sourceFile := _sourceFile w; _sourceLines := _sourceLines w;
     _currentLine := _currentLine w; _breakPoints := _breakPoints w;
     _breakpointId := _breakpointId w; disk := disk w; written := written w;
     rootPath := rootPath w; activeTextEditor := activeTextEditor w;
     requests := requests w ++ [r]; scheduled := scheduled w;
     pending := pending w;
     readonly := readonly w |}.

Definition add_scheduled (event : jsstring) (w : World) : World :=
  {| _sourceFile := _sourceFile w; _sourceLines := _sourceLines w;
     _currentLine := _currentLine w; _breakPoints := _breakPoints w;
     _breakpointId := _breakpointId w; disk := disk w; written := written w;
     rootPath := rootPath w; activeTextEditor := activeTextEditor w;
     requests := requests w; scheduled := scheduled w ++ [event];
     pending := pending w;
     readonly := readonly w |}.

Definition set_pending (v : list continuation) (w : World) : World :=
  {| _sourceFile := _sourceFile w; _sourceLines := _sourceLines w;
     _currentLine := _currentLine w; _breakPoints := _breakPoints w;
     _breakpointId := _breakpointId w; disk := disk w; written := written w;
     rootPath := rootPath w; activeTextEditor := activeTextEditor w;
     requests := requests w; scheduled := scheduled w; pending := v;
     readonly := readonly w |}.

Definition set_readonly (v : list jsstring) (w : World) : World :=
  {| _sourceFile := _sourceFile w; _sourceLines := _sourceLines w;
     _currentLine := _currentLine w; _breakPoints := _breakPoints w;
     _breakpointId := _breakpointId w; disk := disk w; written := written w;
     rootPath := rootPath w; activeTextEditor := activeTextEditor w;
     requests := requests w; scheduled := scheduled w; pending := pending w;
     readonly := v |}.

(** The world of a freshly constructed runtime; every path can be written
    until the surroundings change that. *)
Definition initial (files : Map jsstring) (root editor : option jsstring)
  : World :=
  {| _sourceFile := None; _sourceLines := None; _currentLine := 0;
     _breakPoints := []; _breakpointId := 1;
     disk := files; written := []; rootPath := root;
     activeTextEditor := editor; requests := []; scheduled := [];
     pending := [];
     readonly := [] |}.

(** ** Computations: world passing, with exceptions

    A thrown exception leaves the mutations made so far in place. *)

Inductive exn : Type :=
| TypeError      (* a property read or a call on [undefined] *)
| SyntaxError    (* [JSON.parse] on a text that is not JSON *)
| IOError        (* a file that cannot be read, or cannot be written *)
| IllTyped.      (* a value outside the TypeScript type asserted on it;
                    what the code does with it is not modelled *)

Inductive result (A : Type) : Type :=
| Return (a : A)
| Throw (e : exn).
Arguments Return {A} a.
Arguments Throw {A} e.

Definition M (A : Type) : Type := World -> result A * World.

Definition ret {A} (a : A) : M A := fun w => (Return a, w).
Definition throw {A} (e : exn) : M A := fun w => (Throw e, w).
Definition bind {A B} (c : M A) (k : A -> M B) : M B :=
  fun w => match c w with
           | (Return a, w1) => k a w1
           | (Throw e, w1) => (Throw e, w1)
           end.
Definition get : M World := fun w => (Return w, w).
Definition modify (f : World -> World) : M unit := fun w => (Return tt, f w).

Declare Scope js_scope.
Delimit Scope js_scope with js.
Notation "x <- c ;; k" := (bind c (fun x => k))
  (at level 61, c at next level, right associativity) : js_scope.
Notation "c ;; k" := (bind c (fun _ => k))
  (at level 61, right associativity) : js_scope.
Open Scope js_scope.

(** ** The methods of [VanessaRuntime] *)

(** [a !== b] on a string field that may still be [undefined]. *)
Definition same_file (a : option jsstring) (b : jsstring) : bool :=
  match a with
  | Some x => jsstring_eqb x b
  | None => false
  end.

(** A template literal prints [undefined] as the word. *)
Definition template (v : option jsstring) : jsstring :=
  match v with
  | Some s => s
  | None => js "undefined"
  end.

Definition getBreakPointsFile (w : World) : jsstring :=
  template (rootPath w) ++ js "\.vscode\" ++ js "breaks.json".

(** The breakpoints file can be written. *)
Definition can_write (w : World) : bool :=
  negb (existsb (jsstring_eqb (getBreakPointsFile w)) (readonly w)).

Definition getVanessaDebugInfoFile (w : World) : jsstring :=
  template (rootPath w) ++ js "\.vscode\" ++ js "debugInfo.json".

(** [fs.writeFileSync(file, data)] throws when the file cannot be
    written, and nothing is written then. *)
Definition writeFileSync (file data : jsstring) : M unit :=
  fun w => if existsb (jsstring_eqb file) (readonly w)
           then (Throw IOError, w)
           else (Return tt, write_file file data w).

Definition readFileSync (file : jsstring) : M jsstring :=
  fun w => match Map_get file (disk w) with
           | Some data => (Return data, w)
           | None => (Throw IOError, w)
           end.

Definition sendEvent (event : jsstring) : M unit :=
  modify (add_scheduled event).

Definition loadSource (file : jsstring) : M unit :=
  w <- get ;;
  if same_file (_sourceFile w) file then ret tt
  else
    modify (set_sourceFile (Some file)) ;;
    data <- readFileSync file ;;
    modify (set_sourceLines (Some (split LF data))).

(** The body of the [forEach] callback of [verifyBreakpoints], on one
    breakpoint object: the breakpoint as it is afterwards, or the
    exception. *)
Definition verifyBreakpoint (sourceLines : option (list jsstring))
    (bp : VanessaBreakpoint) : result VanessaBreakpoint :=
  if negb (verified bp) then
    match sourceLines with
    | None => Throw TypeError
    | Some lines =>
        if line bp <? array_length lines then
          match array_get lines (line bp) with
          | None => Throw TypeError
          | Some l =>
              let srcLine := trim l in
              if (array_length srcLine =? 0) || (indexOf PLUS srcLine =? 0)
              then Return {| id := id bp; line := line bp + 1;
                             verified := verified bp |}
              else Return bp
          end
        else Return bp
    end
  else Return bp.

(** [bps.forEach(...)]: the objects are updated in place, in order, up to
    the first exception. *)
Fixpoint forEach_verify (sourceLines : option (list jsstring))
    (bps : list VanessaBreakpoint) : list VanessaBreakpoint * option exn :=
  match bps with
  | [] => ([], None)
  | bp :: r =>
      match verifyBreakpoint sourceLines bp with
      | Return bp' =>
          let (r', e) := forEach_verify sourceLines r in (bp' :: r', e)
      | Throw e => (bp :: r, Some e)
      end
  end.

Definition verifyBreakpoints (path : jsstring) : M unit :=
  w <- get ;;
  match Map_get path (_breakPoints w) with
  | None => ret tt
  | Some bps =>
      loadSource path ;;
      w1 <- get ;;
      let (bps', e) := forEach_verify (_sourceLines w1) bps in
      modify (set_breakPoints (Map_set path bps' (_breakPoints w1))) ;;
      match e with
      | None => ret tt
      | Some x => throw x
      end
  end.

(** The object literal [{ verified: false, line, id }] as JSON. *)
Definition breakpoint_json (bp : VanessaBreakpoint) : json :=
  JObj [(js "verified", JBool (verified bp));
        (js "line", JNum (line bp) 0);
        (js "id", JNum (id bp) 0)].

Definition breakPointsInfo (m : Map (list VanessaBreakpoint)) : json :=
  JArr (map (fun kv => JObj [(js "file", JStr (fst kv));
                             (js "breakpoints", JArr (map breakpoint_json (snd kv)))])
            m).

Definition saveBreakpointsToFile (path : jsstring) : M unit :=
  w <- get ;;
  let info := JSON_stringify (breakPointsInfo (_breakPoints w)) in
  writeFileSync (getBreakPointsFile w) info.

Definition no_breakpoint : VanessaBreakpoint :=
  {| id := 0; line := 0; verified := false |}.

Definition setBreakPoint (path : jsstring) (ln : Z) : M VanessaBreakpoint :=
  modify (fun w => set_breakpointId (_breakpointId w + 1) w) ;;
  w <- get ;;
  let bp := {| id := _breakpointId w; line := ln; verified := false |} in
  let bps := match Map_get path (_breakPoints w) with
             | Some a => a
             | None => []
             end in
  modify (set_breakPoints (Map_set path (bps ++ [bp]) (_breakPoints w))) ;;
  verifyBreakpoints path ;;
  saveBreakpointsToFile path ;;
  w2 <- get ;;
  (* [bp] is the object pushed last onto the array of [path] *)
  ret (match Map_get path (_breakPoints w2) with
       | Some a => last a bp
       | None => bp
       end).

(** [a.findIndex(p)]: the first index whose element satisfies [p], or -1. *)
Fixpoint findIndex {A} (p : A -> bool) (a : list A) : Z :=
  match a with
  | [] => -1
  | x :: r => if p x then 0
              else let k := findIndex p r in if k <? 0 then -1 else k + 1
  end.

(** [a.splice(i, 1)] for an index [i >= 0]: what is left in the array. *)
Fixpoint splice1 {A} (i : nat) (a : list A) : list A :=
  match a, i with
  | [], _ => []
  | _ :: r, O => r
  | x :: r, S j => x :: splice1 j r
  end.

Definition clearBreakPoint (path : jsstring) (ln : Z)
  : M (option VanessaBreakpoint) :=
  w <- get ;;
  match Map_get path (_breakPoints w) with
  | Some bps =>
      let index := findIndex (fun bp => line bp =? ln) bps in
      if 0 <=? index then
        let bp := array_get bps index in
        modify (set_breakPoints
                  (Map_set path (splice1 (Z.to_nat index) bps) (_breakPoints w))) ;;
        saveBreakpointsToFile path ;;
        ret bp
      else
        saveBreakpointsToFile path ;;
        ret None
  | None =>
      saveBreakpointsToFile path ;;
      ret None
  end.

Definition clearBreakpoints (path : jsstring) : M unit :=
  modify (fun w => set_breakPoints (Map_delete path (_breakPoints w)) w) ;;
  saveBreakpointsToFile path.

(** A string is truthy unless it is empty; [undefined] is not. *)
Definition truthy (s : option jsstring) : bool :=
  match s with
  | Some (_ :: _) => true
  | _ => false
  end.

Definition fireEventsForLine (ln : Z) (stepEvent : option jsstring) : M bool :=
  w <- get ;;
  if truthy stepEvent && (_currentLine w <=? ln) then
    sendEvent (template stepEvent) ;;
    ret true
  else ret false.

(** The line numbers [from, from+1, ...] below [bound], in order. *)
Fixpoint upto (n : nat) (from : Z) : list Z :=
  match n with
  | O => []
  | S k => from :: upto k (from + 1)
  end.

Definition line_range (from bound : Z) : list Z :=
  upto (Z.to_nat (bound - from)) from.

(** The [for] loop of [run] over the lines still to visit. *)
Fixpoint run_loop (lns : list Z) (stepEvent : option jsstring) : M unit :=
  match lns with
  | [] => sendEvent (js "end")
  | ln :: rest =>
      stop <- fireEventsForLine ln stepEvent ;;
      if stop then modify (set_currentLine ln)
      else run_loop rest stepEvent
  end.

Definition run (stepEvent : option jsstring) : M unit :=
  w <- get ;;
  match _sourceLines w with
  | None => throw TypeError
  | Some lines =>
      run_loop (line_range (_currentLine w + 1) (array_length lines)) stepEvent
  end.

(** [continue(reverse = false)] *)
Definition continue : M unit := run None.

(** [step(reverse = false, event = 'stopOnStep')] *)
Definition step (event : jsstring) : M unit := run (Some event).

Definition start (featureFilePath : jsstring) (stopOnEntry : bool) : M unit :=
  loadSource featureFilePath ;;
  modify (set_currentLine (-1)) ;;
  w <- get ;;
  match _sourceFile w with
  | Some f => verifyBreakpoints f
  | None => ret tt
  end ;;
  if stopOnEntry then step (js "stopOnEntry") else continue.

(** A frame of the fake stack trace. *)
Module Frame.
Record t : Type := {
  index : Z;
  name : jsstring;
  file : option jsstring;
  line : Z
}.
End Frame.

(** [stack]: the single synthetic frame and the count.  The frame is named
    by the template literal of [currentLine + 1], the decimal text of that
    number. *)
Definition stack (startFrame endFrame : Z) (w : World) : list Frame.t * Z :=
  ([ {| Frame.index := 0;
        Frame.name := print_Z (_currentLine w + 1);
        Frame.file := _sourceFile w;
        Frame.line := _currentLine w |} ], 1).

Definition stepOver : jsstring := js "workbench.action.debug.stepOver".

Definition setCurrentLineInSource (debugInfo : Info.t) : M unit :=
  w <- get ;;
  let direct :=
    modify (set_currentLine (Info.line debugInfo - 1)) ;;
    modify (add_request (ExecuteCommand stepOver)) in
  match activeTextEditor w with
  | Some fileName =>
      if negb (jsstring_eqb (Info.file debugInfo) fileName) then
        modify (add_request (OpenTextDocument (Info.file debugInfo))) ;;
        modify (fun w1 => set_pending (pending w1 ++ [Opened debugInfo]) w1)
      else direct
  | None => direct
  end.

(** A promise of the editor resolves and its callback runs.  Showing a
    document makes it the active editor's document. *)
Definition resolve (k : continuation) : M unit :=
  match k with
  | Opened debugInfo =>
      modify (add_request (ShowTextDocument (Info.file debugInfo))) ;;
      modify (fun w1 => set_pending (pending w1 ++ [Shown debugInfo]) w1)
  | Shown debugInfo =>
      modify (set_activeTextEditor (Some (Info.file debugInfo))) ;;
      start (Info.file debugInfo) true ;;
      modify (set_currentLine (Info.line debugInfo - 1)) ;;
      modify (add_request (ExecuteCommand stepOver))
  end.

Definition resolve_next : M unit :=
  w <- get ;;
  match pending w with
  | [] => ret tt
  | k :: rest => modify (set_pending rest) ;; resolve k
  end.

(** The integer a JSON number denotes, if it is one. *)
Definition json_integer (m e : Z) : option Z :=
  if 0 <=? e then Some (m * 10 ^ e)
  else if m mod 10 ^ (- e) =? 0 then Some (m / 10 ^ (- e))
  else None.

(** The type assertion [as {file: string, line: number, status: string}]
    holds of the parsed value. *)
Definition asDebugInfo (j : json) : option Info.t :=
  match j with
  | JObj ms =>
      match json_member (js "file") ms, json_member (js "line") ms,
            json_member (js "status") ms with
      | Some (JStr f), Some (JNum m e), Some (JStr s) =>
          match json_integer m e with
          | Some l =>
              match json_member (js "done") ms with
              | None =>
                  Some {| Info.file := f; Info.line := l; Info.status := s;
                          Info.done := None |}
              | Some (JBool d) =>
                  Some {| Info.file := f; Info.line := l; Info.status := s;
                          Info.done := Some d |}
              | Some _ => None
              end
          | None => None
          end
      | _, _, _ => None
      end
  | _ => None
  end.

(** What the code does with a parsed value that is outside the asserted
    type, as far as this model can follow it.  [null] has no properties:
    the first property read throws.  [status] and [done] are never read,
    and [file] is not read when no editor is active, so an object whose
    [line] is an integer and whose [file] is a string, or any [file] with
    no active editor, is handled as the record of its file and line.  What
    becomes of a line that is not an integer, of a value that is not an
    object, and of a [file] that is not a string and is handed to the
    editor, is not modelled. *)
Definition setCurrentLineInSource_untyped (j : json) : M unit :=
  match j with
  | JNull => throw TypeError
  | JObj ms =>
      match json_member (js "line") ms with
      | Some (JNum m e) =>
          match json_integer m e with
          | Some l =>
              let record f := {| Info.file := f; Info.line := l;
                                 Info.status := []; Info.done := None |} in
              match json_member (js "file") ms with
              | Some (JStr f) => setCurrentLineInSource (record f)
              | _ =>
                  w <- get ;;
                  match activeTextEditor w with
                  | None => setCurrentLineInSource (record [])
                  | Some _ => throw IllTyped
                  end
              end
          | None => throw IllTyped
          end
      | _ => throw IllTyped
      end
  | _ => throw IllTyped
  end.

(** The listener the constructor registers with [fs.watchFile]: the status
    file is read ([None]: the read failed, [data] is [undefined]) and, when
    the data is truthy, parsed and handed on. *)
Definition onStatusData (data : option jsstring) : M unit :=
  if truthy data then
    match JSON_parse (template data) with
    | None => throw SyntaxError
    | Some j =>
        match asDebugInfo j with
        | Some debugInfo => setCurrentLineInSource debugInfo
        | None => setCurrentLineInSource_untyped j
        end
    end
  else ret tt.

Definition watchListener : M unit :=
  w <- get ;;
  onStatusData (Map_get (getVanessaDebugInfoFile w) (disk w)).

(** ** Sequences of calls *)

(** What can happen to a runtime: the calls of the debug session, the
    private verification pass on its own, the status-file listener, a
    promise callback, and the surroundings changing a file, the active
    editor, or what can be written. *)
Inductive call : Type :=
| Start (featureFilePath : jsstring) (stopOnEntry : bool)
| Continue
| Step (event : jsstring)
| SetBreakPoint (path : jsstring) (ln : Z)
| ClearBreakPoint (path : jsstring) (ln : Z)
| ClearBreakpoints (path : jsstring)
| VerifyBreakpoints (path : jsstring)
| StatusChanged
| Resolved
| FileChanged (file : jsstring) (data : option jsstring)
| EditorChanged (editor : option jsstring)
| AccessChanged (file : jsstring) (writable : bool).

Definition set_disk (file : jsstring) (data : option jsstring) (w : World) : World :=
  {| _sourceFile := _sourceFile w; _sourceLines := _sourceLines w;
     _currentLine := _currentLine w; _breakPoints := _breakPoints w;
     _breakpointId := _breakpointId w;
     disk := match data with
             | Some text => Map_set file text (disk w)
             | None => Map_delete file (disk w)
             end;
     written := written w;
     rootPath := rootPath w; activeTextEditor := activeTextEditor w;
     requests := requests w; scheduled := scheduled w; pending := pending w;
     readonly := readonly w |}.

(** The surroundings make a path unwritable (its directory is removed,
    access is denied) or writable again. *)
Definition set_access (file : jsstring) (writable : bool) (w : World) : World :=
  set_readonly
    (if writable
     then filter (fun f => negb (jsstring_eqb file f)) (readonly w)
     else file :: readonly w)
    w.

Definition ignore {A} (c : M A) : M unit := c ;; ret tt.

Definition call_body (c : call) : M unit :=
  match c with
  | Start f b => start f b
  | Continue => continue
  | Step e => step e
  | SetBreakPoint p l => ignore (setBreakPoint p l)
  | ClearBreakPoint p l => ignore (clearBreakPoint p l)
  | ClearBreakpoints p => clearBreakpoints p
  | VerifyBreakpoints p => verifyBreakpoints p
  | StatusChanged => watchListener
  | Resolved => resolve_next
  | FileChanged f d => modify (set_disk f d)
  | EditorChanged e => modify (set_activeTextEditor e)
  | AccessChanged f b => modify (set_access f b)
  end.

(** The world after a call, whether it returned or threw. *)
Definition perform (c : call) (w : World) : World := snd (call_body c w).

Definition returned (c : call) (w : World) : bool :=
  match fst (call_body c w) with
  | Return _ => true
  | Throw _ => false
  end.

Fixpoint perform_all (cs : list call) (w : World) : World :=
  match cs with
  | [] => w
  | c :: r => perform_all r (perform c w)
  end.

(** The calls that change the breakpoint registry and persist it. *)
Definition registry_call (c : call) : bool :=
  match c with
  | SetBreakPoint _ _ | ClearBreakPoint _ _ | ClearBreakpoints _ => true
  | _ => false
  end.

(** The breakpoint object last pushed onto the array of [path]. *)
Definition last_pushed (path : jsstring) (w : World) : VanessaBreakpoint :=
  match Map_get path (_breakPoints w) with
  | Some a => last a no_breakpoint
  | None => no_breakpoint
  end.

(** The id of the breakpoint a [setBreakPoint] call creates: that of the
    breakpoint it returns or, when it throws after the push, that of the
    object it has pushed. *)
Definition created_id (path : jsstring) (ln : Z) (w : World) : Z :=
  match setBreakPoint path ln w with
  | (Return bp, _) => id bp
  | (Throw _, w') => id (last_pushed path w')
  end.

(** The ids given to the breakpoints that the [setBreakPoint] calls of a
    sequence create, in order. *)
Fixpoint assigned_ids (cs : list call) (w : World) : list Z :=
  match cs with
  | [] => []
  | SetBreakPoint p l :: r =>
      created_id p l w :: assigned_ids r (perform (SetBreakPoint p l) w)
  | c :: r => assigned_ids r (perform c w)
  end.

(** ** Reading the breakpoints file back

    What a reader of the breakpoints file gets: the text is parsed and each
    record gives a file and its breakpoints. *)

Fixpoint traverse {A B} (f : A -> option B) (l : list A) : option (list B) :=
  match l with
  | [] => Some []
  | x :: r =>
      match f x, traverse f r with
      | Some y, Some ys => Some (y :: ys)
      | _, _ => None
      end
  end.

Definition breakpoint_of_json (j : json) : option VanessaBreakpoint :=
  match j with
  | JObj ms =>
      match json_member (js "verified") ms, json_member (js "line") ms,
            json_member (js "id") ms with
      | Some (JBool v), Some (JNum l el), Some (JNum i ei) =>
          match json_integer l el, json_integer i ei with
          | Some l', Some i' => Some {| id := i'; line := l'; verified := v |}
          | _, _ => None
          end
      | _, _, _ => None
      end
  | _ => None
  end.

Definition record_of_json (j : json) : option (jsstring * list VanessaBreakpoint) :=
  match j with
  | JObj ms =>
      match json_member (js "file") ms, json_member (js "breakpoints") ms with
      | Some (JStr f), Some (JArr bps) =>
          match traverse breakpoint_of_json bps with
          | Some l => Some (f, l)
          | None => None
          end
      | _, _ => None
      end
  | _ => None
  end.

Definition reload (data : jsstring) : option (Map (list VanessaBreakpoint)) :=
  match JSON_parse data with
  | Some (JArr records) => traverse record_of_json records
  | _ => None
  end.

(** The [{id, line}] pairs of a sequence of breakpoints. *)
Definition id_line_pairs (bps : list VanessaBreakpoint) : list (Z * Z) :=
  map (fun bp => (id bp, line bp)) bps.

(** ** Predicates used in the statements *)

(** The lines [verifyBreakpoints path] works on: the cached ones when
    [path] is the loaded file, the file's lines otherwise. *)
Definition loaded_lines (path : jsstring) (w : World) : option (list jsstring) :=
  if same_file (_sourceFile w) path then _sourceLines w
  else option_map (split LF) (Map_get path (disk w)).

(** A line on which no breakpoint may stay: blank after trimming, or
    starting with the continuation marker. *)
Definition unbreakable (l : jsstring) : bool :=
  match trim l with
  | [] => true
  | c :: _ => (c =? PLUS)%N
  end.

Definition lines_nonnegative (bps : list VanessaBreakpoint) : Prop :=
  Forall (fun bp => 0 <= line bp) bps.

(** A verification pass would move no breakpoint of the sequence. *)
Definition settled (sourceLines : option (list jsstring))
    (bps : list VanessaBreakpoint) : Prop :=
  forEach_verify sourceLines bps = (bps, None).

(** All breakpoint objects of the registry, file after file. *)
Definition all_breakpoints (w : World) : list VanessaBreakpoint :=
  flat_map snd (_breakPoints w).

(** The invariant of the registry: no breakpoint is verified, every id was
    issued by the counter, and no id occurs twice. *)
Record registry_ok (w : World) : Prop := {
  ok_unverified : Forall (fun bp => verified bp = false) (all_breakpoints w);
  ok_issued : Forall (fun bp => id bp <= _breakpointId w) (all_breakpoints w);
  ok_distinct : NoDup (map id (all_breakpoints w))
}.

(** The same invariant on the flattened registry, for a counter value. *)
Definition ok_list (counter : Z) (l : list VanessaBreakpoint) : Prop :=
  Forall (fun bp => verified bp = false) l /\
  Forall (fun bp => id bp <= counter) l /\
  NoDup (map id l).

(** The loaded source, when there is one, has at least one line. *)
Definition source_ok (w : World) : Prop :=
  forall lines, _sourceLines w = Some lines -> lines <> [].

(** What one pass does to one breakpoint: id and flag are kept; an
    unverified breakpoint on an unbreakable line moves down by one, one on
    any other line or beyond the last line stays. *)
Definition verified_once (lines : list jsstring) (bp bp' : VanessaBreakpoint) : Prop :=
  id bp' = id bp /\ verified bp' = verified bp /\
  (verified bp = false ->
   (forall l, array_get lines (line bp) = Some l -> unbreakable l = true ->
              line bp' = line bp + 1) /\
   (forall l, array_get lines (line bp) = Some l -> unbreakable l = false ->
              bp' = bp) /\
   (array_length lines <= line bp -> bp' = bp)).

(** The state outside the runtime object. *)
Definition surroundings (w : World) :=
  (written w, rootPath w, activeTextEditor w, requests w, scheduled w, pending w).

(** ** A sample session

    A five-line feature file whose third line is blank and whose fourth
    line is a continuation line. *)
Module Sample.
Definition path : jsstring := js "a.feature".
Definition other : jsstring := js "other.feature".

Definition text : jsstring :=
  js "Feature: f" ++ [LF] ++ js "  Given a" ++ [LF] ++ js "   " ++ [LF]
  ++ js "  + b" ++ [LF] ++ js "  Then c".

Definition lines : list jsstring :=
  [js "Feature: f"; js "  Given a"; js "   "; js "  + b"; js "  Then c"].

Definition files : Map jsstring :=
  [(path, text); (other, js "Feature: g")].

Definition root : option jsstring := Some (js "C:\ws").

(** A fresh runtime, the editor showing the feature file. *)
Definition fresh : World := initial files root (Some path).

(** After three breakpoints were asked for, at lines 9, 1 and 2: the
    last one was moved from the blank line to the continuation line. *)
Definition w3 : World :=
  perform_all [SetBreakPoint path 9; SetBreakPoint path 1; SetBreakPoint path 2] fresh.

(** After [start] with [stopOnEntry]. *)
Definition started : World := perform (Start path true) fresh.
End Sample.

(** ** The statements that do not hold of the code as they are worded *)

(** What every step of a session keeps: the registry invariant, the
    counter never going down, a non-empty loaded source. *)
Definition preserved (w w' : World) : Prop :=
  (registry_ok w -> registry_ok w') /\
  _breakpointId w <= _breakpointId w' /\
  (source_ok w -> source_ok w').

(** Within one file, once a verification pass moves nothing, no two
    breakpoints share a line. *)
Definition no_shared_line_claim : Prop :=
  forall (cs : list call) (files : Map jsstring)
         (root editor : option jsstring) (path : jsstring)
         (bps : list VanessaBreakpoint),
    let w := perform_all cs (initial files root editor) in
    Map_get path (_breakPoints w) = Some bps ->
    Map_get path (_breakPoints (perform (VerifyBreakpoints path) w)) = Some bps ->
    NoDup (map line bps).

(** The status-file listener never throws: empty or unreadable content is
    ignored, malformed content is ignored as well, and well-formed content
    is handed to [setCurrentLineInSource]. *)
Definition watcher_claim : Prop :=
  forall (w : World),
    let data := Map_get (getVanessaDebugInfoFile w) (disk w) in
    (truthy data = false -> watchListener w = (Return tt, w)) /\
    (forall text, data = Some text -> JSON_parse text = None ->
                  watchListener w = (Return tt, w)) /\
    (forall text j d, data = Some text -> text <> [] ->
                      JSON_parse text = Some j -> asDebugInfo j = Some d ->
                      watchListener w = setCurrentLineInSource d w).

(** A record for the active file sets the line and asks for one step
    over; a record for any other file asks for the document first and does
    not touch the line yet.  [active] is what is taken for the active file:
    the document of the active editor, or the file the runtime has
    loaded. *)
Definition external_position_claim (active : World -> option jsstring) : Prop :=
  forall (w : World) (d : Info.t),
    (active w = Some (Info.file d) ->
     setCurrentLineInSource d w
     = (Return tt, add_request (ExecuteCommand stepOver)
                     (set_currentLine (Info.line d - 1) w))) /\
    (active w <> Some (Info.file d) ->
     exists w', setCurrentLineInSource d w = (Return tt, w') /\
                requests w' = requests w ++ [OpenTextDocument (Info.file d)] /\
                _currentLine w' = _currentLine w).

Module SampleStatus.
(** The status record of the scenario: line 7 of the other file. *)
Definition text : jsstring :=
  js "{" ++ quote_string (js "file") ++ js ":" ++ quote_string Sample.other
  ++ js "," ++ quote_string (js "line") ++ js ":7,"
  ++ quote_string (js "status") ++ js ":" ++ quote_string (js "run") ++ js "}".

(** The same text cut after the first colon. *)
Definition cut : jsstring := js "{" ++ quote_string (js "file") ++ js ":".

Definition record : Info.t :=
  {| Info.file := Sample.other; Info.line := 7; Info.status := js "run";
     Info.done := None |}.

Definition statusFile : jsstring := getVanessaDebugInfoFile Sample.fresh.

(** The debuggee has written the record; the editor shows [a.feature]. *)
Definition reported : World :=
  perform (FileChanged statusFile (Some text)) Sample.started.

(** The status file holds a truncated text. *)
Definition truncated : World :=
  perform (FileChanged statusFile (Some cut)) Sample.started.

(** The status file is empty. *)
Definition emptied : World :=
  perform (FileChanged statusFile (Some [])) Sample.started.

(** No editor is active. *)
Definition unfocused : World :=
  perform (EditorChanged None) Sample.started.

(** A record for line 2 of the feature file, as a debuggee may lay it
    out: the members in another order, on lines of their own. *)
Definition spaced : jsstring :=
  js "{" ++ [LF]
  ++ js "  " ++ quote_string (js "status") ++ js " : " ++ quote_string (js "run")
  ++ js " ," ++ [LF]
  ++ js "  " ++ quote_string (js "line") ++ js " : 2 ," ++ [LF]
  ++ js "  " ++ quote_string (js "file") ++ js " : " ++ quote_string Sample.path
  ++ [LF] ++ js "}" ++ [LF].

(** The debuggee has written that record; the editor shows the feature
    file. *)
Definition laid_out : World :=
  perform (FileChanged statusFile (Some spaced)) Sample.started.
End SampleStatus.

(** ** Measures for the JSON reader *)

(** Fuel that is enough to read a value back. *)
Fixpoint json_size (v : json) : nat :=
  match v with
  | JArr l => S (list_sum (map (fun x => S (json_size x)) l))
  | JObj l => S (list_sum (map (fun kv => S (json_size (snd kv))) l))
  | _ => 1%nat
  end.

(** The values whose numbers are all integers. *)
Fixpoint integral (v : json) : bool :=
  match v with
  | JNum _ e => e =? 0
  | JArr l => forallb integral l
  | JObj l => forallb (fun kv => integral (snd kv)) l
  | _ => true
  end.

(** A text before which a number ends: it does not go on with a digit, a
    fraction or an exponent. *)
Definition ends_number (rest : jsstring) : bool :=
  match rest with
  | [] => true
  | c :: _ => negb (is_digit c || (c =? 46) || (c =? 101) || (c =? 69))%N
  end.

(** The first unit of a written value: never white space, and naming the
    kind of value. *)
Definition starts_value (s : jsstring) : Prop :=
  match s with
  | [] => False
  | c :: _ => is_json_ws c = false /\ c <> 93%N /\ c <> 125%N
  end.

(** The runtime after the first half of [setBreakPoint]: the counter is
    one up and the new breakpoint is at the end of the array of [path]. *)
Definition pushed (path : jsstring) (ln : Z) (w : World) : World :=
  set_breakPoints
    (Map_set path
       (match Map_get path (_breakPoints w) with Some a => a | None => [] end
        ++ [ {| id := _breakpointId w + 1; line := ln; verified := false |} ])
       (_breakPoints w))
    (set_breakpointId (_breakpointId w + 1) w).

(** The first half of [clearBreakPoint]: what it is about to return, and
    the runtime when it turns to the breakpoints file. *)
Definition cleared (path : jsstring) (ln : Z) (w : World)
  : option VanessaBreakpoint * World :=
  match Map_get path (_breakPoints w) with
  | Some bps =>
      let index := findIndex (fun bp => line bp =? ln) bps in
      if 0 <=? index then
        (array_get bps index,
         set_breakPoints
           (Map_set path (splice1 (Z.to_nat index) bps) (_breakPoints w)) w)
      else (None, w)
  | None => (None, w)
  end.

(** A value is read back from its text, given enough fuel and a text after
    it that ends a number. *)
Definition reads_back (v : json) : Prop :=
  integral v = true ->
  forall fuel rest, (json_size v <= fuel)%nat -> ends_number rest = true ->
  parse_value fuel (JSON_stringify v ++ rest) = Some (v, rest).

(** Fuel for the elements of an array and the members of an object. *)
Definition elements_fuel (l : list json) : nat :=
  list_sum (map (fun x => S (json_size x)) l).

Definition members_fuel (l : list (jsstring * json)) : nat :=
  list_sum (map (fun kv => S (json_size (snd kv))) l).

(** A member as written: the quoted name, a colon, the value. *)
Definition print_member (kv : jsstring * json) : jsstring :=
  quote_string (fst kv) ++ [Chr.colon] ++ JSON_stringify (snd kv).

(** The breakpoints file after a call: it was written once more, it holds
    the registry as it is now, and reading it back gives that registry:
    one record for each file of the mapping, with the breakpoints of that
    file in order. *)
Definition persisted (before after : World) : Prop :=
  let data := JSON_stringify (breakPointsInfo (_breakPoints after)) in
  written after = written before ++ [(getBreakPointsFile after, data)] /\
  Map_get (getBreakPointsFile after) (disk after) = Some data /\
  reload data = Some (_breakPoints after) /\
  (forall m, reload data = Some m ->
     map fst m = map fst (_breakPoints after) /\
     forall path,
       option_map id_line_pairs (Map_get path m)
       = option_map id_line_pairs (Map_get path (_breakPoints after))).

(** Every call that changes the registry, after any such calls, leaves the
    breakpoints file rewritten and holding the registry. *)
Definition persistence_claim : Prop :=
  forall (w : World) (cs : list call) (c : call),
    forallb registry_call cs = true -> registry_call c = true ->
    persisted (perform_all cs w) (perform c (perform_all cs w)).


(* ===================================================================== *)
(** * Part I, continued. Further behaviour of the runtime                 *)
(* ===================================================================== *)

(** [k] passes of verification over the breakpoints of [path], as the
    successive registry calls trigger them. *)
Definition passes (k : nat) (path : jsstring) : list call :=
  repeat (VerifyBreakpoints path) k.

(** What [k] passes have done to one breakpoint: id and flag are kept, the
    line went down by at most [k] lines, every line it left is
    unbreakable, and when it went down by less than [k] lines, or [k]
    covers the lines that were left below it, a further pass does not move
    it. *)
Definition moved_by (lines : list jsstring) (k : nat)
    (bp bp' : VanessaBreakpoint) : Prop :=
  id bp' = id bp /\ verified bp' = verified bp /\
  line bp <= line bp' <= line bp + Z.of_nat k /\
  (forall i, line bp <= i < line bp' ->
             exists l, array_get lines i = Some l /\ unbreakable l = true) /\
  (line bp' < line bp + Z.of_nat k \/ array_length lines - line bp <= Z.of_nat k ->
   verifyBreakpoint (Some lines) bp' = Return bp').

(** The number of [setBreakPoint] calls in a sequence. *)
Definition created (cs : list call) : nat :=
  List.length (filter (fun c => match c with SetBreakPoint _ _ => true | _ => false end) cs).

(** The map has one entry for a key at most, as a JavaScript [Map] has. *)
Definition keys_ok (w : World) : Prop := NoDup (map fst (_breakPoints w)).

(** The other files of the extension ([extension.ts]). *)
Definition getVanessaCommandsFile (w : World) : jsstring :=
  template (rootPath w) ++ js "\.vscode\" ++ js "commandsForVanessa.json".

Definition getUserSettingsFile (w : World) : jsstring :=
  template (rootPath w) ++ js "\" ++ js "user_settings.json".

(** [getCurrentFile]: the document of the active editor, or the empty
    string. *)
Definition getCurrentFile (w : World) : jsstring :=
  match activeTextEditor w with
  | Some fileName => fileName
  | None => []
  end.

(** The parts of the world a method may leave alone. *)
Definition source (w : World) := (_sourceFile w, _sourceLines w).
Definition registry (w : World) := (_breakPoints w, _breakpointId w).
Definition files (w : World) := (written w, disk w, rootPath w).
Definition frontend (w : World) := (activeTextEditor w, requests w, pending w).

(** The calls that name no other source file than [file]. *)
Definition keeps_source (file : jsstring) (c : call) : bool :=
  match c with
  | Start f _ => jsstring_eqb f file
  | SetBreakPoint p _ => jsstring_eqb p file
  | VerifyBreakpoints p => jsstring_eqb p file
  | StatusChanged | Resolved => false
  | _ => true
  end.

Definition position (w : World) := (_currentLine w, scheduled w).

(** A call that has left the counter, the files and the front-end alone. *)
Definition untouched (w w' : World) : Prop :=
  _breakpointId w' = _breakpointId w /\ files w' = files w /\
  frontend w' = frontend w.

(** A call that has written the breakpoints file, once, and no other. *)
Definition saved (w w' : World) : Prop :=
  exists data,
    written w' = written w ++ [(getBreakPointsFile w, data)] /\
    disk w' = Map_set (getBreakPointsFile w) data (disk w) /\
    rootPath w' = rootPath w.

(** No call of the sequence is a change of the file [p] from outside. *)
Definition left_alone (p : jsstring) (cs : list call) : Prop :=
  Forall (fun c => match c with FileChanged f _ => f <> p | _ => True end) cs.

(** The status record as the debuggee writes it. *)
Definition status_json (file : jsstring) (ln : Z) (status : jsstring) : json :=
  JObj [(js "file", JStr file); (js "line", JNum ln 0); (js "status", JStr status)].

Definition keys_kept (w w' : World) : Prop := keys_ok w -> keys_ok w'.


(* ===================================================================== *)
(** * Part I, continued. The extension ([extension.ts])                   *)
(* ===================================================================== *)

Module Extension.

(** ** The user settings *)

(** [interface IUserSettings]; a setting that is absent reads as
    [undefined]. *)
Module Settings.
Record t : Type := {
  DEBUGGER_DB : option jsstring;
  DEBUGGER_DB_USER : option jsstring;
  DEBUGGER_DB_PSW : option jsstring;
  DEBUGGER_VANESSA_PATH : option jsstring
}.
End Settings.

Record IUserSettings : Type := {
  user : jsstring;
  settings : Settings.t
}.

(** A setting of the parsed object: a string, or absent. *)
Definition optional_string (k : jsstring) (ms : list (jsstring * json))
  : option (option jsstring) :=
  match json_member k ms with
  | None => Some None
  | Some (JStr s) => Some (Some s)
  | Some _ => None
  end.

Definition asSettings (j : json) : option Settings.t :=
  match j with
  | JObj ms =>
      match optional_string (js "DEBUGGER_DB") ms,
            optional_string (js "DEBUGGER_DB_USER") ms,
            optional_string (js "DEBUGGER_DB_PSW") ms,
            optional_string (js "DEBUGGER_VANESSA_PATH") ms with
      | Some db, Some u, Some p, Some v =>
          Some {| Settings.DEBUGGER_DB := db; Settings.DEBUGGER_DB_USER := u;
                  Settings.DEBUGGER_DB_PSW := p;
                  Settings.DEBUGGER_VANESSA_PATH := v |}
      | _, _, _, _ => None
      end
  | _ => None
  end.

Definition asIUserSettings (j : json) : option IUserSettings :=
  match j with
  | JObj ms =>
      match json_member (js "user") ms, json_member (js "settings") ms with
      | Some (JStr u), Some s =>
          match asSettings s with
          | Some t => Some {| user := u; settings := t |}
          | None => None
          end
      | _, _ => None
      end
  | _ => None
  end.

(** The type assertion [as { userSettings: Array<IUserSettings> }] holds of
    the parsed value. *)
Definition asUserSettings (j : json) : option (list IUserSettings) :=
  match j with
  | JObj ms =>
      match json_member (js "userSettings") ms with
      | Some (JArr l) => traverse asIUserSettings l
      | _ => None
      end
  | _ => None
  end.

(** ** The extension host *)

(** The module variable [COLD_RESTART], the name of the operating-system
    user, the commands handed to [exec], and the world the path functions
    read (files, workspace root, active editor). *)
Record Host : Type := {
  world : World;
  COLD_RESTART : bool;
  username : jsstring;
  executed : list jsstring
}.

Definition setRestartMode (mode : bool) (h : Host) : Host :=
  {| world := world h; COLD_RESTART := mode; username := username h;
     executed := executed h |}.

Definition exec (command : jsstring) (h : Host) : Host :=
  {| world := world h; COLD_RESTART := COLD_RESTART h; username := username h;
     executed := executed h ++ [command] |}.

Section Platform.
(** [String.prototype.toUpperCase], which is not modelled. *)
Variable toUpperCase : jsstring -> jsstring.

Definition getRunParamsFor1C (h : Host) : result (option IUserSettings) :=
  let userName := toUpperCase (username h) in
  let settingsFile := getUserSettingsFile (world h) in
  match Map_get settingsFile (disk (world h)) with
  | Some data =>
      if truthy (Some data) then
        match JSON_parse data with
        | None => Throw SyntaxError
        | Some j =>
            match asUserSettings j with
            | None => Throw IllTyped
            | Some userSettings =>
                Return (find (fun s => jsstring_eqb (user s) (toUpperCase userName))
                          userSettings)
            end
        end
      else Return None
  | None => Return None
  end.

(** [cond ? `flag "${value}" ` : ''] *)
Definition option_text (flag : jsstring) (userParams : option IUserSettings)
    (setting : Settings.t -> option jsstring) : jsstring :=
  match userParams with
  | Some u =>
      if truthy (setting (settings u))
      then flag ++ [Chr.quote] ++ template (setting (settings u)) ++ [Chr.quote]
           ++ js " "
      else []
  | None => []
  end.

Definition enterprise : jsstring :=
  [Chr.quote] ++ js "C:\Program Files (x86)\1cv8\common\1cestart.exe"
  ++ [Chr.quote] ++ js " ENTERPRISE ".

Definition additional (w : World) : jsstring :=
  let feature := js "feature=" ++ getCurrentFile w ++ js " " in
  let bps := js "breaks=" ++ getBreakPointsFile w ++ js " " in
  let debugInfo := js "debugInfo=" ++ getVanessaDebugInfoFile w ++ js " " in
  let commands := js "commands=" ++ getVanessaCommandsFile w ++ js " " in
  js "/C " ++ [Chr.quote] ++ feature ++ bps ++ debugInfo ++ commands ++ [Chr.quote].

Definition run_command (userParams : option IUserSettings) (w : World) : jsstring :=
  let db := option_text (js "/S ") userParams Settings.DEBUGGER_DB in
  let user := option_text (js "/N ") userParams Settings.DEBUGGER_DB_USER in
  let psw := option_text (js "/P ") userParams Settings.DEBUGGER_DB_PSW in
  let vanessa :=
    option_text (js "/Execute ") userParams Settings.DEBUGGER_VANESSA_PATH in
  enterprise ++ db ++ user ++ psw ++ vanessa ++ additional w.

(** The callback of the [run1c] command, run with the answer of the input
    box ([None]: the box was dismissed). *)
Definition run1c (prev : option jsstring) (h : Host)
  : result (option jsstring) * Host :=
  match getRunParamsFor1C h with
  | Throw e => (Throw e, h)
  | Return userParams =>
      let h1 := if truthy prev && negb (COLD_RESTART h)
                then exec (run_command userParams (world h)) h
                else h in
      let h2 := if COLD_RESTART h1 then setRestartMode false h1 else h1 in
      (Return prev, h2)
  end.

(** Successive answers to the input box; [None] when a callback throws. *)
Fixpoint run1c_all (answers : list (option jsstring)) (h : Host) : option Host :=
  match answers with
  | [] => Some h
  | prev :: r =>
      match run1c prev h with
      | (Return _, h') => run1c_all r h'
      | (Throw _, _) => None
      end
  end.
End Platform.

(** The settings as a JSON value: the settings that are present, in the
    order of the interface. *)
Definition member (k : jsstring) (v : option jsstring) : list (jsstring * json) :=
  match v with
  | Some s => [(k, JStr s)]
  | None => []
  end.

Definition settings_json (t : Settings.t) : json :=
  JObj (member (js "DEBUGGER_DB") (Settings.DEBUGGER_DB t)
        ++ member (js "DEBUGGER_DB_USER") (Settings.DEBUGGER_DB_USER t)
        ++ member (js "DEBUGGER_DB_PSW") (Settings.DEBUGGER_DB_PSW t)
        ++ member (js "DEBUGGER_VANESSA_PATH") (Settings.DEBUGGER_VANESSA_PATH t)).

Definition user_json (s : IUserSettings) : json :=
  JObj [(js "user", JStr (user s)); (js "settings", settings_json (settings s))].

Definition userSettings_json (l : list IUserSettings) : json :=
  JObj [(js "userSettings", JArr (map user_json l))].

(** ** The configuration provider *)

(** [vscode.DebugConfiguration], with the attributes the provider reads or
    writes. *)
Module Config.
Record t : Type := {
  type : option jsstring;
  request : option jsstring;
  name : option jsstring;
  program : option jsstring;
  stopOnEntry : option bool;
  debugServer : option Z
}.
End Config.

(** The provider: the port of the server it has created, if any, and the
    messages shown. *)
Record Provider : Type := {
  _server : option Z;
  shown : list jsstring
}.

Definition run1CCommand : jsstring := js "$" ++ js "{command:Run1CEnerprise}".

(** [resolveDebugConfiguration], with the language of the active editor's
    document ([None]: no active editor) and the port that [listen(0)] is
    given when it is called. *)
Definition resolveDebugConfiguration (languageId : option jsstring) (port : Z)
    (config : Config.t) (p : Provider) : option Config.t * Provider :=
  let config1 :=
    if negb (truthy (Config.type config)) && negb (truthy (Config.request config))
       && negb (truthy (Config.name config))
    then
      match languageId with
      | Some l =>
          if jsstring_eqb l (js "feature") then
            {| Config.type := Some (js "vanessa");
               Config.request := Some (js "launch");
               Config.name := Some (js "Launch");
               Config.program := Some run1CCommand;
               Config.stopOnEntry := Some true;
               Config.debugServer := Config.debugServer config |}
          else config
      | None => config
      end
    else config in
  if negb (truthy (Config.program config1)) then
    (None, {| _server := _server p;
              shown := shown p ++ [js "Cannot find a program to debug"] |})
  else
    let server := match _server p with
                  | Some s => s
                  | None => port
                  end in
    (Some {| Config.type := Config.type config1;
             Config.request := Config.request config1;
             Config.name := Config.name config1;
             Config.program := Config.program config1;
             Config.stopOnEntry := Config.stopOnEntry config1;
             Config.debugServer := Some server |},
     {| _server := Some server; shown := shown p |}).

(** The configuration is blank ([launch.json] missing or empty) and the
    active editor shows a feature file. *)
Definition defaults_apply (languageId : option jsstring) (config : Config.t) : bool :=
  negb (truthy (Config.type config)) && negb (truthy (Config.request config))
  && negb (truthy (Config.name config))
  && match languageId with
     | Some l => jsstring_eqb l (js "feature")
     | None => false
     end.

(** Successive launches: the editor's language, the port on offer and the
    configuration of each. *)
Fixpoint resolve_all (calls : list (option jsstring * Z * Config.t)) (p : Provider)
  : list (option Config.t) * Provider :=
  match calls with
  | [] => ([], p)
  | (languageId, port, config) :: r =>
      let (c, p1) := resolveDebugConfiguration languageId port config p in
      let (cs, p2) := resolve_all r p1 in
      (c :: cs, p2)
  end.

(** A sample host: the sample workspace with a settings file for two
    users, the second of which is listed twice; and two configurations. *)
Module Demo.
Definition entries : list IUserSettings :=
  [ {| user := js "ANNA";
       settings := {| Settings.DEBUGGER_DB := Some (js "srv\base");
                      Settings.DEBUGGER_DB_USER := None;
                      Settings.DEBUGGER_DB_PSW := None;
                      Settings.DEBUGGER_VANESSA_PATH := Some (js "C:\va.epf") |} |};
    {| user := js "BORIS";
       settings := {| Settings.DEBUGGER_DB := Some (js "first");
                      Settings.DEBUGGER_DB_USER := Some (js "boris");
                      Settings.DEBUGGER_DB_PSW := Some [];
                      Settings.DEBUGGER_VANESSA_PATH := None |} |};
    {| user := js "BORIS";
       settings := {| Settings.DEBUGGER_DB := Some (js "second");
                      Settings.DEBUGGER_DB_USER := None;
                      Settings.DEBUGGER_DB_PSW := None;
                      Settings.DEBUGGER_VANESSA_PATH := None |} |} ].

(** An upper-casing of the letters a to z, to run the samples with. *)
Definition upper (s : jsstring) : jsstring :=
  map (fun c => if ((97 <=? c) && (c <=? 122))%N then (c - 32)%N else c) s.

Definition host (cold : bool) (settingsText : option jsstring) : Host :=
  {| world := set_disk (getUserSettingsFile Sample.fresh) settingsText Sample.fresh;
     COLD_RESTART := cold; username := js "Boris"; executed := [] |}.

Definition configured : Host :=
  host false (Some (JSON_stringify (userSettings_json entries))).

(** A settings file edited by hand: indented, one member a line. *)
Definition edited : jsstring :=
  js "{" ++ [LF]
  ++ js "  " ++ quote_string (js "userSettings") ++ js ": [" ++ [LF]
  ++ js "    { " ++ quote_string (js "user") ++ js ": " ++ quote_string (js "BORIS")
  ++ js "," ++ [LF]
  ++ js "      " ++ quote_string (js "settings") ++ js ": { "
  ++ quote_string (js "DEBUGGER_DB") ++ js ": " ++ quote_string (js "first")
  ++ js " } }," ++ [LF]
  ++ js "    { " ++ quote_string (js "user") ++ js ": " ++ quote_string (js "BORIS")
  ++ js "," ++ [LF]
  ++ js "      " ++ quote_string (js "settings") ++ js ": { "
  ++ quote_string (js "DEBUGGER_DB") ++ js ": " ++ quote_string (js "second")
  ++ js " } }" ++ [LF]
  ++ js "  ]" ++ [LF] ++ js "}" ++ [LF].

Definition edited_entries : list IUserSettings :=
  [ {| user := js "BORIS";
       settings := {| Settings.DEBUGGER_DB := Some (js "first");
                      Settings.DEBUGGER_DB_USER := None;
                      Settings.DEBUGGER_DB_PSW := None;
                      Settings.DEBUGGER_VANESSA_PATH := None |} |};
    {| user := js "BORIS";
       settings := {| Settings.DEBUGGER_DB := Some (js "second");
                      Settings.DEBUGGER_DB_USER := None;
                      Settings.DEBUGGER_DB_PSW := None;
                      Settings.DEBUGGER_VANESSA_PATH := None |} |} ].

Definition launch : Config.t :=
  {| Config.type := Some (js "vanessa"); Config.request := Some (js "launch");
     Config.name := Some (js "Debug"); Config.program := Some (js "a.feature");
     Config.stopOnEntry := None; Config.debugServer := None |}.

Definition empty : Config.t :=
  {| Config.type := None; Config.request := None; Config.name := None;
     Config.program := None; Config.stopOnEntry := None;
     Config.debugServer := None |}.
End Demo.

End Extension.

(** The host after the runtime has made calls in its world. *)
Definition after_calls (cs : list call) (h : Extension.Host) : Extension.Host :=
  {| Extension.world := perform_all cs (Extension.world h);
     Extension.COLD_RESTART := Extension.COLD_RESTART h;
     Extension.username := Extension.username h;
     Extension.executed := Extension.executed h |}.
(* ===================================================================== *)
(** * Part II. Properties                                                 *)
(* ===================================================================== *)


(** ** Strings and maps *)

Lemma jsstring_eqb_spec (a b : jsstring) : reflect (a = b) (jsstring_eqb a b).
Proof.
  revert b; induction a as [|x a IH]; intros [|y b]; simpl;
    try (constructor; congruence).
  destruct (N.eqb_spec x y) as [->|Hxy]; simpl.
  - destruct (IH b) as [->|Hab]; constructor; congruence.
  - constructor; congruence.
Qed.

Lemma jsstring_eqb_refl (a : jsstring) : jsstring_eqb a a = true.
Proof. destruct (jsstring_eqb_spec a a); congruence. Qed.

Lemma jsstring_eqb_neq {a b : jsstring} : a <> b -> jsstring_eqb a b = false.
Proof. destruct (jsstring_eqb_spec a b); congruence. Qed.

Lemma split_not_empty (sep : code_unit) (s : jsstring) : split sep s <> [].
Proof.
  induction s as [|c r IH]; simpl; [discriminate|].
  destruct (c =? sep)%N; [discriminate|].
  destruct (split sep r); discriminate.
Qed.

Lemma indexOf_range (c : code_unit) (s : jsstring) :
  indexOf c s = -1 \/ 0 <= indexOf c s.
Proof.
  induction s as [|d r IH]; simpl; [now left|].
  destruct (d =? c)%N; [right; lia|].
  destruct (indexOf c r <? 0) eqn:E; [now left|].
  apply Z.ltb_ge in E. right; lia.
Qed.

(** The test of [verifyBreakpoints] on the trimmed line is the test
    "empty, or beginning with [+]". *)
Lemma unbreakable_test (l : jsstring) :
  (array_length (trim l) =? 0) || (indexOf PLUS (trim l) =? 0) = unbreakable l.
Proof.
  unfold unbreakable, array_length.
  destruct (trim l) as [|c r]; simpl; [reflexivity|].
  destruct (c =? PLUS)%N; [reflexivity|].
  destruct (indexOf_range PLUS r) as [E|E].
  - rewrite E. reflexivity.
  - destruct (indexOf PLUS r <? 0) eqn:F.
    + reflexivity.
    + apply Z.eqb_neq. lia.
Qed.

Section MapFacts.
Context {V : Type}.
Implicit Types (m : Map V) (k : jsstring) (v : V).

Lemma Map_get_set_same m k v : Map_get k (Map_set k v m) = Some v.
Proof.
  induction m as [|[k' v'] r IH]; simpl.
  - now rewrite jsstring_eqb_refl.
  - destruct (jsstring_eqb k k') eqn:E; simpl; rewrite E; auto.
Qed.

Lemma Map_get_set_other m k k' v :
  k' <> k -> Map_get k' (Map_set k v m) = Map_get k' m.
Proof.
  intros Hne. induction m as [|[k0 v0] r IH]; simpl.
  - now rewrite (jsstring_eqb_neq Hne).
  - destruct (jsstring_eqb_spec k k0) as [->|E]; simpl.
    + now rewrite (jsstring_eqb_neq Hne).
    + destruct (jsstring_eqb k' k0); auto.
Qed.

Lemma Map_get_In m k v : Map_get k m = Some v -> In (k, v) m.
Proof.
  induction m as [|[k' v'] r IH]; simpl; [discriminate|].
  destruct (jsstring_eqb_spec k k') as [->|E].
  - intros [= ->]. now left.
  - intros H. right. auto.
Qed.
End MapFacts.

(** ** Line verification *)

Lemma array_get_in_range {A} (a : list A) (i : Z) :
  0 <= i < array_length a -> exists x, array_get a i = Some x.
Proof.
  unfold array_get, array_length. intros [H0 H1].
  destruct (i <? 0) eqn:E; [apply Z.ltb_lt in E; lia|].
  destruct (nth_error a (Z.to_nat i)) eqn:F; [eauto|].
  apply nth_error_None in F. lia.
Qed.

Lemma array_get_Some_range {A} (a : list A) (i : Z) (x : A) :
  array_get a i = Some x -> 0 <= i < array_length a.
Proof.
  unfold array_get, array_length.
  destruct (i <? 0) eqn:E; [discriminate|]. apply Z.ltb_ge in E.
  intros H. assert (Hn : nth_error a (Z.to_nat i) <> None) by congruence.
  apply nth_error_Some in Hn. lia.
Qed.

Lemma verifyBreakpoint_once (lines : list jsstring) (bp : VanessaBreakpoint) :
  0 <= line bp ->
  exists bp', verifyBreakpoint (Some lines) bp = Return bp' /\
              verified_once lines bp bp'.
Proof.
  intros Hnn. unfold verifyBreakpoint, verified_once.
  destruct (verified bp) eqn:Hv; simpl.
  - exists bp. repeat split; auto; discriminate.
  - destruct (line bp <? array_length lines) eqn:Hlt.
    + apply Z.ltb_lt in Hlt.
      destruct (array_get_in_range lines (line bp)) as [l Hl]; [lia|].
      rewrite Hl, unbreakable_test.
      destruct (unbreakable l) eqn:Hu.
      * eexists; split; [reflexivity|]. simpl.
        repeat split; auto; intros; try lia; congruence.
      * exists bp. repeat split; auto; intros; try lia; congruence.
    + apply Z.ltb_ge in Hlt. exists bp. repeat split; auto.
      intros l Hl. apply array_get_Some_range in Hl. lia.
Qed.

Lemma forEach_verify_pass (lines : list jsstring) (bps : list VanessaBreakpoint) :
  lines_nonnegative bps ->
  exists bps', forEach_verify (Some lines) bps = (bps', None) /\
               Forall2 (verified_once lines) bps bps'.
Proof.
  induction 1 as [|bp r Hbp Hr IH]; simpl.
  - exists []. split; [reflexivity|constructor].
  - destruct (verifyBreakpoint_once lines bp Hbp) as (bp' & E & Hone).
    destruct IH as (r' & Er & Hall).
    rewrite E, Er. exists (bp' :: r'). split; [reflexivity|now constructor].
Qed.

Lemma loadSource_loaded (path : jsstring) (w : World) (lines : list jsstring) :
  loaded_lines path w = Some lines ->
  exists w', loadSource path w = (Return tt, w') /\
             _sourceLines w' = Some lines /\
             _sourceFile w' = Some path /\
             _breakPoints w' = _breakPoints w /\
             _breakpointId w' = _breakpointId w /\
             _currentLine w' = _currentLine w /\
             scheduled w' = scheduled w /\
             requests w' = requests w /\
             written w' = written w /\
             disk w' = disk w /\
             rootPath w' = rootPath w /\
             pending w' = pending w /\
             activeTextEditor w' = activeTextEditor w.
Proof.
  unfold loaded_lines, loadSource, bind, get, modify, ret, readFileSync.
  destruct (same_file (_sourceFile w) path) eqn:E.
  - intros H. exists w. repeat split; auto.
    unfold same_file in E. destruct (_sourceFile w) as [f|]; [|discriminate].
    destruct (jsstring_eqb_spec f path); congruence.
  - simpl. destruct (Map_get path (disk w)) as [data|]; [|discriminate].
    simpl. intros [= <-]. eexists. split; [reflexivity|].
    simpl. repeat split; reflexivity.
Qed.

(** C1. One verification pass of a file, on breakpoints with non-negative
    lines and a loadable source: the pass returns; each unverified
    breakpoint whose line lies inside the loaded source and reads, once
    trimmed, empty or starting with [+] has its line advanced by exactly
    one (whatever the following line is); on any other content the
    breakpoint is unchanged; a breakpoint at or beyond the line count is
    unchanged; the other files' breakpoints are not touched. *)
Theorem verifyBreakpoints_single_pass
    (w : World) (path : jsstring) (bps : list VanessaBreakpoint)
    (lines : list jsstring) :
  Map_get path (_breakPoints w) = Some bps ->
  loaded_lines path w = Some lines ->
  lines_nonnegative bps ->
  exists w' bps',
    verifyBreakpoints path w = (Return tt, w') /\
    _sourceLines w' = Some lines /\
    Map_get path (_breakPoints w') = Some bps' /\
    Forall2 (verified_once lines) bps bps' /\
    (forall p, p <> path ->
               Map_get p (_breakPoints w') = Map_get p (_breakPoints w)).
Proof.
  intros Hget Hload Hnn.
  destruct (loadSource_loaded path w lines Hload)
    as (w1 & E1 & Hl1 & _ & Hb1 & _).
  destruct (forEach_verify_pass lines bps Hnn) as (bps' & E2 & Hall).
  unfold verifyBreakpoints, bind, get. rewrite Hget, E1, Hl1, E2.
  unfold modify, ret. eexists; exists bps'. split; [reflexivity|].
  simpl. repeat split; auto.
  - rewrite Hb1. apply Map_get_set_same.
  - intros p Hp. rewrite Hb1. now apply Map_get_set_other.
Qed.

Example sample_text_lines : split LF Sample.text = Sample.lines.
Proof. reflexivity. Qed.

Lemma verifyBreakpoints_single_pass_witness :
  exists w' bps',
    verifyBreakpoints Sample.path Sample.w3 = (Return tt, w') /\
    _sourceLines w' = Some Sample.lines /\
    Map_get Sample.path (_breakPoints w') = Some bps' /\
    Forall2 (verified_once Sample.lines)
      [ {| id := 2; line := 9; verified := false |};
        {| id := 3; line := 1; verified := false |};
        {| id := 4; line := 3; verified := false |} ] bps' /\
    (forall p, p <> Sample.path ->
               Map_get p (_breakPoints w') = Map_get p (_breakPoints Sample.w3)).
Proof.
  apply (verifyBreakpoints_single_pass Sample.w3 Sample.path).
  - vm_compute. reflexivity.
  - vm_compute. reflexivity.
  - repeat constructor; simpl; lia.
Defined.

(** ** What the methods leave alone *)

Ltac run_monad :=
  unfold bind, get, modify, ret, throw, sendEvent, readFileSync in *; simpl in *.

Lemma loadSource_frame (file : jsstring) (w : World) :
  let w' := snd (loadSource file w) in
  surroundings w' = surroundings w /\ disk w' = disk w /\
  _breakPoints w' = _breakPoints w /\ _breakpointId w' = _breakpointId w /\
  _currentLine w' = _currentLine w.
Proof.
  unfold loadSource. run_monad.
  destruct (same_file (_sourceFile w) file); simpl; [repeat split|].
  destruct (Map_get file (disk w)); simpl; repeat split.
Qed.

(** [verifyBreakpoints] and [setBreakPoint] written out. *)
Lemma verifyBreakpoints_absent (path : jsstring) (w : World) :
  Map_get path (_breakPoints w) = None ->
  verifyBreakpoints path w = (Return tt, w).
Proof. intros H. unfold verifyBreakpoints, bind, get. now rewrite H. Qed.

Lemma verifyBreakpoints_run (path : jsstring) (w : World)
    (bps : list VanessaBreakpoint) :
  Map_get path (_breakPoints w) = Some bps ->
  verifyBreakpoints path w
  = match loadSource path w with
    | (Return _, w1) =>
        (match snd (forEach_verify (_sourceLines w1) bps) with
         | None => Return tt
         | Some x => Throw x
         end,
         set_breakPoints
           (Map_set path (fst (forEach_verify (_sourceLines w1) bps))
              (_breakPoints w1)) w1)
    | (Throw e, w1) => (Throw e, w1)
    end.
Proof.
  intros H. unfold verifyBreakpoints. unfold bind at 1, get at 1. rewrite H.
  unfold bind at 1. destruct (loadSource path w) as [[[]|e] w1]; [|reflexivity].
  unfold bind at 1, get at 1.
  destruct (forEach_verify (_sourceLines w1) bps) as [bps' [x|]]; reflexivity.
Qed.

Lemma saveBreakpointsToFile_run (path : jsstring) (w : World) :
  saveBreakpointsToFile path w
  = if can_write w
    then (Return tt,
          write_file (getBreakPointsFile w)
            (JSON_stringify (breakPointsInfo (_breakPoints w))) w)
    else (Throw IOError, w).
Proof.
  unfold saveBreakpointsToFile, writeFileSync, can_write, bind, get.
  now destruct (existsb _ _).
Qed.

Lemma setBreakPoint_run (path : jsstring) (ln : Z) (w : World) :
  setBreakPoint path ln w
  = match verifyBreakpoints path (pushed path ln w) with
    | (Return _, w3) =>
        if can_write w3 then
          (Return (match Map_get path (_breakPoints w3) with
                   | Some a =>
                       last a {| id := _breakpointId w + 1; line := ln;
                                 verified := false |}
                   | None => {| id := _breakpointId w + 1; line := ln;
                                verified := false |}
                   end),
           write_file (getBreakPointsFile w3)
             (JSON_stringify (breakPointsInfo (_breakPoints w3))) w3)
        else (Throw IOError, w3)
    | (Throw e, w3) => (Throw e, w3)
    end.
Proof.
  unfold setBreakPoint, pushed. unfold bind at 1, modify at 1.
  unfold bind at 1, get at 1. unfold bind at 1, modify at 1.
  cbn [_breakpointId _breakPoints set_breakpointId set_breakPoints].
  unfold bind at 1.
  match goal with
  | |- context [verifyBreakpoints path ?v] =>
      destruct (verifyBreakpoints path v) as [[[]|e] w3]
  end; [|reflexivity].
  unfold bind at 1. rewrite saveBreakpointsToFile_run.
  destruct (can_write w3); reflexivity.
Qed.

(** What can be written is not changed by loading or verifying. *)
Lemma loadSource_access (file : jsstring) (w : World) :
  readonly (snd (loadSource file w)) = readonly w /\
  can_write (snd (loadSource file w)) = can_write w.
Proof.
  unfold loadSource, can_write, getBreakPointsFile. run_monad.
  destruct (same_file (_sourceFile w) file); simpl; [auto|].
  destruct (Map_get file (disk w)); simpl; auto.
Qed.

Lemma verifyBreakpoints_access (path : jsstring) (w : World) :
  readonly (snd (verifyBreakpoints path w)) = readonly w /\
  can_write (snd (verifyBreakpoints path w)) = can_write w.
Proof.
  destruct (Map_get path (_breakPoints w)) as [bps|] eqn:Hget.
  - rewrite (verifyBreakpoints_run path w bps Hget).
    pose proof (loadSource_access path w) as F.
    destruct (loadSource path w) as [[[]|e] w1]; cbn [snd] in *; exact F.
  - rewrite (verifyBreakpoints_absent path w Hget). auto.
Qed.

Lemma verifyBreakpoints_frame (path : jsstring) (w : World) :
  let w' := snd (verifyBreakpoints path w) in
  surroundings w' = surroundings w /\ disk w' = disk w /\
  _breakpointId w' = _breakpointId w /\ _currentLine w' = _currentLine w.
Proof.
  destruct (Map_get path (_breakPoints w)) as [bps|] eqn:Hget.
  - rewrite (verifyBreakpoints_run path w bps Hget).
    pose proof (loadSource_frame path w) as F. simpl in F.
    destruct (loadSource path w) as [[[]|e] w1]; simpl in *; tauto.
  - rewrite (verifyBreakpoints_absent path w Hget). simpl. tauto.
Qed.

(** A verification pass that has nothing to throw at: the file has no
    entry, or its source loads and its breakpoints have non-negative
    lines. *)
Lemma verifyBreakpoints_returns (path : jsstring) (w : World) (lines : list jsstring) :
  loaded_lines path w = Some lines ->
  (forall bps, Map_get path (_breakPoints w) = Some bps -> lines_nonnegative bps) ->
  exists w', verifyBreakpoints path w = (Return tt, w') /\
             (_sourceLines w = Some lines -> _sourceLines w' = Some lines).
Proof.
  intros Hload Hnn.
  destruct (Map_get path (_breakPoints w)) as [bps|] eqn:Hget.
  - destruct (loadSource_loaded path w lines Hload) as (w1 & E1 & Hl1 & _).
    destruct (forEach_verify_pass lines bps (Hnn _ eq_refl)) as (bps' & E2 & _).
    rewrite (verifyBreakpoints_run path w bps Hget), E1, Hl1, E2.
    eexists. split; [reflexivity|]. intros _. exact Hl1.
  - exists w. unfold verifyBreakpoints. run_monad. rewrite Hget. auto.
Qed.

(** ** The run loop *)

Lemma In_upto (n : nat) (from ln : Z) :
  In ln (upto n from) <-> from <= ln < from + Z.of_nat n.
Proof.
  revert from; induction n as [|n IH]; intros from; simpl.
  - lia.
  - rewrite IH. lia.
Qed.

Lemma In_line_range (from bound ln : Z) :
  In ln (line_range from bound) <-> from <= ln < bound.
Proof. unfold line_range. rewrite In_upto. lia. Qed.

Lemma line_range_next (from bound : Z) :
  from < bound -> exists rest, line_range from bound = from :: rest.
Proof.
  intros H. unfold line_range.
  destruct (Z.to_nat (bound - from)) as [|n] eqn:E; [lia|].
  simpl. eauto.
Qed.

Lemma line_range_none (from bound : Z) :
  bound <= from -> line_range from bound = [].
Proof.
  intros H. unfold line_range.
  replace (Z.to_nat (bound - from)) with O by lia. reflexivity.
Qed.

Lemma run_loop_without_event (lns : list Z) (w : World) :
  run_loop lns None w = (Return tt, add_scheduled (js "end") w).
Proof. induction lns as [|ln rest IH]; simpl; [reflexivity|]. exact IH. Qed.

Lemma run_loop_empty_event (lns : list Z) (w : World) :
  run_loop lns (Some []) w = (Return tt, add_scheduled (js "end") w).
Proof. induction lns as [|ln rest IH]; simpl; [reflexivity|]. exact IH. Qed.

Lemma run_loop_with_event (c : code_unit) (event : jsstring) (ln : Z)
    (rest : list Z) (w : World) :
  _currentLine w <= ln ->
  run_loop (ln :: rest) (Some (c :: event)) w
  = (Return tt, set_currentLine ln (add_scheduled (c :: event) w)).
Proof.
  intros H. simpl. unfold fireEventsForLine. run_monad.
  apply Z.leb_le in H. rewrite H. reflexivity.
Qed.

(** C2. [continue()] on a loaded source returns, leaves the world as it
    was but for exactly one scheduled [end] (whatever breakpoints the
    registry holds): no line from [currentLine + 1] to the last one stops
    the scan.  And [start(file, false)] on a loadable file whose
    breakpoints have non-negative lines returns with exactly one more
    scheduled event, [end]; the source it runs on has at least one line
    whenever it was read from the file. *)
Theorem continue_runs_to_end :
  (forall (w : World) (lines : list jsstring),
      _sourceLines w = Some lines ->
      continue w = (Return tt, add_scheduled (js "end") w) /\
      (forall ln, In ln (line_range (_currentLine w + 1) (array_length lines))
                  <-> _currentLine w + 1 <= ln < array_length lines) /\
      (forall ln, fireEventsForLine ln None w = (Return false, w))) /\
  (forall (w : World) (file : jsstring) (lines : list jsstring),
      loaded_lines file w = Some lines ->
      (forall bps, Map_get file (_breakPoints w) = Some bps -> lines_nonnegative bps) ->
      exists w', start file false w = (Return tt, w') /\
                 scheduled w' = scheduled w ++ [js "end"] /\
                 _sourceLines w' = Some lines /\
                 _currentLine w' = -1 /\
                 (same_file (_sourceFile w) file = false -> 1 <= array_length lines)).
Proof.
  split.
  - intros w lines Hl. split; [|split].
    + unfold continue, run. run_monad. rewrite Hl.
      apply run_loop_without_event.
    + intros ln. apply In_line_range.
    + reflexivity.
  - intros w file lines Hload Hnn.
    destruct (loadSource_loaded file w lines Hload)
      as (w1 & E1 & Hl1 & Hf1 & Hb1 & _ & _ & Hs1 & _).
    set (w2 := set_currentLine (-1) w1).
    assert (Hload2 : loaded_lines file w2 = Some lines).
    { unfold loaded_lines. simpl. rewrite Hf1. simpl.
      now rewrite jsstring_eqb_refl. }
    destruct (verifyBreakpoints_returns file w2 lines Hload2) as (w3 & E3 & Hl3).
    { simpl. rewrite Hb1. exact Hnn. }
    pose proof (verifyBreakpoints_frame file w2) as F. rewrite E3 in F.
    simpl in F. destruct F as (Fs & _ & _ & Fc).
    exists (add_scheduled (js "end") w3).
    split; [|split; [|split; [|split]]].
    + unfold start. unfold bind at 1. rewrite E1.
      unfold bind at 1. unfold modify at 1.
      unfold bind at 1. unfold get at 1. fold w2.
      replace (_sourceFile w2) with (Some file) by (simpl; congruence).
      unfold bind at 1. rewrite E3.
      unfold continue, run. run_monad. rewrite (Hl3 Hl1).
      apply run_loop_without_event.
    + simpl. unfold surroundings in Fs. simpl in Fs. congruence.
    + simpl. auto.
    + simpl. exact Fc.
    + intros Hdiff. unfold loaded_lines in Hload. rewrite Hdiff in Hload.
      destruct (Map_get file (disk w)) as [data|]; [|discriminate].
      injection Hload as <-. unfold array_length.
      pose proof (split_not_empty LF data).
      destruct (split LF data); [congruence|simpl; lia].
Qed.

Lemma continue_runs_to_end_witness :
  continue Sample.started
  = (Return tt, add_scheduled (js "end") Sample.started) /\
  exists w', start Sample.path false Sample.w3 = (Return tt, w') /\
             scheduled w' = scheduled Sample.w3 ++ [js "end"] /\
             _sourceLines w' = Some Sample.lines /\
             _currentLine w' = -1 /\
             (same_file (_sourceFile Sample.w3) Sample.path = false ->
              1 <= array_length Sample.lines).
Proof.
  assert (H1 : _sourceLines Sample.started = Some Sample.lines)
    by (vm_compute; reflexivity).
  assert (H2 : loaded_lines Sample.path Sample.w3 = Some Sample.lines)
    by (vm_compute; reflexivity).
  assert (H3 : forall bps,
             Map_get Sample.path (_breakPoints Sample.w3) = Some bps ->
             lines_nonnegative bps).
  { intros bps H. vm_compute in H. injection H as <-.
    repeat constructor; simpl; lia. }
  split.
  - exact (proj1 (proj1 continue_runs_to_end Sample.started Sample.lines H1)).
  - exact (proj2 continue_runs_to_end Sample.w3 Sample.path Sample.lines H2 H3).
Defined.

Lemma step_next (w : World) (lines : list jsstring) (c : code_unit)
    (event : jsstring) :
  _sourceLines w = Some lines ->
  _currentLine w + 1 < array_length lines ->
  step (c :: event) w
  = (Return tt,
     set_currentLine (_currentLine w + 1) (add_scheduled (c :: event) w)).
Proof.
  intros Hl H. unfold step, run. run_monad. rewrite Hl.
  destruct (line_range_next (_currentLine w + 1) (array_length lines) H)
    as (rest & ->).
  apply run_loop_with_event. lia.
Qed.



(** ** Clearing a breakpoint *)

Lemma findIndex_range {A} (p : A -> bool) (a : list A) :
  findIndex p a = -1 \/ 0 <= findIndex p a.
Proof.
  induction a as [|x r IH]; simpl; [now left|].
  destruct (p x); [right; lia|].
  destruct (findIndex p r <? 0) eqn:E; [now left|].
  apply Z.ltb_ge in E. right; lia.
Qed.


Lemma findIndex_first {A} (p : A -> bool) (pre post : list A) (x : A) :
  Forall (fun y => p y = false) pre -> p x = true ->
  findIndex p (pre ++ x :: post) = Z.of_nat (List.length pre).
Proof.
  induction 1 as [|y r Hy Hr IH]; intros Hx; simpl.
  - now rewrite Hx.
  - rewrite Hy, (IH Hx).
    destruct (Z.of_nat (List.length r) <? 0) eqn:E; [apply Z.ltb_lt in E|]; lia.
Qed.

Lemma array_get_middle {A} (pre post : list A) (x : A) :
  array_get (pre ++ x :: post) (Z.of_nat (List.length pre)) = Some x.
Proof.
  unfold array_get.
  destruct (Z.of_nat (List.length pre) <? 0) eqn:E; [apply Z.ltb_lt in E; lia|].
  rewrite Nat2Z.id, nth_error_app2 by lia.
  now rewrite Nat.sub_diag.
Qed.

Lemma splice1_middle {A} (pre post : list A) (x : A) :
  splice1 (List.length pre) (pre ++ x :: post) = pre ++ post.
Proof. induction pre as [|y r IH]; simpl; [reflexivity|now rewrite IH]. Qed.

Lemma clearBreakPoint_run (path : jsstring) (ln : Z) (w : World) :
  clearBreakPoint path ln w
  = if can_write w
    then (Return (fst (cleared path ln w)),
          write_file (getBreakPointsFile w)
            (JSON_stringify (breakPointsInfo (_breakPoints (snd (cleared path ln w)))))
            (snd (cleared path ln w)))
    else (Throw IOError, snd (cleared path ln w)).
Proof.
  unfold clearBreakPoint, cleared. unfold bind at 1, get at 1.
  destruct (Map_get path (_breakPoints w)) as [bps|].
  - destruct (0 <=? _).
    + unfold bind at 1, modify at 1. unfold bind at 1.
      rewrite saveBreakpointsToFile_run. cbn [fst snd].
      change (can_write (set_breakPoints _ w)) with (can_write w).
      destruct (can_write w); reflexivity.
    + unfold bind at 1. rewrite saveBreakpointsToFile_run.
      destruct (can_write w); reflexivity.
  - unfold bind at 1. rewrite saveBreakpointsToFile_run.
    destruct (can_write w); reflexivity.
Qed.


Lemma cleared_frame (path : jsstring) (ln : Z) (w : World) :
  let w1 := snd (cleared path ln w) in
  written w1 = written w /\ disk w1 = disk w /\ rootPath w1 = rootPath w /\
  readonly w1 = readonly w /\ _breakpointId w1 = _breakpointId w /\
  source w1 = source w /\ position w1 = position w /\ frontend w1 = frontend w.
Proof.
  unfold cleared. destruct (Map_get path (_breakPoints w)) as [bps|];
    [destruct (0 <=? _)|]; cbn [snd]; repeat split.
Qed.

(** ** The registry invariant *)

Lemma registry_ok_list (w : World) :
  registry_ok w <-> ok_list (_breakpointId w) (all_breakpoints w).
Proof.
  split.
  - intros [A B C]. repeat split; assumption.
  - intros (A & B & C). constructor; assumption.
Qed.

Lemma ok_list_perm (n : Z) (l l' : list VanessaBreakpoint) :
  Permutation l l' -> ok_list n l -> ok_list n l'.
Proof.
  intros P (A & B & C). repeat split.
  - eapply Permutation_Forall; eassumption.
  - eapply Permutation_Forall; eassumption.
  - eapply Permutation_NoDup; [|exact C]. now apply Permutation_map.
Qed.

Lemma ok_list_mono (n n' : Z) (l : list VanessaBreakpoint) :
  n <= n' -> ok_list n l -> ok_list n' l.
Proof.
  intros Hn (A & B & C). repeat split; auto.
  eapply Forall_impl; [|exact B]. simpl. intros; lia.
Qed.

Lemma ok_list_drop (n : Z) (gone l : list VanessaBreakpoint) :
  ok_list n (gone ++ l) -> ok_list n l.
Proof.
  intros (A & B & C). apply Forall_app in A, B. rewrite map_app in C.
  repeat split; try tauto. eapply NoDup_app_remove_l; eassumption.
Qed.

Lemma ok_list_same_ids (n : Z) (l l' : list VanessaBreakpoint) :
  map id l' = map id l -> map verified l' = map verified l ->
  ok_list n l -> ok_list n l'.
Proof.
  intros Hi Hv (A & B & C). repeat split.
  - apply Forall_forall. intros bp Hbp.
    assert (Hin : In (verified bp) (map verified l'))
      by (apply in_map; exact Hbp).
    rewrite Hv in Hin. apply in_map_iff in Hin. destruct Hin as (b & <- & Hb).
    rewrite Forall_forall in A. auto.
  - apply Forall_forall. intros bp Hbp.
    assert (Hin : In (id bp) (map id l')) by (apply in_map; exact Hbp).
    rewrite Hi in Hin. apply in_map_iff in Hin. destruct Hin as (b & <- & Hb).
    rewrite Forall_forall in B. auto.
  - now rewrite Hi.
Qed.

Lemma ok_list_new (n : Z) (l : list VanessaBreakpoint) (bp : VanessaBreakpoint) :
  id bp = n + 1 -> verified bp = false ->
  ok_list n l -> ok_list (n + 1) (bp :: l).
Proof.
  intros Hi Hv (A & B & C). repeat split.
  - constructor; assumption.
  - constructor; [lia|]. eapply Forall_impl; [|exact B]. simpl. intros; lia.
  - simpl. constructor; [|exact C].
    intros Hin. apply in_map_iff in Hin. destruct Hin as (b & Hb & Hin).
    rewrite Forall_forall in B. specialize (B b Hin). lia.
Qed.

Lemma splice1_perm {A} (i : nat) (a : list A) :
  exists gone, Permutation a (gone ++ splice1 i a).
Proof.
  revert i; induction a as [|x r IH]; intros i.
  - exists []. destruct i; constructor.
  - destruct i as [|j]; simpl.
    + exists [x]. apply Permutation_refl.
    + destruct (IH j) as (gone & P). exists gone.
      now apply Permutation_cons_app.
Qed.

(** How the flattened registry changes with the map. *)
Lemma all_Map_set_present {V} (m : Map (list V)) (k : jsstring) (v : list V) :
  Map_get k m = Some v ->
  exists pre post,
    flat_map snd m = pre ++ v ++ post /\
    forall v', flat_map snd (Map_set k v' m) = pre ++ v' ++ post.
Proof.
  induction m as [|[k' v0] r IH]; simpl; [discriminate|].
  destruct (jsstring_eqb k k') eqn:E.
  - intros [= ->]. exists [], (flat_map snd r). simpl. auto.
  - intros H. destruct (IH H) as (pre & post & E1 & E2).
    exists (v0 ++ pre), post. split.
    + rewrite E1. now rewrite app_assoc.
    + intros v'. simpl. rewrite E2. now rewrite app_assoc.
Qed.

Lemma all_Map_set_absent {V} (m : Map (list V)) (k : jsstring) (v' : list V) :
  Map_get k m = None ->
  flat_map snd (Map_set k v' m) = flat_map snd m ++ v'.
Proof.
  induction m as [|[k' v0] r IH]; simpl.
  - intros _. now rewrite app_nil_r.
  - destruct (jsstring_eqb k k') eqn:E; [discriminate|].
    intros H. simpl. rewrite (IH H). now rewrite app_assoc.
Qed.

Lemma all_Map_delete {V} (m : Map (list V)) (k : jsstring) :
  exists gone, Permutation (flat_map snd m) (gone ++ flat_map snd (Map_delete k m)).
Proof.
  induction m as [|[k' v0] r IH]; simpl.
  - exists []. constructor.
  - destruct (jsstring_eqb k k').
    + exists v0. apply Permutation_refl.
    + destruct IH as (gone & P). exists gone. simpl.
      rewrite P. rewrite !app_assoc. apply Permutation_app_tail.
      apply Permutation_app_comm.
Qed.

Lemma forEach_verify_keeps (sourceLines : option (list jsstring))
    (bps : list VanessaBreakpoint) :
  map id (fst (forEach_verify sourceLines bps)) = map id bps /\
  map verified (fst (forEach_verify sourceLines bps)) = map verified bps.
Proof.
  induction bps as [|bp r [IHi IHv]]; simpl; [auto|].
  destruct (verifyBreakpoint sourceLines bp) as [bp'|e] eqn:E; [|auto].
  destruct (forEach_verify sourceLines r) as [r' e]. simpl in *.
  assert (id bp' = id bp /\ verified bp' = verified bp) as [-> ->].
  { unfold verifyBreakpoint in E.
    destruct (negb (verified bp)); [|injection E as <-; auto].
    destruct sourceLines as [lines|]; [|discriminate].
    destruct (line bp <? array_length lines); [|injection E as <-; auto].
    destruct (array_get lines (line bp)); [|discriminate].
    destruct (_ || _); injection E as <-; auto. }
  now rewrite IHi, IHv.
Qed.

Lemma preserved_refl (w : World) : preserved w w.
Proof. unfold preserved. split; [auto|split; [lia|auto]]. Qed.

Lemma preserved_trans (w1 w2 w3 : World) :
  preserved w1 w2 -> preserved w2 w3 -> preserved w1 w3.
Proof.
  unfold preserved. intros (A & B & C) (D & E & F).
  split; [auto|split; [lia|auto]].
Qed.

Lemma preserved_same (w w' : World) :
  _breakPoints w' = _breakPoints w -> _breakpointId w' = _breakpointId w ->
  _sourceLines w' = _sourceLines w -> preserved w w'.
Proof.
  intros Hb Hi Hl. unfold preserved. split; [|split].
  - rewrite !registry_ok_list. unfold all_breakpoints. now rewrite Hb, Hi.
  - lia.
  - unfold source_ok. now rewrite Hl.
Qed.

Lemma preserved_bind {A B} (c : M A) (k : A -> M B) :
  (forall w, preserved w (snd (c w))) ->
  (forall a w, preserved w (snd (k a w))) ->
  forall w, preserved w (snd (bind c k w)).
Proof.
  intros Hc Hk w. unfold bind. specialize (Hc w).
  destruct (c w) as [[a|e] w1]; simpl in *; [|exact Hc].
  eapply preserved_trans; [exact Hc|apply Hk].
Qed.

Lemma preserved_ret {A} (a : A) (w : World) : preserved w (snd (ret a w)).
Proof. apply preserved_refl. Qed.

Lemma preserved_throw {A} (e : exn) (w : World) : preserved w (snd (@throw A e w)).
Proof. apply preserved_refl. Qed.

Lemma preserved_get (w : World) : preserved w (snd (get w)).
Proof. apply preserved_refl. Qed.

Lemma preserved_modify (f : World -> World) (w : World) :
  _breakPoints (f w) = _breakPoints w -> _breakpointId (f w) = _breakpointId w ->
  _sourceLines (f w) = _sourceLines w ->
  preserved w (snd (modify f w)).
Proof. intros. now apply preserved_same. Qed.

(** The methods that are plain sequences of reads, tests and field
    updates outside the registry. *)
Ltac preserve :=
  repeat first
    [ apply preserved_ret | apply preserved_throw | apply preserved_get
    | apply preserved_modify; reflexivity
    | apply preserved_bind; intros
    | match goal with
      | |- preserved _ (snd ((if ?b then _ else _) _)) => destruct b
      | |- preserved _ (snd ((match ?x with _ => _ end) _)) => destruct x
      end ].

Lemma preserved_loadSource (file : jsstring) (w : World) :
  preserved w (snd (loadSource file w)).
Proof.
  unfold loadSource, readFileSync. run_monad.
  destruct (same_file (_sourceFile w) file); simpl; [apply preserved_refl|].
  destruct (Map_get file (disk w)) as [data|]; simpl.
  - unfold preserved. split; [|split]; simpl; try lia.
    + rewrite !registry_ok_list. auto.
    + intros _ lines [= <-]. apply split_not_empty.
  - apply preserved_same; reflexivity.
Qed.

Lemma preserved_verifyBreakpoints (path : jsstring) (w : World) :
  preserved w (snd (verifyBreakpoints path w)).
Proof.
  destruct (Map_get path (_breakPoints w)) as [bps|] eqn:Hget;
    [|rewrite (verifyBreakpoints_absent path w Hget); apply preserved_refl].
  rewrite (verifyBreakpoints_run path w bps Hget).
  pose proof (preserved_loadSource path w) as P1.
  pose proof (loadSource_frame path w) as F. simpl in F.
  destruct F as (_ & _ & Fb & _).
  destruct (loadSource path w) as [[[]|e] w1]; simpl in *; [|exact P1].
  eapply preserved_trans; [exact P1|].
  pose proof (forEach_verify_keeps (_sourceLines w1) bps) as [Ki Kv].
  unfold preserved. split; [|split]; simpl; try lia; [|auto].
  rewrite !registry_ok_list. unfold all_breakpoints. simpl.
  rewrite Fb in *.
  destruct (all_Map_set_present _ _ _ Hget) as (pre & post & E1 & E2).
  rewrite E1, E2. apply ok_list_same_ids; rewrite !map_app; congruence.
Qed.

Lemma preserved_saveBreakpointsToFile (path : jsstring) (w : World) :
  preserved w (snd (saveBreakpointsToFile path w)).
Proof.
  rewrite saveBreakpointsToFile_run.
  destruct (can_write w); apply preserved_same; reflexivity.
Qed.

Lemma preserved_run (stepEvent : option jsstring) (w : World) :
  preserved w (snd (run stepEvent w)).
Proof.
  unfold run. apply preserved_bind; [apply preserved_get|].
  intros a w1. destruct (_sourceLines a); [|apply preserved_throw].
  generalize (line_range (_currentLine a + 1) (array_length l)). clear.
  intros lns. revert w1. induction lns as [|ln rest IH]; intros w1.
  - apply preserved_same; reflexivity.
  - cbn [run_loop]. unfold fireEventsForLine, sendEvent. preserve. apply IH.
Qed.

Lemma preserved_start (file : jsstring) (stopOnEntry : bool) (w : World) :
  preserved w (snd (start file stopOnEntry w)).
Proof.
  unfold start, step, continue.
  apply preserved_bind; [apply preserved_loadSource|]. intros _ w1.
  apply preserved_bind; [intros; apply preserved_modify; reflexivity|].
  intros _ w2.
  apply preserved_bind; [apply preserved_get|]. intros w3 w4.
  apply preserved_bind.
  - intros w5. destruct (_sourceFile w3);
      [apply preserved_verifyBreakpoints|apply preserved_ret].
  - intros _ w5. destruct stopOnEntry; apply preserved_run.
Qed.

Lemma preserved_pushed (path : jsstring) (ln : Z) (w : World) :
  preserved w (pushed path ln w).
Proof.
  unfold preserved, pushed. split; [|split]; simpl; try lia; [|auto].
  rewrite !registry_ok_list. unfold all_breakpoints. simpl.
  set (bp := {| id := _breakpointId w + 1; line := ln; verified := false |}).
  intros Hok. apply (ok_list_new _ _ bp eq_refl eq_refl) in Hok.
  destruct (Map_get path (_breakPoints w)) as [bps|] eqn:Hget.
  - destruct (all_Map_set_present _ _ _ Hget) as (pre & post & E1 & E2).
    rewrite E2. rewrite E1 in Hok. eapply ok_list_perm; [|exact Hok].
    rewrite <- app_assoc. simpl.
    rewrite (app_assoc pre bps (bp :: post)).
    rewrite (app_assoc pre bps post).
    apply Permutation_middle.
  - rewrite (all_Map_set_absent _ _ _ Hget). simpl.
    eapply ok_list_perm; [|exact Hok]. apply Permutation_cons_append.
Qed.

Lemma preserved_setBreakPoint (path : jsstring) (ln : Z) (w : World) :
  preserved w (snd (setBreakPoint path ln w)).
Proof.
  rewrite setBreakPoint_run.
  apply preserved_trans with (pushed path ln w); [apply preserved_pushed|].
  pose proof (preserved_verifyBreakpoints path (pushed path ln w)) as P.
  destruct (verifyBreakpoints path (pushed path ln w)) as [[[]|e] w3];
    cbn [snd] in *; [|exact P].
  destruct (can_write w3); cbn [snd]; [|exact P].
  eapply preserved_trans; [exact P|]. apply preserved_same; reflexivity.
Qed.

Lemma preserved_clearBreakPoint (path : jsstring) (ln : Z) (w : World) :
  preserved w (snd (clearBreakPoint path ln w)).
Proof.
  unfold clearBreakPoint. unfold bind at 1, get at 1.
  destruct (Map_get path (_breakPoints w)) as [bps|] eqn:Hget.
  - destruct (0 <=? _).
    + unfold bind at 1, modify at 1.
      match goal with |- preserved _ (snd (bind _ _ ?w2)) => set (v := w2) end.
      apply preserved_trans with v.
      * subst v. unfold preserved. split; [|split]; simpl; try lia; [|auto].
        rewrite !registry_ok_list. unfold all_breakpoints. simpl.
        destruct (all_Map_set_present _ _ _ Hget) as (pre & post & E1 & E2).
        rewrite E1, E2. intros Hok.
        destruct (splice1_perm
                    (Z.to_nat (findIndex (fun bp => line bp =? ln) bps)) bps)
          as (gone & P).
        apply ok_list_drop with gone. eapply ok_list_perm; [|exact Hok].
        set (left := splice1 _ bps) in *.
        apply perm_trans with (pre ++ (gone ++ left) ++ post).
        { apply Permutation_app_head, Permutation_app_tail, P. }
        rewrite <- (app_assoc gone left post).
        rewrite (app_assoc pre gone), (app_assoc gone pre).
        apply Permutation_app_tail, Permutation_app_comm.
      * apply preserved_bind; [apply preserved_saveBreakpointsToFile|].
        intros. apply preserved_ret.
    + apply preserved_bind; [apply preserved_saveBreakpointsToFile|].
      intros. apply preserved_ret.
  - apply preserved_bind; [apply preserved_saveBreakpointsToFile|].
    intros. apply preserved_ret.
Qed.

Lemma preserved_clearBreakpoints (path : jsstring) (w : World) :
  preserved w (snd (clearBreakpoints path w)).
Proof.
  unfold clearBreakpoints. apply preserved_bind.
  - intros w1. unfold modify. simpl.
    unfold preserved. split; [|split]; simpl; try lia; [|auto].
    rewrite !registry_ok_list. unfold all_breakpoints. simpl.
    destruct (all_Map_delete (_breakPoints w1) path) as (gone & P).
    intros Hok. apply ok_list_drop with gone. eapply ok_list_perm; eassumption.
  - intros. apply preserved_saveBreakpointsToFile.
Qed.

(** A parsed value outside the asserted type: the listener throws and
    changes nothing, or does what [setCurrentLineInSource] does on some
    record. *)
Lemma setCurrentLineInSource_untyped_cases (j : json) (w : World) :
  (exists e, setCurrentLineInSource_untyped j w = (Throw e, w)) \/
  (exists d, setCurrentLineInSource_untyped j w = setCurrentLineInSource d w).
Proof.
  unfold setCurrentLineInSource_untyped.
  destruct j as [ | b | m e | s | l | ms]; try (left; eexists; reflexivity).
  destruct (json_member (js "line") ms) as [[ | b | m e | s | l | ms']|];
    try (left; eexists; reflexivity).
  destruct (json_integer m e) as [ln|]; [|left; eexists; reflexivity].
  cbv zeta.
  destruct (json_member (js "file") ms) as [[ | b | m' e' | f | l | ms']|];
    try (right; eexists; reflexivity);
    unfold bind, get; destruct (activeTextEditor w) eqn:E;
    try (left; eexists; reflexivity);
    right; eexists; reflexivity.
Qed.

Lemma preserved_setCurrentLineInSource (debugInfo : Info.t) (w : World) :
  preserved w (snd (setCurrentLineInSource debugInfo w)).
Proof. unfold setCurrentLineInSource. preserve. Qed.

Lemma preserved_watchListener (w : World) : preserved w (snd (watchListener w)).
Proof.
  unfold watchListener, onStatusData.
  apply preserved_bind; [apply preserved_get|]. intros a w1.
  destruct (truthy _); [|apply preserved_ret].
  destruct (JSON_parse _) as [j|]; [|apply preserved_throw].
  destruct (asDebugInfo j); [apply preserved_setCurrentLineInSource|].
  destruct (setCurrentLineInSource_untyped_cases j w1) as [[e ->]|[d ->]];
    [apply preserved_refl|apply preserved_setCurrentLineInSource].
Qed.

Lemma preserved_resolve_next (w : World) : preserved w (snd (resolve_next w)).
Proof.
  unfold resolve_next. apply preserved_bind; [apply preserved_get|].
  intros a w1. destruct (pending a) as [|k rest]; [apply preserved_ret|].
  apply preserved_bind; [intros; apply preserved_modify; reflexivity|].
  intros _ w2. destruct k; cbn [resolve].
  - preserve.
  - apply preserved_bind; [intros; apply preserved_modify; reflexivity|].
    intros _ w3. apply preserved_bind; [apply preserved_start|].
    intros. preserve.
Qed.

Lemma preserved_perform (c : call) (w : World) : preserved w (perform c w).
Proof.
  unfold perform. destruct c; simpl; unfold ignore, step, continue.
  - apply preserved_start.
  - apply preserved_run.
  - apply preserved_run.
  - apply preserved_bind; [apply preserved_setBreakPoint|intros; apply preserved_ret].
  - apply preserved_bind; [apply preserved_clearBreakPoint|intros; apply preserved_ret].
  - apply preserved_clearBreakpoints.
  - apply preserved_verifyBreakpoints.
  - apply preserved_watchListener.
  - apply preserved_resolve_next.
  - apply preserved_same; reflexivity.
  - apply preserved_same; reflexivity.
  - apply preserved_same; reflexivity.
Qed.

Lemma preserved_perform_all (cs : list call) (w : World) :
  preserved w (perform_all cs w).
Proof.
  revert w; induction cs as [|c r IH]; intros w; simpl.
  - apply preserved_refl.
  - eapply preserved_trans; [apply preserved_perform|apply IH].
Qed.

Lemma initial_registry_ok files root editor :
  registry_ok (initial files root editor).
Proof. constructor; simpl; constructor. Qed.

Lemma initial_source_ok files root editor : source_ok (initial files root editor).
Proof. intros lines. simpl. discriminate. Qed.

(** ** Breakpoint ids *)

Lemma verifyBreakpoints_entry (path : jsstring) (w : World)
    (bps : list VanessaBreakpoint) :
  Map_get path (_breakPoints w) = Some bps ->
  exists bps', Map_get path (_breakPoints (snd (verifyBreakpoints path w))) = Some bps' /\
               map id bps' = map id bps /\ map verified bps' = map verified bps.
Proof.
  intros Hget. rewrite (verifyBreakpoints_run path w bps Hget).
  pose proof (loadSource_frame path w) as F. simpl in F.
  destruct F as (_ & _ & Fb & _).
  destruct (loadSource path w) as [[[]|e] w1]; simpl in *.
  - pose proof (forEach_verify_keeps (_sourceLines w1) bps) as [Ki Kv].
    eexists. split; [apply Map_get_set_same|auto].
  - exists bps. rewrite Fb. auto.
Qed.

Lemma last_map {A B} (f : A -> B) (l : list A) (d : A) :
  f (last l d) = last (map f l) (f d).
Proof.
  induction l as [|x r IH]; simpl; [reflexivity|].
  destruct r; simpl in *; [reflexivity|exact IH].
Qed.

(** What [setBreakPoint] has done when it returns or throws: the counter is
    one up, and the breakpoint created carries the new counter value. *)
Lemma setBreakPoint_new_id (path : jsstring) (ln : Z) (w : World) :
  _breakpointId (snd (setBreakPoint path ln w)) = _breakpointId w + 1 /\
  created_id path ln w = _breakpointId w + 1.
Proof.
  unfold created_id. rewrite setBreakPoint_run.
  set (bp := {| id := _breakpointId w + 1; line := ln; verified := false |}).
  set (bps := match Map_get path (_breakPoints w) with Some a => a | None => [] end).
  assert (Hget : Map_get path (_breakPoints (pushed path ln w)) = Some (bps ++ [bp])).
  { unfold pushed. simpl. apply Map_get_set_same. }
  destruct (verifyBreakpoints_entry path _ _ Hget) as (bps' & Hget' & Ki & _).
  pose proof (verifyBreakpoints_frame path (pushed path ln w)) as F. simpl in F.
  destruct F as (_ & _ & Fi & _).
  assert (Hlast : forall d, id (last bps' d) = _breakpointId w + 1).
  { intros d. rewrite last_map, Ki, map_app. simpl. now rewrite last_last. }
  unfold last_pushed.
  destruct (verifyBreakpoints path (pushed path ln w)) as [[[]|e] w3];
    [destruct (can_write w3)|]; simpl in *; rewrite Hget', Fi; split; auto.
Qed.

Lemma StronglySorted_lt_NoDup (l : list Z) : StronglySorted Z.lt l -> NoDup l.
Proof.
  induction 1 as [|x l Hs IH Hx]; constructor; [|exact IH].
  intros Hin. rewrite Forall_forall in Hx. specialize (Hx x Hin). lia.
Qed.

Lemma perform_counter (c : call) (w : World) :
  _breakpointId w <= _breakpointId (perform c w).
Proof. apply preserved_perform. Qed.

Lemma perform_setBreakPoint (path : jsstring) (ln : Z) (w : World) :
  perform (SetBreakPoint path ln) w = snd (setBreakPoint path ln w).
Proof.
  unfold perform, call_body, ignore, bind.
  destruct (setBreakPoint path ln w) as [[bp|e] w']; reflexivity.
Qed.

(** C7. Whatever calls are made and in whatever world they start, the ids
    given to the breakpoints created by the successive [setBreakPoint]
    calls are strictly increasing, all above the counter the sequence
    started from, and no id is given twice -- however many breakpoints are
    cleared in between. *)
Theorem ids_strictly_increasing (cs : list call) (w : World) :
  StronglySorted Z.lt (assigned_ids cs w) /\
  Forall (fun i => _breakpointId w < i) (assigned_ids cs w) /\
  NoDup (assigned_ids cs w).
Proof.
  enough (H : StronglySorted Z.lt (assigned_ids cs w) /\
              Forall (fun i => _breakpointId w < i) (assigned_ids cs w)).
  { destruct H as [S F]. repeat split; auto. now apply StronglySorted_lt_NoDup. }
  revert w; induction cs as [|c r IH]; intros w; simpl.
  - split; constructor.
  - assert (Hother :
        StronglySorted Z.lt (assigned_ids r (perform c w)) /\
        Forall (fun i => _breakpointId w < i) (assigned_ids r (perform c w))).
    { destruct (IH (perform c w)) as [S F]. split; [exact S|].
      eapply Forall_impl; [|exact F]. simpl.
      pose proof (perform_counter c w). intros; lia. }
    destruct c; try exact Hother.
    destruct (IH (perform (SetBreakPoint path ln) w)) as [S F].
    rewrite perform_setBreakPoint in *.
    destruct (setBreakPoint_new_id path ln w) as [Hc Hi].
    rewrite Hi. rewrite Hc in F. split.
    + constructor; [exact S|exact F].
    + constructor; [lia|]. eapply Forall_impl; [|exact F]. simpl. intros; lia.
Qed.

Example sample_assigned_ids :
  assigned_ids
    [SetBreakPoint Sample.path 9; ClearBreakPoint Sample.path 9;
     SetBreakPoint Sample.other 0; ClearBreakpoints Sample.other;
     SetBreakPoint (js "missing.feature") 3; SetBreakPoint Sample.path 2]
    Sample.fresh
  = [2; 3; 4; 5].
Proof. vm_compute. reflexivity. Qed.

(** ** The [verified] flag *)

Lemma Map_get_all (w : World) (path : jsstring) (bps : list VanessaBreakpoint)
    (bp : VanessaBreakpoint) :
  Map_get path (_breakPoints w) = Some bps -> In bp bps ->
  In bp (all_breakpoints w).
Proof.
  intros Hget Hin. unfold all_breakpoints. apply in_flat_map.
  exists (path, bps). split; [now apply Map_get_In|exact Hin].
Qed.

Lemma reachable_registry_ok (cs : list call) files root editor :
  registry_ok (perform_all cs (initial files root editor)).
Proof.
  apply (preserved_perform_all cs (initial files root editor)).
  apply initial_registry_ok.
Qed.

(** C8. After any sequence of calls on a fresh runtime (breakpoints set
    and cleared, verification passes, starts, steps, status changes),
    every breakpoint of every file has [verified = false]. *)
Theorem verified_stays_false (cs : list call) (files : Map jsstring)
    (root editor : option jsstring) (path : jsstring)
    (bps : list VanessaBreakpoint) (bp : VanessaBreakpoint) :
  Map_get path (_breakPoints (perform_all cs (initial files root editor))) = Some bps ->
  In bp bps ->
  verified bp = false.
Proof.
  intros Hget Hin.
  pose proof (ok_unverified _ (reachable_registry_ok cs files root editor)) as A.
  rewrite Forall_forall in A. apply A.
  eapply Map_get_all; eassumption.
Qed.

Lemma verified_stays_false_witness :
  let w := perform_all
             [SetBreakPoint Sample.path 9; SetBreakPoint Sample.path 1;
              SetBreakPoint Sample.path 2; VerifyBreakpoints Sample.path;
              ClearBreakPoint Sample.path 1; Start Sample.path true]
             (initial Sample.files Sample.root (Some Sample.path)) in
  exists bp0 bp1,
    Map_get Sample.path (_breakPoints w) = Some [bp0; bp1] /\
    line bp1 = 4 /\ verified bp1 = false.
Proof.
  intros w.
  exists {| id := 2; line := 9; verified := false |},
         {| id := 4; line := 4; verified := false |}.
  split; [vm_compute; reflexivity|]. split; [reflexivity|].
  apply (verified_stays_false
           [SetBreakPoint Sample.path 9; SetBreakPoint Sample.path 1;
            SetBreakPoint Sample.path 2; VerifyBreakpoints Sample.path;
            ClearBreakPoint Sample.path 1; Start Sample.path true]
           Sample.files Sample.root (Some Sample.path) Sample.path
           [ {| id := 2; line := 9; verified := false |};
             {| id := 4; line := 4; verified := false |} ]).
  - vm_compute. reflexivity.
  - right. left. reflexivity.
Defined.

(** ** Settled breakpoints *)

(** C9 as worded fails: two [setBreakPoint] calls for line 1 of the sample
    (an ordinary line) leave two breakpoints on line 1, and a verification
    pass moves neither. *)
Lemma shared_line_counterexample :
  let w := perform_all [SetBreakPoint Sample.path 1; SetBreakPoint Sample.path 1]
             Sample.fresh in
  Map_get Sample.path (_breakPoints w)
  = Some [ {| id := 2; line := 1; verified := false |};
           {| id := 3; line := 1; verified := false |} ] /\
  _breakPoints (perform (VerifyBreakpoints Sample.path) w) = _breakPoints w /\
  ~ no_shared_line_claim.
Proof.
  intros w. split; [vm_compute; reflexivity|]. split; [vm_compute; reflexivity|].
  intros claim.
  specialize (claim [SetBreakPoint Sample.path 1; SetBreakPoint Sample.path 1]
                Sample.files Sample.root (Some Sample.path) Sample.path
                [ {| id := 2; line := 1; verified := false |};
                  {| id := 3; line := 1; verified := false |} ]).
  assert (D : NoDup [1; 1]).
  { apply claim; vm_compute; reflexivity. }
  inversion D as [|x l Hnot _]. apply Hnot. now left.
Qed.

Lemma forEach_verify_settled (lines : list jsstring) (bps : list VanessaBreakpoint) :
  forEach_verify (Some lines) bps = (bps, None) ->
  Forall (fun bp => verifyBreakpoint (Some lines) bp = Return bp) bps.
Proof.
  induction bps as [|bp r IH]; simpl; [constructor|].
  destruct (verifyBreakpoint (Some lines) bp) as [bp'|e] eqn:E; [|discriminate].
  destruct (forEach_verify (Some lines) r) as [r' e] eqn:Er.
  intros [= -> -> ->]. constructor; [exact E|]. now apply IH.
Qed.

Lemma NoDup_map_middle {A B} (f : A -> B) (pre l post : list A) :
  NoDup (map f (pre ++ l ++ post)) -> NoDup (map f l).
Proof.
  rewrite !map_app. intros H.
  apply NoDup_app_remove_l in H. apply NoDup_app_remove_r in H. exact H.
Qed.

(** C9 (amended). After any sequence of calls on a fresh runtime, the
    breakpoints of one file have pairwise distinct ids; and when a
    verification pass of that file returns and moves none of them, every
    breakpoint whose line lies inside the source stands on a line that is
    neither blank nor starts with [+].  (Two of them may stand on the same
    line.) *)
Theorem settled_breakpoints (cs : list call) (files : Map jsstring)
    (root editor : option jsstring) (path : jsstring)
    (bps : list VanessaBreakpoint) (lines : list jsstring) :
  let w := perform_all cs (initial files root editor) in
  Map_get path (_breakPoints w) = Some bps ->
  NoDup (map id bps) /\
  (loaded_lines path w = Some lines ->
   returned (VerifyBreakpoints path) w = true ->
   Map_get path (_breakPoints (perform (VerifyBreakpoints path) w)) = Some bps ->
   forall bp l, In bp bps -> array_get lines (line bp) = Some l ->
                unbreakable l = false).
Proof.
  intros w Hget.
  pose proof (reachable_registry_ok cs files root editor) as Hok. fold w in Hok.
  split.
  - destruct (all_Map_set_present _ _ _ Hget) as (pre & post & E1 & _).
    pose proof (ok_distinct _ Hok) as D. unfold all_breakpoints in D.
    rewrite E1 in D. eapply NoDup_map_middle; exact D.
  - intros Hload Hret Hsame bp l Hin Hl.
    destruct (loadSource_loaded path w lines Hload)
      as (w1 & E1 & Hl1 & _ & Hb1 & _).
    unfold returned, perform, call_body in Hret, Hsame.
    unfold verifyBreakpoints in Hret, Hsame.
    unfold bind at 1, get at 1 in Hret. unfold bind at 1, get at 1 in Hsame.
    rewrite Hget in Hret, Hsame.
    unfold bind at 1 in Hret. unfold bind at 1 in Hsame.
    rewrite E1 in Hret, Hsame.
    unfold bind at 1, get at 1 in Hret. unfold bind at 1, get at 1 in Hsame.
    rewrite Hl1 in Hret, Hsame.
    destruct (forEach_verify (Some lines) bps) as [bps' e] eqn:Ev.
    run_monad. destruct e as [e|]; simpl in *; [discriminate|].
    rewrite Map_get_set_same in Hsame. injection Hsame as ->.
    pose proof (forEach_verify_settled lines bps Ev) as S.
    rewrite Forall_forall in S. specialize (S bp Hin).
    pose proof (ok_unverified _ Hok) as U. rewrite Forall_forall in U.
    specialize (U bp (Map_get_all w path bps bp Hget Hin)).
    unfold verifyBreakpoint in S. rewrite U in S. simpl in S.
    pose proof (array_get_Some_range _ _ _ Hl) as [_ Hlt].
    apply Z.ltb_lt in Hlt. rewrite Hlt, Hl, unbreakable_test in S.
    destruct (unbreakable l); [|reflexivity].
    injection S as S. destruct bp as [i n v]. simpl in *.
    injection S as S. lia.
Qed.

Lemma settled_breakpoints_witness :
  NoDup (map id [ {| id := 2; line := 1; verified := false |};
                  {| id := 3; line := 1; verified := false |} ]) /\
  unbreakable (js "  Given a") = false.
Proof.
  pose (cs := [SetBreakPoint Sample.path 1; SetBreakPoint Sample.path 1]).
  pose (bps := [ {| id := 2; line := 1; verified := false |};
                 {| id := 3; line := 1; verified := false |} ]).
  pose (w := perform_all cs (initial Sample.files Sample.root (Some Sample.path))).
  assert (G : Map_get Sample.path (_breakPoints w) = Some bps)
    by (vm_compute; reflexivity).
  assert (H1 : loaded_lines Sample.path w = Some Sample.lines)
    by (vm_compute; reflexivity).
  assert (H2 : returned (VerifyBreakpoints Sample.path) w = true)
    by (vm_compute; reflexivity).
  assert (H3 : Map_get Sample.path
                 (_breakPoints (perform (VerifyBreakpoints Sample.path) w))
               = Some bps)
    by (vm_compute; reflexivity).
  destruct (settled_breakpoints cs Sample.files Sample.root (Some Sample.path)
              Sample.path bps Sample.lines G) as [D S].
  split; [exact D|].
  apply (S H1 H2 H3 {| id := 3; line := 1; verified := false |}).
  - right. left. reflexivity.
  - vm_compute. reflexivity.
Defined.

(** ** The status-file listener *)

Example sample_status_parses :
  option_map asDebugInfo (JSON_parse SampleStatus.text)
  = Some (Some SampleStatus.record).
Proof. vm_compute. reflexivity. Qed.

(** C6 as worded fails: on a status file holding the text of a record cut
    after its first colon, the listener throws the SyntaxError of [JSON.parse]; nothing
    catches it. *)
Lemma watcher_malformed_counterexample :
  Map_get (getVanessaDebugInfoFile SampleStatus.truncated) (disk SampleStatus.truncated)
  = Some SampleStatus.cut /\
  JSON_parse SampleStatus.cut = None /\
  watchListener SampleStatus.truncated = (Throw SyntaxError, SampleStatus.truncated) /\
  ~ watcher_claim.
Proof.
  assert (E : watchListener SampleStatus.truncated
              = (Throw SyntaxError, SampleStatus.truncated))
    by (vm_compute; reflexivity).
  split; [vm_compute; reflexivity|]. split; [vm_compute; reflexivity|].
  split; [exact E|].
  intros claim.
  destruct (claim SampleStatus.truncated) as (_ & Hbad & _).
  specialize (Hbad SampleStatus.cut ltac:(vm_compute; reflexivity)
                ltac:(vm_compute; reflexivity)).
  rewrite E in Hbad. discriminate.
Qed.

(** C6 (amended). On a change of the status file: when the file cannot be
    read or is empty, the listener returns and changes nothing (no event,
    no request); when its text is not JSON, the listener throws SyntaxError
    out of the callback, having changed nothing; when the text parses to a
    record of the asserted type, the listener does exactly what
    [setCurrentLineInSource] does on that record. *)
Theorem watchListener_cases (w : World) :
  let data := Map_get (getVanessaDebugInfoFile w) (disk w) in
  (data = None \/ data = Some [] -> watchListener w = (Return tt, w)) /\
  (forall text, data = Some text -> text <> [] -> JSON_parse text = None ->
                watchListener w = (Throw SyntaxError, w)) /\
  (forall text j d, data = Some text -> text <> [] ->
                    JSON_parse text = Some j -> asDebugInfo j = Some d ->
                    watchListener w = setCurrentLineInSource d w).
Proof.
  intros data.
  assert (H : watchListener w = onStatusData data w) by reflexivity.
  rewrite H. clear H. clearbody data. split; [|split].
  - intros [-> | ->]; reflexivity.
  - intros text -> Hne Hparse. destruct text as [|c text]; [congruence|].
    unfold onStatusData. cbn [truthy template]. now rewrite Hparse.
  - intros text j d -> Hne Hparse Hd. destruct text as [|c text]; [congruence|].
    unfold onStatusData. cbn [truthy template]. now rewrite Hparse, Hd.
Qed.

Lemma watchListener_cases_witness :
  watchListener SampleStatus.emptied = (Return tt, SampleStatus.emptied) /\
  watchListener SampleStatus.truncated = (Throw SyntaxError, SampleStatus.truncated) /\
  watchListener SampleStatus.reported
  = setCurrentLineInSource SampleStatus.record SampleStatus.reported.
Proof.
  split; [|split].
  - apply (proj1 (watchListener_cases SampleStatus.emptied)).
    right. vm_compute. reflexivity.
  - apply (proj1 (proj2 (watchListener_cases SampleStatus.truncated))
             SampleStatus.cut).
    + vm_compute. reflexivity.
    + discriminate.
    + vm_compute. reflexivity.
  - apply (proj2 (proj2 (watchListener_cases SampleStatus.reported))
             SampleStatus.text
             (JObj [(js "file", JStr Sample.other); (js "line", JNum 7 0);
                    (js "status", JStr (js "run"))])).
    + vm_compute. reflexivity.
    + discriminate.
    + vm_compute. reflexivity.
    + vm_compute. reflexivity.
Defined.

(** ** Positions reported by the debuggee *)

(** C10 as worded fails: with no active editor, a record for another file
    than the one loaded sets the line at once and asks for no document --
    whether the active file is taken to be the editor's document or the
    file the runtime has loaded. *)
Lemma no_editor_counterexample :
  activeTextEditor SampleStatus.unfocused = None /\
  _sourceFile SampleStatus.unfocused = Some Sample.path /\
  Info.file SampleStatus.record = Sample.other /\
  setCurrentLineInSource SampleStatus.record SampleStatus.unfocused
  = (Return tt, add_request (ExecuteCommand stepOver)
                  (set_currentLine 6 SampleStatus.unfocused)) /\
  ~ external_position_claim activeTextEditor /\
  ~ external_position_claim _sourceFile.
Proof.
  assert (E : setCurrentLineInSource SampleStatus.record SampleStatus.unfocused
              = (Return tt, add_request (ExecuteCommand stepOver)
                              (set_currentLine 6 SampleStatus.unfocused)))
    by (vm_compute; reflexivity).
  split; [vm_compute; reflexivity|]. split; [vm_compute; reflexivity|].
  split; [vm_compute; reflexivity|]. split; [exact E|]. split.
  - intros claim.
    destruct (claim SampleStatus.unfocused SampleStatus.record) as [_ Hswitch].
    destruct Hswitch as (w' & E' & Hreq & _); [discriminate|].
    rewrite E in E'. injection E' as <-. vm_compute in Hreq. discriminate.
  - intros claim.
    destruct (claim SampleStatus.unfocused SampleStatus.record) as [_ Hswitch].
    destruct Hswitch as (w' & E' & Hreq & _); [vm_compute; discriminate|].
    rewrite E in E'. injection E' as <-. vm_compute in Hreq. discriminate.
Qed.

Lemma start_run (file : jsstring) (stopOnEntry : bool) (w : World) :
  start file stopOnEntry w
  = match loadSource file w with
    | (Return _, w1) =>
        match
          match _sourceFile w1 with
          | Some f => verifyBreakpoints f (set_currentLine (-1) w1)
          | None => (Return tt, set_currentLine (-1) w1)
          end
        with
        | (Return _, w3) =>
            (if stopOnEntry then step (js "stopOnEntry") else continue) w3
        | (Throw e, w3) => (Throw e, w3)
        end
    | (Throw e, w1) => (Throw e, w1)
    end.
Proof.
  unfold start. unfold bind at 1.
  destruct (loadSource file w) as [[[]|e] w1]; [|reflexivity].
  unfold bind at 1, modify at 1. unfold bind at 1, get at 1.
  cbn [_sourceFile set_currentLine].
  unfold bind at 1. destruct (_sourceFile w1) as [f|]; reflexivity.
Qed.

(** The part of [start] before the first step: the source is loaded, the
    line reset, the breakpoints of the file verified. *)
Lemma start_prefix (file : jsstring) (stopOnEntry : bool) (w : World)
    (lines : list jsstring) :
  loaded_lines file w = Some lines ->
  (forall bps, Map_get file (_breakPoints w) = Some bps -> lines_nonnegative bps) ->
  exists w3,
    start file stopOnEntry w
    = (if stopOnEntry then step (js "stopOnEntry") else continue) w3 /\
    _sourceLines w3 = Some lines /\ _currentLine w3 = -1 /\
    surroundings w3 = surroundings w.
Proof.
  intros Hload Hnn.
  destruct (loadSource_loaded file w lines Hload)
    as (w1 & E1 & Hl1 & Hf1 & Hb1 & _ & _ & Hs1 & Hr1 & Hw1 & _ & Hroot & Hp1 & He1).
  set (w2 := set_currentLine (-1) w1).
  assert (Hload2 : loaded_lines file w2 = Some lines).
  { unfold loaded_lines. simpl. rewrite Hf1. simpl.
    now rewrite jsstring_eqb_refl. }
  destruct (verifyBreakpoints_returns file w2 lines Hload2) as (w3 & E3 & Hl3).
  { simpl. rewrite Hb1. exact Hnn. }
  pose proof (verifyBreakpoints_frame file w2) as F. rewrite E3 in F.
  simpl in F. destruct F as (Fs & _ & _ & Fc).
  exists w3. split; [|split; [|split]].
  - rewrite start_run, E1. rewrite Hf1. fold w2. now rewrite E3.
  - apply Hl3. exact Hl1.
  - exact Fc.
  - rewrite Fs. unfold surroundings. simpl. congruence.
Qed.

Lemma surroundings_scheduled (w w' : World) :
  surroundings w' = surroundings w -> scheduled w' = scheduled w.
Proof. unfold surroundings. congruence. Qed.

Lemma surroundings_requests (w w' : World) :
  surroundings w' = surroundings w -> requests w' = requests w.
Proof. unfold surroundings. congruence. Qed.

(** Whatever becomes of [start(file, true)] on a world whose loaded source
    is never empty, it schedules nothing, or [stopOnEntry] alone. *)
Lemma start_entry_events (file : jsstring) (w : World) :
  source_ok w ->
  scheduled (snd (start file true w)) = scheduled w \/
  scheduled (snd (start file true w)) = scheduled w ++ [js "stopOnEntry"].
Proof.
  intros Hok. rewrite start_run.
  pose proof (preserved_loadSource file w) as (_ & _ & P1).
  pose proof (loadSource_frame file w) as F1. simpl in F1.
  destruct F1 as (S1 & _). apply surroundings_scheduled in S1.
  destruct (loadSource file w) as [[[]|e] w1]; simpl in P1, S1;
    [|left; exact S1].
  set (w2 := set_currentLine (-1) w1).
  assert (Hok2 : source_ok w2) by (apply P1; exact Hok).
  assert (Hstep : forall w3, source_ok w3 -> _currentLine w3 = -1 ->
            scheduled w3 = scheduled w ->
            scheduled (snd (step (js "stopOnEntry") w3)) = scheduled w \/
            scheduled (snd (step (js "stopOnEntry") w3))
            = scheduled w ++ [js "stopOnEntry"]).
  { intros w3 Hok3 Hc3 Hs3. destruct (_sourceLines w3) as [lines|] eqn:Hl3.
    - pose proof (step_next w3 lines 115%N (js "topOnEntry") Hl3) as Hnext.
      change (115%N :: js "topOnEntry") with (js "stopOnEntry") in Hnext.
      rewrite Hnext; [right; simpl; now rewrite Hs3|].
      specialize (Hok3 lines Hl3). unfold array_length.
      destruct lines; [congruence|simpl; lia].
    - left. unfold step, run, bind, get, throw. rewrite Hl3. exact Hs3. }
  destruct (_sourceFile w1) as [f|].
  - pose proof (preserved_verifyBreakpoints f w2) as (_ & _ & P3).
    pose proof (verifyBreakpoints_frame f w2) as F3. simpl in F3.
    destruct F3 as (S3 & _ & _ & C3). apply surroundings_scheduled in S3.
    fold w2. destruct (verifyBreakpoints f w2) as [[[]|e] w3]; simpl in P3, S3, C3.
    + apply Hstep; [apply P3; exact Hok2|exact C3|congruence].
    + left. simpl. congruence.
  - apply Hstep; [exact Hok2|reflexivity|exact S1].
Qed.

Lemma resolve_shown_run (d : Info.t) (w : World) :
  resolve (Shown d) w
  = match start (Info.file d) true
            (set_activeTextEditor (Some (Info.file d)) w) with
    | (Return _, w1) =>
        (Return tt, add_request (ExecuteCommand stepOver)
                      (set_currentLine (Info.line d - 1) w1))
    | (Throw e, w1) => (Throw e, w1)
    end.
Proof.
  unfold resolve. unfold bind at 1, modify at 1. unfold bind at 1.
  destruct (start _ _ _) as [[[]|e] w1]; reflexivity.
Qed.

(** C10 (amended).  [setCurrentLineInSource] on a record: when no editor
    is active, or the active editor shows the record's file, it sets
    [currentLine] to [line - 1] and asks for one step over, and nothing
    else; when the active editor shows another file, it only asks for the
    record's file to be opened.  When that document is open it asks for it
    to be shown; when it is shown, it runs [start(file, true)], then sets
    [currentLine] to [line - 1] and asks for one step over: on a loadable
    file with at least one line this returns and schedules [stopOnEntry]
    alone, and whatever becomes of it, it schedules nothing else than
    [stopOnEntry] -- neither [stopOnStep] nor [end]. *)
Theorem setCurrentLineInSource_path (d : Info.t) :
  (forall w, activeTextEditor w = None \/ activeTextEditor w = Some (Info.file d) ->
     setCurrentLineInSource d w
     = (Return tt, add_request (ExecuteCommand stepOver)
                     (set_currentLine (Info.line d - 1) w))) /\
  (forall w f, activeTextEditor w = Some f -> f <> Info.file d ->
     setCurrentLineInSource d w
     = (Return tt, set_pending (pending w ++ [Opened d])
                     (add_request (OpenTextDocument (Info.file d)) w))) /\
  (forall w,
     resolve (Opened d) w
     = (Return tt, set_pending (pending w ++ [Shown d])
                     (add_request (ShowTextDocument (Info.file d)) w))) /\
  (forall w lines,
     source_ok w ->
     loaded_lines (Info.file d) w = Some lines ->
     (forall bps, Map_get (Info.file d) (_breakPoints w) = Some bps ->
                  lines_nonnegative bps) ->
     exists w', resolve (Shown d) w = (Return tt, w') /\
                _currentLine w' = Info.line d - 1 /\
                requests w' = requests w ++ [ExecuteCommand stepOver] /\
                scheduled w' = scheduled w ++ [js "stopOnEntry"]) /\
  (forall w, source_ok w ->
     let w' := snd (resolve (Shown d) w) in
     scheduled w' = scheduled w \/
     scheduled w' = scheduled w ++ [js "stopOnEntry"]).
Proof.
  split; [|split; [|split; [|split]]].
  - intros w [E|E]; unfold setCurrentLineInSource; run_monad; rewrite E.
    + reflexivity.
    + now rewrite jsstring_eqb_refl.
  - intros w f E Hne. unfold setCurrentLineInSource. run_monad. rewrite E.
    rewrite (jsstring_eqb_neq (fun H => Hne (eq_sym H))). reflexivity.
  - reflexivity.
  - intros w lines Hok Hload Hnn.
    set (w0 := set_activeTextEditor (Some (Info.file d)) w).
    destruct (start_prefix (Info.file d) true w0 lines Hload Hnn)
      as (w3 & E & Hl3 & Hc3 & Hs3).
    assert (Hlen : _currentLine w3 + 1 < array_length lines).
    { assert (Hne : lines <> []).
      { unfold loaded_lines in Hload.
        destruct (same_file (_sourceFile w) (Info.file d)).
        - now apply Hok.
        - destruct (Map_get (Info.file d) (disk w)); [|discriminate].
          injection Hload as <-. apply split_not_empty. }
      rewrite Hc3. unfold array_length. destruct lines; [congruence|simpl; lia]. }
    pose proof (step_next w3 lines 115%N (js "topOnEntry") Hl3 Hlen) as Hnext.
    change (115%N :: js "topOnEntry") with (js "stopOnEntry") in Hnext.
    eexists. split.
    + rewrite resolve_shown_run. fold w0. rewrite E, Hnext. reflexivity.
    + simpl. rewrite (surroundings_requests _ _ Hs3).
      rewrite (surroundings_scheduled _ _ Hs3). auto.
  - intros w Hok. cbv zeta. rewrite resolve_shown_run.
    set (w0 := set_activeTextEditor (Some (Info.file d)) w).
    assert (Hok0 : source_ok w0) by exact Hok.
    pose proof (start_entry_events (Info.file d) w0 Hok0) as Hev.
    destruct (start (Info.file d) true w0) as [[[]|e] w1]; exact Hev.
Qed.

Lemma setCurrentLineInSource_path_witness :
  setCurrentLineInSource SampleStatus.record SampleStatus.unfocused
  = (Return tt, add_request (ExecuteCommand stepOver)
                  (set_currentLine 6 SampleStatus.unfocused)) /\
  setCurrentLineInSource SampleStatus.record SampleStatus.reported
  = (Return tt,
     set_pending (pending SampleStatus.reported ++ [Opened SampleStatus.record])
       (add_request (OpenTextDocument Sample.other) SampleStatus.reported)) /\
  exists w', resolve (Shown SampleStatus.record) SampleStatus.reported
             = (Return tt, w') /\
             _currentLine w' = 6 /\
             requests w' = requests SampleStatus.reported ++ [ExecuteCommand stepOver] /\
             scheduled w'
             = scheduled SampleStatus.reported ++ [js "stopOnEntry"].
Proof.
  split; [|split].
  - apply (proj1 (setCurrentLineInSource_path SampleStatus.record)
             SampleStatus.unfocused).
    left. reflexivity.
  - apply (proj1 (proj2 (setCurrentLineInSource_path SampleStatus.record))
             SampleStatus.reported Sample.path).
    + vm_compute. reflexivity.
    + vm_compute. discriminate.
  - apply (proj1 (proj2 (proj2 (proj2
             (setCurrentLineInSource_path SampleStatus.record))))
             SampleStatus.reported [js "Feature: g"]).
    + intros lines H. vm_compute in H. injection H as <-. discriminate.
    + vm_compute. reflexivity.
    + intros bps H. vm_compute in H. discriminate.
Defined.

(** ** Reading back what [JSON.stringify] wrote *)

Lemma take_uint_print (d : Decimal.uint) (rest : jsstring) :
  match rest with [] => True | c :: _ => is_digit c = false end ->
  take_uint (print_uint d ++ rest) = (d, rest).
Proof.
  intros Hrest. induction d; simpl;
    try (rewrite IHd; reflexivity).
  destruct rest as [|c r]; [reflexivity|]. simpl. now rewrite Hrest.
Qed.

Lemma to_uint_normal (n : N) : N.to_uint n = Decimal.unorm (N.to_uint n).
Proof.
  rewrite <- (DecimalN.Unsigned.to_of (N.to_uint n)).
  now rewrite DecimalN.Unsigned.of_to.
Qed.

Lemma to_uint_no_leading_zero (n : N) : leading_zero (N.to_uint n) = false.
Proof.
  rewrite to_uint_normal. unfold Decimal.unorm.
  pose proof (DecimalFacts.nzhead_nonzero (N.to_uint n)) as H.
  destruct (Decimal.nzhead (N.to_uint n)) as [|d|d|d|d|d|d|d|d|d|d];
    try reflexivity.
  exfalso. apply (H d). reflexivity.
Qed.

Lemma to_uint_not_nil (n : N) : N.to_uint n <> Decimal.Nil.
Proof.
  destruct n as [|p]; simpl; [discriminate|].
  apply DecimalPos.Unsigned.to_uint_nonnil.
Qed.

Lemma print_uint_head (d : Decimal.uint) :
  d <> Decimal.Nil ->
  exists c r, print_uint d = c :: r /\ is_digit c = true.
Proof. destruct d; simpl; try congruence; intros _; eauto. Qed.

Lemma is_digit_range (c : code_unit) :
  is_digit c = true -> (48 <= c <= 57)%N.
Proof.
  unfold is_digit. intros H. apply andb_true_iff in H. destruct H as [A B].
  apply N.leb_le in A, B. lia.
Qed.

Lemma ends_number_digit (rest : jsstring) :
  ends_number rest = true ->
  match rest with [] => True | c :: _ => is_digit c = false end.
Proof.
  destruct rest as [|c r]; simpl; [auto|].
  destruct (is_digit c); [discriminate|reflexivity].
Qed.

Lemma parse_frac_stop (rest : jsstring) :
  ends_number rest = true -> parse_frac rest = Some (Decimal.Nil, rest).
Proof.
  destruct rest as [|c r]; simpl; [reflexivity|].
  destruct (c =? 46)%N; [|reflexivity].
  rewrite orb_true_r. discriminate.
Qed.

Lemma parse_exp_stop (rest : jsstring) :
  ends_number rest = true -> parse_exp rest = Some (0, rest).
Proof.
  destruct rest as [|c r]; simpl; [reflexivity|].
  destruct (is_digit c), (c =? 46)%N, (c =? 101)%N, (c =? 69)%N;
    simpl; try discriminate; reflexivity.
Qed.

Lemma parse_digits (neg : bool) (n : N) (rest : jsstring) :
  ends_number rest = true ->
  (let (ip, s2) := take_uint (print_uint (N.to_uint n) ++ rest) in
   match ip with
   | Decimal.Nil => None
   | _ =>
       if leading_zero ip then None else
       match parse_frac s2 with
       | None => None
       | Some (fp, s3) =>
           match parse_exp s3 with
           | None => None
           | Some (ex, s4) =>
               let m := Z_of_uint (Decimal.app ip fp) in
               Some (JNum (if neg then - m else m)
                          (ex - Z.of_nat (Decimal.nb_digits fp)), s4)
           end
       end
   end)
  = Some (JNum (if neg then - Z.of_N n else Z.of_N n) 0, rest).
Proof.
  intros Hrest.
  rewrite (take_uint_print _ _ (ends_number_digit _ Hrest)).
  pose proof (to_uint_not_nil n) as Hn.
  pose proof (to_uint_no_leading_zero n) as Hz.
  assert (Hv : Z_of_uint (N.to_uint n) = Z.of_N n)
    by (unfold Z_of_uint; now rewrite DecimalN.Unsigned.of_to).
  destruct (N.to_uint n) eqn:En; try congruence;
    rewrite Hz, (parse_frac_stop _ Hrest), (parse_exp_stop _ Hrest);
    cbv zeta; rewrite DecimalFacts.app_nil_r, Hv; reflexivity.
Qed.

Lemma parse_number_print (z : Z) (rest : jsstring) :
  ends_number rest = true ->
  parse_number (print_Z z ++ rest) = Some (JNum z 0, rest).
Proof.
  intros Hrest. unfold parse_number, print_Z.
  destruct (z <? 0) eqn:Hneg.
  - apply Z.ltb_lt in Hneg. cbn [app parse_sign]. rewrite N.eqb_refl.
    rewrite (parse_digits true _ _ Hrest). rewrite N2Z.inj_abs_N.
    do 3 f_equal. lia.
  - apply Z.ltb_ge in Hneg. cbn [app].
    destruct (print_uint_head _ (to_uint_not_nil (Z.abs_N z))) as (c & r & E & Hc).
    assert (Hs : parse_sign (print_uint (N.to_uint (Z.abs_N z)) ++ rest)
                 = (false, print_uint (N.to_uint (Z.abs_N z)) ++ rest)).
    { rewrite E. cbn [app parse_sign].
      replace (c =? 45)%N with false; [reflexivity|].
      symmetry; apply N.eqb_neq. pose proof (is_digit_range c Hc). lia. }
    rewrite Hs. rewrite (parse_digits false _ _ Hrest). rewrite N2Z.inj_abs_N.
    do 3 f_equal. lia.
Qed.

(** Strings *)

Lemma hex4_control (c : code_unit) :
  (c < 32)%N ->
  hex4 Chr.zero Chr.zero (hex_digit (c / 16)) (hex_digit (c mod 16)) = Some c.
Proof.
  intros H.
  assert (Hall : forallb
            (fun k => match hex4 Chr.zero Chr.zero (hex_digit (k / 16))
                                 (hex_digit (k mod 16)) with
                      | Some v => (v =? k)%N
                      | None => false
                      end)
            (map N.of_nat (seq 0 32)) = true) by (vm_compute; reflexivity).
  rewrite forallb_forall in Hall.
  specialize (Hall c).
  destruct (hex4 _ _ _ _) as [v|].
  - f_equal. apply N.eqb_eq. apply Hall.
    apply in_map_iff. exists (N.to_nat c). split; [apply N2Nat.id|].
    apply in_seq. lia.
  - assert (false = true); [|discriminate]. apply Hall.
    apply in_map_iff. exists (N.to_nat c). split; [apply N2Nat.id|].
    apply in_seq. lia.
Qed.

Lemma parse_chars_unit (c : code_unit) (t rest : jsstring) (tail : jsstring) :
  parse_chars tail = Some (t, rest) ->
  parse_chars (quote_unit c ++ tail) = Some (c :: t, rest).
Proof.
  intros Ht. unfold quote_unit.
  destruct (c =? 8)%N eqn:E8; [apply N.eqb_eq in E8; subst; simpl; now rewrite Ht|].
  destruct (c =? 9)%N eqn:E9; [apply N.eqb_eq in E9; subst; simpl; now rewrite Ht|].
  destruct (c =? 10)%N eqn:E10; [apply N.eqb_eq in E10; subst; simpl; now rewrite Ht|].
  destruct (c =? 12)%N eqn:E12; [apply N.eqb_eq in E12; subst; simpl; now rewrite Ht|].
  destruct (c =? 13)%N eqn:E13; [apply N.eqb_eq in E13; subst; simpl; now rewrite Ht|].
  destruct (c =? 34)%N eqn:E34; [apply N.eqb_eq in E34; subst; simpl; now rewrite Ht|].
  destruct (c =? 92)%N eqn:E92; [apply N.eqb_eq in E92; subst; simpl; now rewrite Ht|].
  destruct (c <? 32)%N eqn:E32.
  - apply N.ltb_lt in E32. cbn [app parse_chars].
    change (Chr.backslash =? 34)%N with false.
    change (Chr.backslash =? 92)%N with true.
    change (Chr.u =? 117)%N with true. cbv iota.
    rewrite (hex4_control c E32), Ht. reflexivity.
  - cbn [app parse_chars]. now rewrite E34, E92, E32, Ht.
Qed.

Lemma hex4_surrogate (c : code_unit) :
  (55296 <= c <= 57343)%N ->
  hex4 (hex_digit (c / 4096)) (hex_digit ((c / 256) mod 16))
       (hex_digit ((c / 16) mod 16)) (hex_digit (c mod 16)) = Some c.
Proof.
  intros H.
  assert (Hall : forallb
            (fun k => match hex4 (hex_digit (k / 4096))
                                 (hex_digit ((k / 256) mod 16))
                                 (hex_digit ((k / 16) mod 16))
                                 (hex_digit (k mod 16)) with
                      | Some v => (v =? k)%N
                      | None => false
                      end)
            (map (fun i => 55296 + N.of_nat i)%N (seq 0 2048)) = true)
    by (vm_compute; reflexivity).
  rewrite forallb_forall in Hall.
  assert (Hin : In c (map (fun i => 55296 + N.of_nat i)%N (seq 0 2048))).
  { apply in_map_iff. exists (N.to_nat (c - 55296)). split; [lia|].
    apply in_seq. lia. }
  specialize (Hall c Hin).
  destruct (hex4 _ _ _ _) as [v|]; [|discriminate].
  f_equal. now apply N.eqb_eq.
Qed.

Lemma parse_chars_escape (c : code_unit) (t rest tail : jsstring) :
  (55296 <= c <= 57343)%N ->
  parse_chars tail = Some (t, rest) ->
  parse_chars (unicode_escape c ++ tail) = Some (c :: t, rest).
Proof.
  intros Hc Ht. unfold unicode_escape. cbn [app parse_chars].
  change (Chr.backslash =? 34)%N with false.
  change (Chr.backslash =? 92)%N with true.
  change (Chr.u =? 117)%N with true. cbv iota.
  rewrite (hex4_surrogate c Hc), Ht. reflexivity.
Qed.

Lemma parse_chars_raw (c : code_unit) (t rest tail : jsstring) :
  (55296 <= c)%N ->
  parse_chars tail = Some (t, rest) ->
  parse_chars (c :: tail) = Some (c :: t, rest).
Proof.
  intros Hc Ht. cbn [parse_chars].
  replace (c =? 34)%N with false by (symmetry; apply N.eqb_neq; lia).
  replace (c =? 92)%N with false by (symmetry; apply N.eqb_neq; lia).
  replace (c <? 32)%N with false by (symmetry; apply N.ltb_ge; lia).
  now rewrite Ht.
Qed.

Lemma is_leading_range (c : code_unit) :
  is_leading c = true -> (55296 <= c <= 56319)%N.
Proof.
  unfold is_leading. intros H. apply andb_true_iff in H. destruct H as [A B].
  apply N.leb_le in A. apply N.leb_le in B. lia.
Qed.

Lemma is_trailing_range (c : code_unit) :
  is_trailing c = true -> (56320 <= c <= 57343)%N.
Proof.
  unfold is_trailing. intros H. apply andb_true_iff in H. destruct H as [A B].
  apply N.leb_le in A. apply N.leb_le in B. lia.
Qed.

Lemma parse_chars_quoted (s rest : jsstring) :
  parse_chars (quote_units s ++ Chr.quote :: rest) = Some (s, rest).
Proof.
  assert (H : forall n s, (List.length s <= n)%nat ->
                          parse_chars (quote_units s ++ Chr.quote :: rest)
                          = Some (s, rest)).
  { clear s. induction n as [|n IH]; intros s Hn.
    - destruct s; [reflexivity|simpl in Hn; lia].
    - destruct s as [|c r]; [reflexivity|]. cbn [quote_units].
      cbn [List.length] in Hn.
      destruct (is_leading c) eqn:Hl.
      + apply is_leading_range in Hl. destruct r as [|d r'].
        * apply parse_chars_escape; [lia|reflexivity].
        * destruct (is_trailing d) eqn:Ht.
          -- apply is_trailing_range in Ht. cbn [app].
             apply parse_chars_raw; [lia|]. apply parse_chars_raw; [lia|].
             apply IH. cbn [List.length] in Hn. lia.
          -- rewrite <- app_assoc. apply parse_chars_escape; [lia|].
             apply IH. lia.
      + destruct (is_trailing c) eqn:Ht.
        * apply is_trailing_range in Ht. rewrite <- app_assoc.
          apply parse_chars_escape; [lia|]. apply IH. lia.
        * rewrite <- app_assoc. apply parse_chars_unit. apply IH. lia. }
  apply (H (List.length s)). lia.
Qed.

(** Values *)

Lemma json_induction (P : json -> Prop) :
  P JNull -> (forall b, P (JBool b)) -> (forall m e, P (JNum m e)) ->
  (forall s, P (JStr s)) ->
  (forall l, Forall P l -> P (JArr l)) ->
  (forall l, Forall (fun kv => P (snd kv)) l -> P (JObj l)) ->
  forall v, P v.
Proof.
  intros Hn Hb Hm Hs Ha Ho.
  fix F 1. intros [ | b | m e | s | l | l].
  - exact Hn.
  - apply Hb.
  - apply Hm.
  - apply Hs.
  - apply Ha. induction l as [|x r IHl]; constructor; [apply F|exact IHl].
  - apply Ho. induction l as [|[k x] r IHl]; constructor; [apply F|exact IHl].
Qed.

Lemma skip_ws_starts (s : jsstring) : starts_value s -> skip_ws s = s.
Proof.
  destruct s as [|c r]; simpl; [tauto|]. intros (H & _). now rewrite H.
Qed.

Lemma skip_ws_cons (c : code_unit) (r : jsstring) :
  is_json_ws c = false -> skip_ws (c :: r) = c :: r.
Proof. intros H. simpl. now rewrite H. Qed.

Lemma print_Z_head (z : Z) :
  exists c r, print_Z z = c :: r /\ (c = 45%N \/ is_digit c = true).
Proof.
  unfold print_Z. destruct (z <? 0).
  - simpl. eauto.
  - destruct (print_uint_head _ (to_uint_not_nil (Z.abs_N z))) as (c & r & E & Hc).
    simpl. rewrite E. eauto.
Qed.

Lemma stringify_starts (v : json) (tail : jsstring) :
  starts_value (JSON_stringify v ++ tail).
Proof.
  destruct v as [ | [|] | m e | s | l | l]; simpl;
    try (repeat split; discriminate).
  assert (H : forall z t, starts_value (print_Z z ++ t)).
  { intros z t. destruct (print_Z_head z) as (c & r & -> & [-> | Hc]); simpl.
    - repeat split; discriminate.
    - pose proof (is_digit_range c Hc). unfold is_json_ws.
      repeat split; try lia.
      repeat (apply orb_false_iff; split); apply N.eqb_neq; lia. }
  destruct (e =? 0); [apply H|]. rewrite <- app_assoc. apply H.
Qed.

Lemma parse_elements_print (l : list json) :
  Forall reads_back l -> forallb integral l = true -> l <> [] ->
  forall fuel rest, (elements_fuel l <= fuel)%nat ->
  parse_elements fuel
    (join [Chr.comma] (map JSON_stringify l) ++ Chr.rbracket :: rest)
  = Some (l, rest).
Proof.
  induction 1 as [|v l Hv Hl IH]; [congruence|].
  intros Hint _ fuel rest Hfuel.
  cbn [forallb] in Hint. apply andb_true_iff in Hint. destruct Hint as [Hiv Hil].
  change (elements_fuel (v :: l))
    with (S (json_size v) + elements_fuel l)%nat in Hfuel.
  destruct fuel as [|f]; [lia|]. cbn [parse_elements].
  destruct l as [|v2 l2].
  - cbn [map join]. rewrite (Hv Hiv f (Chr.rbracket :: rest)); [|lia|reflexivity].
    reflexivity.
  - change (join [Chr.comma] (map JSON_stringify (v :: v2 :: l2)))
      with (JSON_stringify v ++ [Chr.comma]
            ++ join [Chr.comma] (map JSON_stringify (v2 :: l2))).
    rewrite <- !app_assoc.
    rewrite (Hv Hiv f); [|lia|reflexivity].
    cbn [app]. rewrite skip_ws_cons by reflexivity.
    change (Chr.comma =? 44)%N with true. cbv iota.
    rewrite (IH Hil ltac:(discriminate) f rest); [reflexivity|lia].
Qed.

Lemma parse_key_print (k tail : jsstring) :
  parse_key (quote_string k ++ Chr.colon :: tail) = Some (k, tail).
Proof.
  unfold parse_key, quote_string. cbn [app].
  rewrite skip_ws_cons by reflexivity.
  change (Chr.quote =? 34)%N with true. cbv iota.
  rewrite <- app_assoc. cbn [app].
  rewrite parse_chars_quoted. rewrite skip_ws_cons by reflexivity.
  reflexivity.
Qed.

Lemma parse_members_print (l : list (jsstring * json)) :
  Forall (fun kv => reads_back (snd kv)) l ->
  forallb (fun kv => integral (snd kv)) l = true -> l <> [] ->
  forall fuel rest, (members_fuel l <= fuel)%nat ->
  parse_members fuel
    (join [Chr.comma] (map print_member l) ++ Chr.rbrace :: rest)
  = Some (l, rest).
Proof.
  induction 1 as [|[k v] l Hv Hl IH]; [congruence|].
  intros Hint _ fuel rest Hfuel.
  cbn [forallb snd] in Hint. apply andb_true_iff in Hint. destruct Hint as [Hiv Hil].
  change (members_fuel ((k, v) :: l))
    with (S (json_size v) + members_fuel l)%nat in Hfuel.
  destruct fuel as [|f]; [lia|]. cbn [parse_members]. cbn [snd] in Hv.
  destruct l as [|kv2 l2].
  - cbn [map join]. unfold print_member. cbn [fst snd].
    rewrite <- !app_assoc. cbn [app]. rewrite parse_key_print.
    rewrite (Hv Hiv f (Chr.rbrace :: rest)); [|lia|reflexivity].
    reflexivity.
  - change (join [Chr.comma] (map print_member ((k, v) :: kv2 :: l2)))
      with (print_member (k, v) ++ [Chr.comma]
            ++ join [Chr.comma] (map print_member (kv2 :: l2))).
    unfold print_member at 1. cbn [fst snd].
    rewrite <- !app_assoc. cbn [app]. rewrite parse_key_print.
    rewrite (Hv Hiv f); [|lia|reflexivity].
    rewrite skip_ws_cons by reflexivity.
    change (Chr.comma =? 44)%N with true. cbv iota.
    rewrite (IH Hil ltac:(discriminate) f rest); [reflexivity|lia].
Qed.

Lemma parse_value_number (f : nat) (z : Z) (rest : jsstring) :
  ends_number rest = true ->
  parse_value (S f) (print_Z z ++ rest) = Some (JNum z 0, rest).
Proof.
  intros Hrest. pose proof (parse_number_print z rest Hrest) as Hp.
  destruct (print_Z_head z) as (c & r & E & Hc). rewrite E in *.
  cbn [app] in *. cbn [parse_value].
  assert (Hws : is_json_ws c = false /\ (c =? 123)%N = false /\
                (c =? 91)%N = false /\ (c =? 34)%N = false /\
                (c =? 116)%N = false /\ (c =? 102)%N = false /\
                (c =? 110)%N = false).
  { destruct Hc as [-> | Hc]; [repeat split; reflexivity|].
    pose proof (is_digit_range c Hc). unfold is_json_ws.
    repeat split; try (apply N.eqb_neq; lia).
    repeat (apply orb_false_iff; split); apply N.eqb_neq; lia. }
  destruct Hws as (W & H1 & H2 & H3 & H4 & H5 & H6).
  rewrite (skip_ws_cons c _ W), H1, H2, H3, H4, H5, H6. exact Hp.
Qed.

Lemma parse_value_array (f : nat) (s rest : jsstring) (vs : list json) :
  starts_value s -> parse_elements f s = Some (vs, rest) ->
  parse_value (S f) (Chr.lbracket :: s) = Some (JArr vs, rest).
Proof.
  intros Hst Hp. cbn [parse_value]. rewrite skip_ws_cons by reflexivity.
  change (Chr.lbracket =? 123)%N with false.
  change (Chr.lbracket =? 91)%N with true. cbv iota.
  rewrite (skip_ws_starts s Hst).
  destruct s as [|c r]; [destruct Hst|]. destruct Hst as (_ & Hc & _).
  replace (c =? 93)%N with false by (symmetry; now apply N.eqb_neq).
  now rewrite Hp.
Qed.

Lemma parse_value_object (f : nat) (s rest : jsstring)
    (ms : list (jsstring * json)) :
  starts_value s -> parse_members f s = Some (ms, rest) ->
  parse_value (S f) (Chr.lbrace :: s) = Some (JObj ms, rest).
Proof.
  intros Hst Hp. cbn [parse_value]. rewrite skip_ws_cons by reflexivity.
  change (Chr.lbrace =? 123)%N with true. cbv iota.
  rewrite (skip_ws_starts s Hst).
  destruct s as [|c r]; [destruct Hst|]. destruct Hst as (_ & _ & Hc).
  replace (c =? 125)%N with false by (symmetry; now apply N.eqb_neq).
  now rewrite Hp.
Qed.

Lemma join_starts (first : jsstring) (others : list jsstring) (tail : jsstring) :
  (forall t, starts_value (first ++ t)) ->
  starts_value (join [Chr.comma] (first :: others) ++ tail).
Proof.
  intros H. destruct others; cbn [join]; [apply H|].
  rewrite <- app_assoc. apply H.
Qed.

Lemma print_member_starts (kv : jsstring * json) (t : jsstring) :
  starts_value (print_member kv ++ t).
Proof.
  unfold print_member, quote_string. cbn [app]. repeat split; discriminate.
Qed.

Lemma JSON_stringify_reads_back (v : json) : reads_back v.
Proof.
  induction v as [ | b | m e | s | l IH | l IH] using json_induction;
    intros Hint fuel rest Hfuel Hrest;
    (destruct fuel as [|f]; [simpl in Hfuel; lia|]).
  - reflexivity.
  - destruct b; reflexivity.
  - simpl in Hint. apply Z.eqb_eq in Hint. subst e.
    cbn [JSON_stringify]. rewrite Z.eqb_refl.
    now apply parse_value_number.
  - cbn [JSON_stringify parse_value]. unfold quote_string. cbn [app].
    rewrite skip_ws_cons by reflexivity.
    change (Chr.quote =? 123)%N with false. change (Chr.quote =? 91)%N with false.
    change (Chr.quote =? 34)%N with true. cbv iota.
    rewrite <- app_assoc. cbn [app]. now rewrite parse_chars_quoted.
  - destruct l as [|x l'].
    + reflexivity.
    + change (JSON_stringify (JArr (x :: l')) ++ rest)
        with (Chr.lbracket ::
              (join [Chr.comma] (map JSON_stringify (x :: l')) ++ [Chr.rbracket])
              ++ rest).
      rewrite <- app_assoc. cbn [app].
      apply parse_value_array.
      * cbn [map]. apply join_starts. intros t. apply stringify_starts.
      * apply parse_elements_print; [exact IH|exact Hint|discriminate|].
        simpl in Hfuel. unfold elements_fuel. simpl. lia.
  - destruct l as [|[k x] l'].
    + reflexivity.
    + change (JSON_stringify (JObj ((k, x) :: l')) ++ rest)
        with (Chr.lbrace ::
              (join [Chr.comma] (map print_member ((k, x) :: l')) ++ [Chr.rbrace])
              ++ rest).
      rewrite <- app_assoc. cbn [app].
      apply parse_value_object.
      * cbn [map]. apply join_starts. intros t. apply print_member_starts.
      * apply parse_members_print; [exact IH|exact Hint|discriminate|].
        simpl in Hfuel. unfold members_fuel. simpl. lia.
Qed.

Lemma join_bound {A} (pr : A -> jsstring) (sz : A -> nat) (l : list A) :
  Forall (fun x => (sz x <= List.length (pr x))%nat) l ->
  (list_sum (map (fun x => S (sz x)) l)
   <= S (List.length (join [Chr.comma] (map pr l))))%nat.
Proof.
  induction 1 as [|x l Hx Hl IH]; [simpl; lia|].
  destruct l as [|y l'].
  - simpl. lia.
  - simpl in *. rewrite length_app. simpl. lia.
Qed.

Lemma json_size_length (v : json) :
  (json_size v <= List.length (JSON_stringify v))%nat.
Proof.
  induction v as [ | b | m e | s | l IH | l IH] using json_induction.
  - simpl. lia.
  - destruct b; simpl; lia.
  - cbn [json_size JSON_stringify].
    destruct (print_Z_head m) as (c & r & E & _).
    destruct (e =? 0); [|rewrite length_app]; rewrite E; simpl; lia.
  - simpl. lia.
  - cbn [json_size JSON_stringify]. rewrite !length_app. cbn [List.length].
    pose proof (join_bound JSON_stringify json_size l IH). lia.
  - cbn [json_size JSON_stringify]. rewrite !length_app. cbn [List.length].
    pose proof (join_bound print_member (fun kv => json_size (snd kv)) l) as H.
    assert (Hm : Forall (fun kv => (json_size (snd kv)
                                    <= List.length (print_member kv))%nat) l).
    { eapply Forall_impl; [|exact IH]. intros kv Hkv. cbv beta in Hkv.
      unfold print_member, quote_string. rewrite !length_app. simpl. lia. }
    specialize (H Hm). rewrite Nat.add_1_r. apply le_n_S. exact H.
Qed.

(** [JSON.parse (JSON.stringify v)] gives [v] back, for the values whose
    numbers are integers. *)
Lemma JSON_parse_stringify (v : json) :
  integral v = true -> JSON_parse (JSON_stringify v) = Some v.
Proof.
  intros Hint. unfold JSON_parse.
  pose proof (JSON_stringify_reads_back v Hint
                (S (List.length (JSON_stringify v))) []) as H.
  rewrite List.app_nil_r in H. rewrite H; [reflexivity| |reflexivity].
  pose proof (json_size_length v). lia.
Qed.

(** ** The breakpoints file *)

Lemma json_integer_plain (z : Z) : json_integer z 0 = Some z.
Proof. unfold json_integer. simpl. now rewrite Z.mul_1_r. Qed.

Lemma breakpoint_of_json_back (bp : VanessaBreakpoint) :
  breakpoint_of_json (breakpoint_json bp) = Some bp.
Proof.
  destruct bp as [i l v]. unfold breakpoint_of_json, breakpoint_json.
  cbn [id line verified].
  change (json_member (js "verified")
            [(js "verified", JBool v); (js "line", JNum l 0); (js "id", JNum i 0)])
    with (Some (JBool v)).
  change (json_member (js "line")
            [(js "verified", JBool v); (js "line", JNum l 0); (js "id", JNum i 0)])
    with (Some (JNum l 0)).
  change (json_member (js "id")
            [(js "verified", JBool v); (js "line", JNum l 0); (js "id", JNum i 0)])
    with (Some (JNum i 0)).
  cbv iota. now rewrite !json_integer_plain.
Qed.

Lemma traverse_map {A B} (f : B -> option A) (g : A -> B) (l : list A) :
  (forall x, f (g x) = Some x) -> traverse f (map g l) = Some l.
Proof.
  intros H. induction l as [|x r IH]; simpl; [reflexivity|].
  now rewrite H, IH.
Qed.

Lemma record_of_json_back (kv : jsstring * list VanessaBreakpoint) :
  record_of_json
    (JObj [(js "file", JStr (fst kv));
           (js "breakpoints", JArr (map breakpoint_json (snd kv)))])
  = Some kv.
Proof.
  destruct kv as [k bps]. unfold record_of_json. cbn [fst snd].
  change (json_member (js "file")
            [(js "file", JStr k);
             (js "breakpoints", JArr (map breakpoint_json bps))])
    with (Some (JStr k)).
  change (json_member (js "breakpoints")
            [(js "file", JStr k);
             (js "breakpoints", JArr (map breakpoint_json bps))])
    with (Some (JArr (map breakpoint_json bps))).
  cbv iota. now rewrite (traverse_map _ _ bps breakpoint_of_json_back).
Qed.

Lemma breakPointsInfo_integral (m : Map (list VanessaBreakpoint)) :
  integral (breakPointsInfo m) = true.
Proof.
  unfold breakPointsInfo. cbn [integral]. apply forallb_forall.
  intros j Hj. apply in_map_iff in Hj. destruct Hj as (kv & <- & _).
  cbn [integral forallb snd]. rewrite andb_true_r. apply forallb_forall.
  intros b Hb. apply in_map_iff in Hb. destruct Hb as (bp & <- & _).
  reflexivity.
Qed.

(** Reading back the text written for a registry gives the registry. *)
Lemma reload_stringify (m : Map (list VanessaBreakpoint)) :
  reload (JSON_stringify (breakPointsInfo m)) = Some m.
Proof.
  unfold reload.
  rewrite (JSON_parse_stringify _ (breakPointsInfo_integral m)).
  unfold breakPointsInfo. apply traverse_map. exact record_of_json_back.
Qed.

Lemma persisted_write (before w3 : World) :
  written w3 = written before ->
  persisted before
    (write_file (getBreakPointsFile w3)
       (JSON_stringify (breakPointsInfo (_breakPoints w3))) w3).
Proof.
  intros Hw. unfold persisted. cbn [_breakPoints write_file written disk].
  change (getBreakPointsFile (write_file _ _ w3)) with (getBreakPointsFile w3)
    at 1.
  split; [now rewrite Hw|]. split; [apply Map_get_set_same|].
  split; [apply reload_stringify|].
  intros m Hm. rewrite reload_stringify in Hm. injection Hm as <-. auto.
Qed.

(** ** Clearing a breakpoint *)



Lemma surroundings_written (w w' : World) :
  surroundings w' = surroundings w -> written w' = written w.
Proof. unfold surroundings. congruence. Qed.

Lemma setBreakPoint_returns (path : jsstring) (ln : Z) (w : World)
    (lines : list jsstring) :
  loaded_lines path w = Some lines -> 0 <= ln ->
  (forall bps, Map_get path (_breakPoints w) = Some bps -> lines_nonnegative bps) ->
  returned (SetBreakPoint path ln) w = can_write w.
Proof.
  intros Hload Hln Hnn.
  destruct (verifyBreakpoints_returns path (pushed path ln w) lines) as (w3 & E & _).
  - exact Hload.
  - intros bps Hget. unfold pushed in Hget. cbn [_breakPoints set_breakPoints] in Hget.
    rewrite Map_get_set_same in Hget. injection Hget as <-.
    apply Forall_app. split.
    + destruct (Map_get path (_breakPoints w)) as [a|]; [now apply Hnn|constructor].
    + constructor; [exact Hln|constructor].
  - pose proof (verifyBreakpoints_access path (pushed path ln w)) as [_ A].
    rewrite E in A. cbn [snd] in A.
    unfold returned, call_body, ignore. unfold bind at 1.
    rewrite setBreakPoint_run, E, A.
    change (can_write (pushed path ln w)) with (can_write w).
    destruct (can_write w); reflexivity.
Qed.

Lemma perform_clearBreakPoint (path : jsstring) (ln : Z) (w : World) :
  perform (ClearBreakPoint path ln) w = snd (clearBreakPoint path ln w).
Proof.
  unfold perform, call_body, ignore, bind.
  destruct (clearBreakPoint path ln w) as [[bp|e] w']; reflexivity.
Qed.

Lemma clearBreakpoints_run (path : jsstring) (w : World) :
  clearBreakpoints path w
  = if can_write w
    then (Return tt,
          write_file (getBreakPointsFile w)
            (JSON_stringify (breakPointsInfo (Map_delete path (_breakPoints w))))
            (set_breakPoints (Map_delete path (_breakPoints w)) w))
    else (Throw IOError, set_breakPoints (Map_delete path (_breakPoints w)) w).
Proof.
  unfold clearBreakpoints. unfold bind at 1, modify at 1.
  rewrite saveBreakpointsToFile_run.
  change (can_write (set_breakPoints _ w)) with (can_write w).
  destruct (can_write w); reflexivity.
Qed.

(** The breakpoint that [setBreakPoint] pushes is in the registry with its
    new id, however the call ends. *)
Lemma setBreakPoint_pushed (path : jsstring) (ln : Z) (w : World) :
  id (last_pushed path (snd (setBreakPoint path ln w))) = _breakpointId w + 1.
Proof.
  rewrite setBreakPoint_run.
  set (bp := {| id := _breakpointId w + 1; line := ln; verified := false |}).
  set (bps := match Map_get path (_breakPoints w) with Some a => a | None => [] end).
  assert (Hget : Map_get path (_breakPoints (pushed path ln w)) = Some (bps ++ [bp])).
  { unfold pushed. simpl. apply Map_get_set_same. }
  destruct (verifyBreakpoints_entry path _ _ Hget) as (bps' & Hget' & Ki & _).
  assert (Hlast : forall d, id (last bps' d) = _breakpointId w + 1).
  { intros d. rewrite last_map, Ki, map_app. simpl. now rewrite last_last. }
  unfold last_pushed.
  destruct (verifyBreakpoints path (pushed path ln w)) as [[[]|e] w3];
    [destruct (can_write w3)|]; cbn [snd _breakPoints write_file] in *;
    rewrite Hget'; apply Hlast.
Qed.

(** C5 as worded fails: on the sample, after a breakpoint was set in the
    feature file, [setBreakPoint] for a file that cannot be read throws
    out of its verification pass: the breakpoint is in the registry, the
    breakpoints file has not been written again and, read back, it has no
    record for that file. *)
Lemma unreadable_source_counterexample :
  let w := perform (SetBreakPoint Sample.path 1) Sample.fresh in
  let r := setBreakPoint (js "missing.feature") 3 w in
  fst r = Throw IOError /\
  Map_get (js "missing.feature") (_breakPoints (snd r))
  = Some [ {| id := 3; line := 3; verified := false |} ] /\
  written (snd r) = written w /\
  option_map reload (Map_get (getBreakPointsFile w) (disk (snd r)))
  = Some (Some [(Sample.path, [ {| id := 2; line := 1; verified := false |} ])]) /\
  ~ persistence_claim.
Proof.
  intros w r.
  split; [vm_compute; reflexivity|]. split; [vm_compute; reflexivity|].
  split; [vm_compute; reflexivity|]. split; [vm_compute; reflexivity|].
  intros claim.
  destruct (claim Sample.fresh [SetBreakPoint Sample.path 1]
              (SetBreakPoint (js "missing.feature") 3) eq_refl eq_refl)
    as [Hw _].
  apply (f_equal (@List.length _)) in Hw. rewrite length_app in Hw.
  assert (E : written (perform (SetBreakPoint (js "missing.feature") 3)
                         (perform_all [SetBreakPoint Sample.path 1] Sample.fresh))
              = written (perform_all [SetBreakPoint Sample.path 1] Sample.fresh))
    by (vm_compute; reflexivity).
  rewrite E in Hw. cbn [List.length] in Hw. lia.
Qed.

(** C5 (amended). After any calls, a call that changes the registry
    ([setBreakPoint], [clearBreakPoint], [clearBreakpoints]) and returns
    has written the breakpoints file once, in full: the text holds one
    record for each file of the mapping (also those whose sequence is
    empty), and reading it back gives the registry held in memory, hence
    for each file the same (id, line) pairs.  A call that throws has
    written nothing and changed no file, but it has changed the registry:
    the breakpoint of [setBreakPoint] is pushed with its new id, that of
    [clearBreakPoint] is taken out, the entry of [clearBreakpoints] is
    deleted.  The clearing calls return exactly when the breakpoints file
    can be written, and so does [setBreakPoint] when the source of its
    file can be loaded and no line is negative. *)
Theorem persisted_registry (w : World) (cs : list call) (c : call) :
  registry_call c = true ->
  let w1 := perform_all cs w in
  (returned c w1 = true -> persisted w1 (perform c w1)) /\
  (returned c w1 = false ->
   written (perform c w1) = written w1 /\ disk (perform c w1) = disk w1) /\
  match c with
  | SetBreakPoint path ln =>
      _breakpointId (perform c w1) = _breakpointId w1 + 1 /\
      id (last_pushed path (perform c w1)) = _breakpointId w1 + 1 /\
      forall lines,
        loaded_lines path w1 = Some lines -> 0 <= ln ->
        (forall bps, Map_get path (_breakPoints w1) = Some bps ->
                     lines_nonnegative bps) ->
        returned c w1 = can_write w1
  | ClearBreakPoint path ln =>
      _breakPoints (perform c w1) = _breakPoints (snd (cleared path ln w1)) /\
      returned c w1 = can_write w1
  | ClearBreakpoints path =>
      _breakPoints (perform c w1) = Map_delete path (_breakPoints w1) /\
      returned c w1 = can_write w1
  | _ => True
  end.
Proof.
  intros Hc w1. generalize w1. clear w cs w1. intros w.
  destruct c; try discriminate; clear Hc.
  - rewrite perform_setBreakPoint.
    assert (R : returned (SetBreakPoint path ln) w
                = match fst (setBreakPoint path ln w) with
                  | Return _ => true
                  | Throw _ => false
                  end).
    { unfold returned, call_body, ignore, bind.
      now destruct (setBreakPoint path ln w) as [[bp|e] w']. }
    rewrite R.
    split; [|split; [|split; [apply setBreakPoint_new_id|split;
      [apply setBreakPoint_pushed|]]]].
    + rewrite setBreakPoint_run.
      pose proof (verifyBreakpoints_frame path (pushed path ln w)) as F.
      simpl in F. destruct F as (Fs & _).
      destruct (verifyBreakpoints path (pushed path ln w)) as [[[]|e] w3];
        [destruct (can_write w3)|]; cbn [fst snd]; try discriminate.
      intros _. apply persisted_write. now apply surroundings_written in Fs.
    + rewrite setBreakPoint_run.
      pose proof (verifyBreakpoints_frame path (pushed path ln w)) as F.
      simpl in F. destruct F as (Fs & Fd & _).
      apply surroundings_written in Fs.
      destruct (verifyBreakpoints path (pushed path ln w)) as [[[]|e] w3];
        [destruct (can_write w3)|]; cbn [fst snd]; try discriminate;
        intros _; auto.
    + intros lines Hload Hln Hnn. rewrite <- R.
      now apply (setBreakPoint_returns path ln w lines).
  - rewrite perform_clearBreakPoint.
    assert (R : returned (ClearBreakPoint path ln) w = can_write w).
    { unfold returned, call_body, ignore, bind. rewrite clearBreakPoint_run.
      now destruct (can_write w). }
    rewrite R, clearBreakPoint_run.
    destruct (cleared_frame path ln w) as (Hw & Hd & Hr & _).
    assert (G : getBreakPointsFile w = getBreakPointsFile (snd (cleared path ln w)))
      by (unfold getBreakPointsFile; now rewrite Hr).
    rewrite G.
    destruct (can_write w); cbn [snd].
    + split; [intros _; now apply persisted_write|]. split; [discriminate|].
      split; reflexivity.
    + split; [discriminate|]. split; [auto|]. split; reflexivity.
  - assert (R : returned (ClearBreakpoints path) w = can_write w).
    { unfold returned, call_body. rewrite clearBreakpoints_run.
      now destruct (can_write w). }
    rewrite R. unfold perform. cbn [call_body]. rewrite clearBreakpoints_run.
    destruct (can_write w); cbn [snd].
    + split; [intros _; now apply persisted_write|]. split; [discriminate|].
      split; reflexivity.
    + split; [discriminate|]. split; [auto|]. split; reflexivity.
Qed.

Lemma persisted_registry_witness :
  let w1 := perform_all
              [SetBreakPoint Sample.path 9; SetBreakPoint Sample.path 1;
               SetBreakPoint Sample.path 2] Sample.fresh in
  persisted w1 (perform (ClearBreakPoint Sample.path 1) w1) /\
  persisted w1 (perform (SetBreakPoint Sample.path 4) w1).
Proof.
  intros w1.
  assert (R1 : returned (ClearBreakPoint Sample.path 1) w1 = true)
    by (vm_compute; reflexivity).
  assert (R2 : returned (SetBreakPoint Sample.path 4) w1 = true)
    by (vm_compute; reflexivity).
  split.
  - exact (proj1 (persisted_registry Sample.fresh
                    [SetBreakPoint Sample.path 9; SetBreakPoint Sample.path 1;
                     SetBreakPoint Sample.path 2]
                    (ClearBreakPoint Sample.path 1) eq_refl) R1).
  - exact (proj1 (persisted_registry Sample.fresh
                    [SetBreakPoint Sample.path 9; SetBreakPoint Sample.path 1;
                     SetBreakPoint Sample.path 2]
                    (SetBreakPoint Sample.path 4) eq_refl) R2).
Defined.

Example sample_breakpoints_file :
  let w1 := perform_all
              [SetBreakPoint Sample.path 9; SetBreakPoint Sample.path 1;
               SetBreakPoint Sample.path 2; ClearBreakPoint Sample.path 9;
               ClearBreakPoint Sample.path 1; ClearBreakPoint Sample.path 3]
              Sample.fresh in
  Map_get (getBreakPointsFile w1) (disk w1)
  = Some (js "[{" ++ quote_string (js "file") ++ js ":"
          ++ quote_string Sample.path ++ js ","
          ++ quote_string (js "breakpoints") ++ js ":[]}]") /\
  option_map reload (Map_get (getBreakPointsFile w1) (disk w1))
  = Some (Some [(Sample.path, [])]).
Proof. vm_compute. split; reflexivity. Qed.

(** A [setBreakPoint] that throws: the line is negative, or the source
    cannot be read.  The breakpoint has been pushed and the counter moved,
    but the file has not been written. *)
Example setBreakPoint_negative_line :
  let r := setBreakPoint Sample.path (-1) Sample.fresh in
  fst r = Throw TypeError /\
  Map_get Sample.path (_breakPoints (snd r))
  = Some [ {| id := 2; line := -1; verified := false |} ] /\
  written (snd r) = [].
Proof. vm_compute. repeat split; reflexivity. Qed.

Example setBreakPoint_unreadable_source :
  let r := setBreakPoint (js "missing.feature") 3 Sample.fresh in
  fst r = Throw IOError /\
  Map_get (js "missing.feature") (_breakPoints (snd r))
  = Some [ {| id := 2; line := 3; verified := false |} ] /\
  written (snd r) = [].
Proof. vm_compute. repeat split; reflexivity. Qed.

(** A workspace without its [.vscode] directory: the breakpoints file
    cannot be written.  [clearBreakPoint] takes the breakpoint out of the
    registry and then throws; no file is written. *)
Example clearBreakPoint_unwritable :
  let w := perform (AccessChanged (getBreakPointsFile Sample.w3) false) Sample.w3 in
  let r := clearBreakPoint Sample.path 1 w in
  fst r = Throw IOError /\
  Map_get Sample.path (_breakPoints (snd r))
  = Some [ {| id := 2; line := 9; verified := false |};
           {| id := 4; line := 3; verified := false |} ] /\
  written (snd r) = written w /\ disk (snd r) = disk w.
Proof. vm_compute. repeat split; reflexivity. Qed.

(* ===================================================================== *)
(** * Part II, continued. Further properties of the runtime               *)
(* ===================================================================== *)

(** ** Starting and stepping *)

(** X1. [start(file, true)] on a loadable source with at least one line,
    the breakpoints of the file having non-negative lines: the call
    returns, the current line is 0, exactly one event is scheduled,
    [stopOnEntry], the file is the loaded file, and [stack] reports the
    single frame of line 0, named "1". *)
Theorem start_stops_on_entry (w : World) (file : jsstring) (lines : list jsstring)
    (startFrame endFrame : Z) :
  loaded_lines file w = Some lines ->
  lines <> [] ->
  (forall bps, Map_get file (_breakPoints w) = Some bps -> lines_nonnegative bps) ->
  exists w',
    start file true w = (Return tt, w') /\
    _currentLine w' = 0 /\
    scheduled w' = scheduled w ++ [js "stopOnEntry"] /\
    requests w' = requests w /\
    _sourceLines w' = Some lines /\
    stack startFrame endFrame w'
    = ([ {| Frame.index := 0; Frame.name := js "1";
            Frame.file := Some file; Frame.line := 0 |} ], 1).
Proof.
  intros Hload Hne Hnn.
  destruct (loadSource_loaded file w lines Hload)
    as (w1 & E1 & Hl1 & Hf1 & Hb1 & _ & _ & Hs1 & Hr1 & _).
  set (w2 := set_currentLine (-1) w1).
  assert (Hload2 : loaded_lines file w2 = Some lines).
  { unfold loaded_lines. simpl. rewrite Hf1. simpl.
    now rewrite jsstring_eqb_refl. }
  destruct (verifyBreakpoints_returns file w2 lines Hload2) as (w3 & E3 & Hl3).
  { simpl. rewrite Hb1. exact Hnn. }
  pose proof (verifyBreakpoints_frame file w2) as F. rewrite E3 in F.
  simpl in F. destruct F as (Fs & _ & _ & Fc).
  assert (Hf3 : _sourceFile w3 = Some file).
  { destruct (Map_get file (_breakPoints w2)) as [bps|] eqn:Hget.
    - rewrite (verifyBreakpoints_run file w2 bps Hget) in E3.
      destruct (loadSource_loaded file w2 lines Hload2) as (w2' & E2' & _ & Hf2' & _).
      rewrite E2' in E3. injection E3 as _ <-. exact Hf2'.
    - rewrite (verifyBreakpoints_absent file w2 Hget) in E3.
      injection E3 as <-. exact Hf1. }
  assert (Hlen : _currentLine w3 + 1 < array_length lines).
  { rewrite Fc. unfold array_length. destruct lines; [congruence|simpl; lia]. }
  pose proof (step_next w3 lines 115%N (js "topOnEntry") (Hl3 Hl1) Hlen) as Hnext.
  change (115%N :: js "topOnEntry") with (js "stopOnEntry") in Hnext.
  eexists. split; [|split; [|split; [|split; [|split]]]].
  - rewrite start_run, E1, Hf1. fold w2. rewrite E3. exact Hnext.
  - simpl. lia.
  - simpl. rewrite (surroundings_scheduled _ _ Fs). simpl. now rewrite Hs1.
  - simpl. rewrite (surroundings_requests _ _ Fs). simpl. exact Hr1.
  - simpl. exact (Hl3 Hl1).
  - unfold stack. simpl. rewrite Fc, Hf3. reflexivity.
Qed.

Lemma start_stops_on_entry_witness :
  exists w',
    start Sample.path true Sample.w3 = (Return tt, w') /\
    _currentLine w' = 0 /\
    scheduled w' = scheduled Sample.w3 ++ [js "stopOnEntry"] /\
    requests w' = requests Sample.w3 /\
    _sourceLines w' = Some Sample.lines /\
    stack 0 20 w'
    = ([ {| Frame.index := 0; Frame.name := js "1";
            Frame.file := Some Sample.path; Frame.line := 0 |} ], 1).
Proof.
  assert (H1 : loaded_lines Sample.path Sample.w3 = Some Sample.lines)
    by (vm_compute; reflexivity).
  assert (H2 : Sample.lines <> []) by discriminate.
  assert (H3 : forall bps,
             Map_get Sample.path (_breakPoints Sample.w3) = Some bps ->
             lines_nonnegative bps).
  { intros bps H. vm_compute in H. injection H as <-.
    repeat constructor; simpl; lia. }
  exact (start_stops_on_entry Sample.w3 Sample.path Sample.lines 0 20 H1 H2 H3).
Defined.

Lemma perform_step (event : jsstring) (w : World) :
  perform (Step event) w = snd (step event w).
Proof. reflexivity. Qed.

Lemma step_end (w : World) (lines : list jsstring) (event : jsstring) :
  _sourceLines w = Some lines ->
  array_length lines <= _currentLine w + 1 ->
  step event w = (Return tt, add_scheduled (js "end") w).
Proof.
  intros Hl H. unfold step, run. run_monad. rewrite Hl.
  rewrite line_range_none by lia. reflexivity.
Qed.

(** X2. [k] calls of [step(event)] with a non-empty event name, on a
    loaded source: with [r] lines left below the current one, the first
    [min k r] calls each move one line down and schedule the event, the
    others schedule [end] and stay on the last line reached.  The registry,
    the source and the requests are untouched. *)
Theorem steps_advance (w : World) (lines : list jsstring) (event : jsstring)
    (k : nat) :
  _sourceLines w = Some lines ->
  event <> [] ->
  let r := Z.to_nat (array_length lines - 1 - _currentLine w) in
  let w' := perform_all (repeat (Step event) k) w in
  _currentLine w' = _currentLine w + Z.of_nat (Nat.min k r) /\
  scheduled w'
  = scheduled w ++ repeat event (Nat.min k r) ++ repeat (js "end") (k - r) /\
  _sourceLines w' = Some lines /\
  _breakPoints w' = _breakPoints w /\
  requests w' = requests w.
Proof.
  intros Hl Hev. destruct event as [|c event]; [congruence|]. clear Hev.
  revert w Hl. induction k as [|k IH]; intros w Hl.
  - simpl. rewrite app_nil_r. repeat split; auto; lia.
  - cbn [repeat perform_all]. rewrite perform_step.
    destruct (Z_lt_le_dec (_currentLine w + 1) (array_length lines)) as [Hlt|Hge].
    + rewrite (step_next w lines c event Hl Hlt). cbn [snd].
      set (w1 := set_currentLine (_currentLine w + 1) (add_scheduled (c :: event) w)).
      specialize (IH w1 Hl). cbv zeta in IH.
      destruct IH as (Hc & Hs & Hl' & Hb & Hr).
      change (_currentLine w1) with (_currentLine w + 1) in *.
      change (scheduled w1) with (scheduled w ++ [c :: event]) in Hs.
      cbv zeta.
      destruct (Z.to_nat (array_length lines - 1 - _currentLine w)) as [|r] eqn:Er;
        [lia|].
      replace (Z.to_nat (array_length lines - 1 - (_currentLine w + 1))) with r in *
        by lia.
      cbn [Nat.min Nat.sub repeat]. repeat split.
      * rewrite Hc. lia.
      * rewrite Hs. rewrite <- app_assoc. reflexivity.
      * exact Hl'.
      * exact Hb.
      * exact Hr.
    + rewrite (step_end w lines (c :: event) Hl Hge). cbn [snd].
      set (w1 := add_scheduled (js "end") w).
      specialize (IH w1 Hl). cbv zeta in IH.
      destruct IH as (Hc & Hs & Hl' & Hb & Hr).
      change (_currentLine w1) with (_currentLine w) in *.
      change (scheduled w1) with (scheduled w ++ [js "end"]) in Hs.
      cbv zeta.
      replace (Z.to_nat (array_length lines - 1 - _currentLine w)) with O in * by lia.
      rewrite Nat.min_0_r in *. rewrite Nat.sub_0_r in *.
      cbn [repeat app] in *. repeat split.
      * rewrite Hc. lia.
      * rewrite Hs. rewrite <- app_assoc. reflexivity.
      * exact Hl'.
      * exact Hb.
      * exact Hr.
Qed.

Lemma steps_advance_witness :
  let w' := perform_all (repeat (Step (js "stopOnStep")) 6) Sample.started in
  _currentLine w' = 4 /\
  scheduled w'
  = scheduled Sample.started ++ repeat (js "stopOnStep") 4 ++ repeat (js "end") 2.
Proof.
  assert (H1 : _sourceLines Sample.started = Some Sample.lines)
    by (vm_compute; reflexivity).
  assert (H2 : js "stopOnStep" <> []) by discriminate.
  pose proof (steps_advance Sample.started Sample.lines (js "stopOnStep") 6 H1 H2)
    as H.
  cbv zeta in H. destruct H as (Hc & Hs & _).
  assert (Hr : Z.to_nat (array_length Sample.lines - 1 - _currentLine Sample.started)
               = 4%nat) by (vm_compute; reflexivity).
  assert (Hc0 : _currentLine Sample.started = 0) by (vm_compute; reflexivity).
  rewrite Hr in Hc, Hs. rewrite Hc0 in Hc.
  intros w'. split; [exact Hc|exact Hs].
Defined.

(** ** Setting a breakpoint *)

Lemma loaded_lines_pushed (path p : jsstring) (ln : Z) (w : World) :
  loaded_lines p (pushed path ln w) = loaded_lines p w.
Proof. reflexivity. Qed.

(** X3. [setBreakPoint(path, line)] with a non-negative line, on a file
    whose source loads and whose breakpoints have non-negative lines, the
    breakpoints file being writable: the
    call returns the new breakpoint, which is the last of the file's
    sequence, carries the next counter value, is unverified, and stands on
    [line + 1] when line [line] of the source is blank or starts with [+],
    on [line] otherwise; the file's earlier breakpoints went through the
    same pass.  The file has become the loaded source; the current line
    and the scheduled events are as before. *)
Theorem setBreakPoint_result (w : World) (path : jsstring) (ln : Z)
    (lines : list jsstring) :
  loaded_lines path w = Some lines ->
  0 <= ln ->
  (forall bps, Map_get path (_breakPoints w) = Some bps -> lines_nonnegative bps) ->
  can_write w = true ->
  exists w' bp earlier,
    setBreakPoint path ln w = (Return bp, w') /\
    Map_get path (_breakPoints w') = Some (earlier ++ [bp]) /\
    Forall2 (verified_once lines)
      (match Map_get path (_breakPoints w) with Some a => a | None => [] end)
      earlier /\
    verified_once lines
      {| id := _breakpointId w + 1; line := ln; verified := false |} bp /\
    _breakpointId w' = _breakpointId w + 1 /\
    _sourceFile w' = Some path /\ _sourceLines w' = Some lines /\
    _currentLine w' = _currentLine w /\ scheduled w' = scheduled w.
Proof.
  intros Hload Hln Hnn Hcan.
  set (bp0 := {| id := _breakpointId w + 1; line := ln; verified := false |}).
  set (old := match Map_get path (_breakPoints w) with Some a => a | None => [] end).
  assert (Hget : Map_get path (_breakPoints (pushed path ln w)) = Some (old ++ [bp0])).
  { unfold pushed. simpl. apply Map_get_set_same. }
  assert (Hall : lines_nonnegative (old ++ [bp0])).
  { apply Forall_app. split.
    - subst old. destruct (Map_get path (_breakPoints w)) as [a|];
        [now apply Hnn|constructor].
    - constructor; [exact Hln|constructor]. }
  destruct (loadSource_loaded path (pushed path ln w) lines Hload)
    as (w1 & E1 & Hl1 & Hf1 & Hb1 & Hi1 & Hc1 & Hs1 & _).
  assert (Hcan1 : can_write w1 = true).
  { pose proof (loadSource_access path (pushed path ln w)) as [_ A].
    rewrite E1 in A. cbn [snd] in A. rewrite A. exact Hcan. }
  destruct (forEach_verify_pass lines (old ++ [bp0]) Hall) as (bps' & E2 & F2).
  apply Forall2_app_inv_l in F2.
  destruct F2 as (earlier & tl & Fe & Ft & ->).
  inversion Ft as [|x bp xs tl' Hbp Hnil]; subst. inversion Hnil; subst.
  exists (write_file (getBreakPointsFile w1)
            (JSON_stringify
               (breakPointsInfo (Map_set path (earlier ++ [bp]) (_breakPoints w1))))
            (set_breakPoints (Map_set path (earlier ++ [bp]) (_breakPoints w1)) w1)),
         bp, earlier.
  split; [|split; [|split; [|split; [|split; [|split; [|split; [|split]]]]]]].
  - rewrite setBreakPoint_run.
    rewrite (verifyBreakpoints_run path _ _ Hget), E1, Hl1, E2.
    cbn [fst snd _breakPoints set_breakPoints].
    change (can_write (set_breakPoints _ w1)) with (can_write w1).
    rewrite Hcan1, Map_get_set_same, last_last. reflexivity.
  - cbn [_breakPoints write_file set_breakPoints]. apply Map_get_set_same.
  - exact Fe.
  - exact Hbp.
  - cbn [_breakpointId write_file set_breakPoints]. rewrite Hi1. reflexivity.
  - exact Hf1.
  - exact Hl1.
  - cbn [_currentLine write_file set_breakPoints]. rewrite Hc1. reflexivity.
  - cbn [scheduled write_file set_breakPoints]. rewrite Hs1. reflexivity.
Qed.

Lemma setBreakPoint_result_witness :
  exists w' bp earlier,
    setBreakPoint Sample.path 2 Sample.fresh = (Return bp, w') /\
    Map_get Sample.path (_breakPoints w') = Some (earlier ++ [bp]) /\
    Forall2 (verified_once Sample.lines) [] earlier /\
    verified_once Sample.lines {| id := 2; line := 2; verified := false |} bp /\
    _breakpointId w' = 2 /\
    _sourceFile w' = Some Sample.path /\ _sourceLines w' = Some Sample.lines /\
    _currentLine w' = 0 /\ scheduled w' = [].
Proof.
  assert (H1 : loaded_lines Sample.path Sample.fresh = Some Sample.lines)
    by (vm_compute; reflexivity).
  assert (H2 : 0 <= 2) by lia.
  assert (H3 : forall bps,
             Map_get Sample.path (_breakPoints Sample.fresh) = Some bps ->
             lines_nonnegative bps) by (intros bps H; discriminate H).
  assert (H4 : can_write Sample.fresh = true) by (vm_compute; reflexivity).
  exact (setBreakPoint_result Sample.fresh Sample.path 2 Sample.lines H1 H2 H3 H4).
Defined.

Example sample_blank_line_breakpoint :
  fst (setBreakPoint Sample.path 2 Sample.fresh)
  = Return {| id := 2; line := 3; verified := false |}.
Proof. vm_compute. reflexivity. Qed.

(** ** Repeated verification passes *)

Lemma perform_all_app (cs1 cs2 : list call) (w : World) :
  perform_all (cs1 ++ cs2) w = perform_all cs2 (perform_all cs1 w).
Proof. revert w; induction cs1 as [|c r IH]; intros w; simpl; auto. Qed.

Lemma forEach_verify_each (sourceLines : option (list jsstring))
    (bps bps' : list VanessaBreakpoint) :
  forEach_verify sourceLines bps = (bps', None) ->
  Forall2 (fun bp bp' => verifyBreakpoint sourceLines bp = Return bp') bps bps'.
Proof.
  revert bps'; induction bps as [|bp r IH]; intros bps'; simpl.
  - intros [= <-]. constructor.
  - destruct (verifyBreakpoint sourceLines bp) as [b|e] eqn:E; [|discriminate].
    destruct (forEach_verify sourceLines r) as [r' e].
    intros [= <- ->]. constructor; [exact E|]. now apply IH.
Qed.

(** One pass on one breakpoint: it stays, or it leaves an unbreakable line
    for the next one. *)
Lemma verifyBreakpoint_step (lines : list jsstring) (bp bp' : VanessaBreakpoint) :
  verifyBreakpoint (Some lines) bp = Return bp' ->
  bp' = bp \/
  (id bp' = id bp /\ verified bp' = verified bp /\ line bp' = line bp + 1 /\
   exists l, array_get lines (line bp) = Some l /\ unbreakable l = true).
Proof.
  unfold verifyBreakpoint.
  destruct (negb (verified bp)); [|intros [= <-]; now left].
  destruct (line bp <? array_length lines); [|intros [= <-]; now left].
  destruct (array_get lines (line bp)) as [l|] eqn:El; [|discriminate].
  rewrite unbreakable_test.
  destruct (unbreakable l) eqn:Eu; intros [= <-]; [right|now left].
  simpl. repeat split. eauto.
Qed.

Lemma verifyBreakpoint_beyond (lines : list jsstring) (bp : VanessaBreakpoint) :
  array_length lines <= line bp ->
  verifyBreakpoint (Some lines) bp = Return bp.
Proof.
  intros H. unfold verifyBreakpoint.
  destruct (negb (verified bp)); [|reflexivity].
  destruct (line bp <? array_length lines) eqn:E; [|reflexivity].
  apply Z.ltb_lt in E. lia.
Qed.

Lemma moved_by_none (lines : list jsstring) (bp : VanessaBreakpoint) :
  moved_by lines 0 bp bp.
Proof.
  unfold moved_by.
  split; [reflexivity|]. split; [reflexivity|]. split; [lia|]. split.
  - intros i Hi. lia.
  - intros [H|H]; [lia|]. apply verifyBreakpoint_beyond. lia.
Qed.

Lemma moved_by_next (lines : list jsstring) (k : nat)
    (bp bp1 bp2 : VanessaBreakpoint) :
  moved_by lines k bp bp1 ->
  verifyBreakpoint (Some lines) bp1 = Return bp2 ->
  moved_by lines (S k) bp bp2.
Proof.
  intros (Hi & Hv & Hr & Hu & Hfix) E.
  destruct (verifyBreakpoint_step lines bp1 bp2 E)
    as [-> | (Hi2 & Hv2 & Hl2 & l & Hl & Hunb)].
  - unfold moved_by.
    split; [exact Hi|]. split; [exact Hv|]. split; [lia|]. split; [exact Hu|].
    intros _. exact E.
  - unfold moved_by.
    split; [congruence|]. split; [congruence|]. split; [lia|]. split.
    + intros i Hrange. destruct (Z.eq_dec i (line bp1)) as [->|Hne]; [eauto|].
      apply Hu. lia.
    + intros Hor.
      assert (Hnot : ~ (line bp1 < line bp + Z.of_nat k \/
                        array_length lines - line bp <= Z.of_nat k)).
      { intros H. specialize (Hfix H). rewrite Hfix in E. injection E as <-. lia. }
      apply verifyBreakpoint_beyond. lia.
Qed.

Lemma Forall2_moved_next (lines : list jsstring) (k : nat)
    (a b c : list VanessaBreakpoint) :
  Forall2 (moved_by lines k) a b ->
  Forall2 (fun x y => verifyBreakpoint (Some lines) x = Return y) b c ->
  Forall2 (moved_by lines (S k)) a c.
Proof.
  intros H. revert c. induction H as [|x y a b Hxy Hab IH]; intros c Hc.
  - inversion Hc. constructor.
  - inversion Hc as [|y' z b' c' Hyz Hbc]; subst.
    constructor; [eapply moved_by_next; eassumption|now apply IH].
Qed.

Lemma verify_pass_world (path : jsstring) (w : World)
    (bps : list VanessaBreakpoint) (lines : list jsstring) :
  Map_get path (_breakPoints w) = Some bps ->
  loaded_lines path w = Some lines ->
  lines_nonnegative bps ->
  exists bps',
    Map_get path (_breakPoints (perform (VerifyBreakpoints path) w)) = Some bps' /\
    Forall2 (fun x y => verifyBreakpoint (Some lines) x = Return y) bps bps' /\
    loaded_lines path (perform (VerifyBreakpoints path) w) = Some lines.
Proof.
  intros Hget Hload Hnn.
  destruct (loadSource_loaded path w lines Hload) as (w1 & E1 & Hl1 & Hf1 & Hb1 & _).
  destruct (forEach_verify_pass lines bps Hnn) as (bps' & E2 & _).
  exists bps'. unfold perform, call_body.
  rewrite (verifyBreakpoints_run path w bps Hget), E1, Hl1, E2.
  cbn [snd fst _breakPoints set_breakPoints]. split; [apply Map_get_set_same|].
  split; [now apply forEach_verify_each|].
  unfold loaded_lines. cbn [_sourceFile _sourceLines set_breakPoints].
  rewrite Hf1. simpl. now rewrite jsstring_eqb_refl.
Qed.

(** X4. [k] verification passes over a file whose source loads and whose
    breakpoints have non-negative lines: every breakpoint keeps its id and
    flag, has gone down by at most [k] lines, has only left lines that are
    blank or start with [+], and is settled (a further pass leaves it as it
    is) as soon as it went down by less than [k] lines or [k] is at least
    the number of source lines from its first line on. *)
Theorem passes_settle (w : World) (path : jsstring)
    (bps : list VanessaBreakpoint) (lines : list jsstring) (k : nat) :
  Map_get path (_breakPoints w) = Some bps ->
  loaded_lines path w = Some lines ->
  lines_nonnegative bps ->
  exists bps',
    Map_get path (_breakPoints (perform_all (passes k path) w)) = Some bps' /\
    Forall2 (moved_by lines k) bps bps'.
Proof.
  intros Hget Hload Hnn.
  enough (H : exists bps',
             Map_get path (_breakPoints (perform_all (passes k path) w)) = Some bps' /\
             Forall2 (moved_by lines k) bps bps' /\
             loaded_lines path (perform_all (passes k path) w) = Some lines).
  { destruct H as (bps' & A & B & _). eauto. }
  induction k as [|k IH].
  - exists bps. simpl. split; [exact Hget|]. split; [|exact Hload].
    clear. induction bps; constructor; [apply moved_by_none|assumption].
  - destruct IH as (bps1 & Hget1 & Hmoved & Hload1).
    unfold passes in *. cbn [repeat]. rewrite repeat_cons, perform_all_app.
    set (w1 := perform_all (repeat (VerifyBreakpoints path) k) w) in *.
    assert (Hnn1 : lines_nonnegative bps1).
    { clear - Hnn Hmoved. induction Hmoved as [|x y a b Hxy Hab IHm];
        [constructor|].
      inversion Hnn; subst. constructor; [|now apply IHm].
      destruct Hxy as (_ & _ & Hr & _). lia. }
    destruct (verify_pass_world path w1 bps1 lines Hget1 Hload1 Hnn1)
      as (bps2 & Hget2 & Hstep & Hload2).
    exists bps2. cbn [perform_all]. split; [exact Hget2|].
    split; [|exact Hload2]. eapply Forall2_moved_next; eassumption.
Qed.

Lemma passes_settle_witness :
  exists bps',
    Map_get Sample.path (_breakPoints (perform_all (passes 3 Sample.path) Sample.w3))
    = Some bps' /\
    Forall2 (moved_by Sample.lines 3)
      [ {| id := 2; line := 9; verified := false |};
        {| id := 3; line := 1; verified := false |};
        {| id := 4; line := 3; verified := false |} ] bps'.
Proof.
  apply (passes_settle Sample.w3 Sample.path).
  - vm_compute. reflexivity.
  - vm_compute. reflexivity.
  - repeat constructor; simpl; lia.
Defined.

(** ** The loaded source *)

Lemma run_loop_frame (lns : list Z) (stepEvent : option jsstring) (w : World) :
  let w' := snd (run_loop lns stepEvent w) in
  source w' = source w /\ registry w' = registry w /\ files w' = files w /\
  frontend w' = frontend w.
Proof.
  revert w; induction lns as [|ln rest IH]; intros w.
  - simpl. repeat split.
  - cbn [run_loop]. unfold fireEventsForLine, bind, get, sendEvent, modify, ret.
    destruct (truthy stepEvent && (_currentLine w <=? ln)).
    + simpl. repeat split.
    + apply IH.
Qed.

Lemma run_frame (stepEvent : option jsstring) (w : World) :
  let w' := snd (run stepEvent w) in
  source w' = source w /\ registry w' = registry w /\ files w' = files w /\
  frontend w' = frontend w.
Proof.
  unfold run, bind, get, throw. destruct (_sourceLines w) as [lines|].
  - apply run_loop_frame.
  - simpl. repeat split.
Qed.

Lemma loadSource_same (file : jsstring) (w : World) :
  _sourceFile w = Some file -> loadSource file w = (Return tt, w).
Proof.
  intros H. unfold loadSource, bind, get. rewrite H. simpl.
  now rewrite jsstring_eqb_refl.
Qed.

Lemma verifyBreakpoints_same_source (path : jsstring) (w : World) :
  _sourceFile w = Some path ->
  source (snd (verifyBreakpoints path w)) = source w /\
  files (snd (verifyBreakpoints path w)) = files w.
Proof.
  intros H. destruct (Map_get path (_breakPoints w)) as [bps|] eqn:Hget.
  - rewrite (verifyBreakpoints_run path w bps Hget), (loadSource_same path w H).
    simpl. split; reflexivity.
  - rewrite (verifyBreakpoints_absent path w Hget). split; reflexivity.
Qed.

Lemma source_eq (w w' : World) :
  source w' = source w ->
  _sourceFile w' = _sourceFile w /\ _sourceLines w' = _sourceLines w.
Proof. unfold source. intros [= A B]. auto. Qed.

Lemma start_same_source (file : jsstring) (b : bool) (w : World) :
  _sourceFile w = Some file ->
  source (snd (start file b w)) = source w.
Proof.
  intros H. rewrite start_run, (loadSource_same file w H). rewrite H.
  pose proof (verifyBreakpoints_same_source file (set_currentLine (-1) w) H)
    as [Fv _].
  destruct (verifyBreakpoints file (set_currentLine (-1) w)) as [[[]|e] w3];
    simpl in Fv; [|exact Fv].
  change (source w3 = source w) in Fv. rewrite <- Fv. cbn [snd].
  destruct b; [exact (proj1 (run_frame (Some (js "stopOnEntry")) w3))
              |exact (proj1 (run_frame None w3))].
Qed.

Lemma setBreakPoint_same_source (path : jsstring) (ln : Z) (w : World) :
  _sourceFile w = Some path ->
  source (snd (setBreakPoint path ln w)) = source w.
Proof.
  intros H. rewrite setBreakPoint_run.
  pose proof (verifyBreakpoints_same_source path (pushed path ln w) H) as [Fv _].
  destruct (verifyBreakpoints path (pushed path ln w)) as [[[]|e] w3];
    [destruct (can_write w3)|]; cbn [snd] in *; exact Fv.
Qed.

Lemma clearBreakPoint_source (path : jsstring) (ln : Z) (w : World) :
  source (snd (clearBreakPoint path ln w)) = source w.
Proof.
  rewrite clearBreakPoint_run.
  destruct (cleared_frame path ln w) as (_ & _ & _ & _ & _ & S & _).
  destruct (can_write w); exact S.
Qed.

Lemma perform_keeps_source (file : jsstring) (c : call) (w : World) :
  keeps_source file c = true -> _sourceFile w = Some file ->
  source (perform c w) = source w.
Proof.
  intros Hc Hf. unfold perform. destruct c; simpl in Hc; try discriminate;
    cbn [call_body].
  - destruct (jsstring_eqb_spec featureFilePath file) as [->|]; [|discriminate].
    now apply start_same_source.
  - exact (proj1 (run_frame None w)).
  - exact (proj1 (run_frame (Some event) w)).
  - destruct (jsstring_eqb_spec path file) as [->|]; [|discriminate].
    unfold ignore, bind.
    pose proof (setBreakPoint_same_source file ln w Hf) as F.
    destruct (setBreakPoint file ln w) as [[bp|e] w']; exact F.
  - unfold ignore, bind.
    pose proof (clearBreakPoint_source path ln w) as F.
    destruct (clearBreakPoint path ln w) as [[bp|e] w']; exact F.
  - rewrite clearBreakpoints_run. now destruct (can_write w).
  - destruct (jsstring_eqb_spec path file) as [->|]; [|discriminate].
    exact (proj1 (verifyBreakpoints_same_source file w Hf)).
  - reflexivity.
  - reflexivity.
  - reflexivity.
Qed.

(** X5. The source of a file is read once.  While [file] is the loaded
    file, no sequence of starts of that file, steps, continues, breakpoint
    calls on that file, clearing calls and changes of files on the disk or
    of the active editor changes the loaded lines: what is written to the
    file in between is never seen. *)
Theorem source_read_once (file : jsstring) (cs : list call) (w : World) :
  _sourceFile w = Some file ->
  forallb (keeps_source file) cs = true ->
  _sourceFile (perform_all cs w) = Some file /\
  _sourceLines (perform_all cs w) = _sourceLines w.
Proof.
  revert w; induction cs as [|c r IH]; intros w Hf Hcs; [auto|].
  cbn [forallb] in Hcs. apply andb_true_iff in Hcs. destruct Hcs as [Hc Hr].
  cbn [perform_all].
  destruct (source_eq _ _ (perform_keeps_source file c w Hc Hf)) as [A B].
  destruct (IH (perform c w)) as [C D]; [congruence|exact Hr|].
  split; congruence.
Qed.

Lemma source_read_once_witness :
  let cs := [FileChanged Sample.path (Some (js "rewritten")); Start Sample.path true;
             SetBreakPoint Sample.path 0; Step (js "stopOnStep")] in
  _sourceFile (perform_all cs Sample.started) = Some Sample.path /\
  _sourceLines (perform_all cs Sample.started) = _sourceLines Sample.started.
Proof.
  intros cs.
  assert (H1 : _sourceFile Sample.started = Some Sample.path)
    by (vm_compute; reflexivity).
  assert (H2 : forallb (keeps_source Sample.path) cs = true)
    by (vm_compute; reflexivity).
  exact (source_read_once Sample.path cs Sample.started H1 H2).
Defined.

(** X6. A load that fails is not tried again.  When [start(file, ...)] is
    called while another file (or none) is loaded and [file] cannot be
    read, the call throws, having already taken [file] for the loaded
    file while keeping the lines it had; from then on, whatever is written
    to [file], the calls that name no other file keep running on those
    lines. *)
Theorem failed_load_sticks (file : jsstring) (b : bool) (w : World) (cs : list call) :
  same_file (_sourceFile w) file = false ->
  Map_get file (disk w) = None ->
  forallb (keeps_source file) cs = true ->
  start file b w = (Throw IOError, set_sourceFile (Some file) w) /\
  _sourceFile (perform_all cs (perform (Start file b) w)) = Some file /\
  _sourceLines (perform_all cs (perform (Start file b) w)) = _sourceLines w.
Proof.
  intros Hs Hd Hcs.
  assert (E : start file b w = (Throw IOError, set_sourceFile (Some file) w)).
  { rewrite start_run. unfold loadSource, bind, get, modify, readFileSync.
    rewrite Hs. cbn [disk set_sourceFile]. now rewrite Hd. }
  split; [exact E|].
  assert (P : perform (Start file b) w = set_sourceFile (Some file) w)
    by (unfold perform; cbn [call_body]; now rewrite E).
  rewrite P.
  apply (source_read_once file cs (set_sourceFile (Some file) w));
    [reflexivity|exact Hcs].
Qed.

Lemma failed_load_sticks_witness :
  let cs := [FileChanged (js "late.feature") (Some (js "Feature: late"));
             Start (js "late.feature") true] in
  start (js "late.feature") true Sample.started
  = (Throw IOError, set_sourceFile (Some (js "late.feature")) Sample.started) /\
  _sourceFile (perform_all cs (perform (Start (js "late.feature") true) Sample.started))
  = Some (js "late.feature") /\
  _sourceLines (perform_all cs (perform (Start (js "late.feature") true) Sample.started))
  = _sourceLines Sample.started.
Proof.
  intros cs.
  assert (H1 : same_file (_sourceFile Sample.started) (js "late.feature") = false)
    by (vm_compute; reflexivity).
  assert (H2 : Map_get (js "late.feature") (disk Sample.started) = None)
    by (vm_compute; reflexivity).
  assert (H3 : forallb (keeps_source (js "late.feature")) cs = true)
    by (vm_compute; reflexivity).
  exact (failed_load_sticks (js "late.feature") true Sample.started cs H1 H2 H3).
Defined.

(** ** What a call does to the counter, the files and the position *)

Lemma untouched_refl (w : World) : untouched w w.
Proof. repeat split. Qed.

Lemma untouched_trans (w1 w2 w3 : World) :
  untouched w1 w2 -> untouched w2 w3 -> untouched w1 w3.
Proof. unfold untouched. intros (A & B & C) (D & E & F). repeat split; congruence. Qed.

Lemma untouched_surroundings (w w' : World) :
  surroundings w' = surroundings w -> disk w' = disk w ->
  _breakpointId w' = _breakpointId w -> untouched w w'.
Proof.
  unfold surroundings, untouched, files, frontend.
  intros [= A B C D E F] G H. repeat split; congruence.
Qed.

Lemma untouched_run (stepEvent : option jsstring) (w : World) :
  untouched w (snd (run stepEvent w)).
Proof.
  destruct (run_frame stepEvent w) as (_ & R & F & E).
  unfold registry in R. injection R as _ R. split; [exact R|]. split; assumption.
Qed.

Lemma untouched_loadSource (file : jsstring) (w : World) :
  untouched w (snd (loadSource file w)).
Proof.
  destruct (loadSource_frame file w) as (S & D & _ & I & _).
  now apply untouched_surroundings.
Qed.

Lemma untouched_verifyBreakpoints (path : jsstring) (w : World) :
  untouched w (snd (verifyBreakpoints path w)).
Proof.
  destruct (verifyBreakpoints_frame path w) as (S & D & I & _).
  now apply untouched_surroundings.
Qed.

Lemma untouched_start (file : jsstring) (b : bool) (w : World) :
  untouched w (snd (start file b w)).
Proof.
  rewrite start_run. pose proof (untouched_loadSource file w) as U1.
  destruct (loadSource file w) as [[[]|e] w1]; cbn [snd] in U1; [|exact U1].
  apply untouched_trans with w1; [exact U1|].
  assert (U2 : untouched w1
                 (snd match _sourceFile w1 with
                      | Some f => verifyBreakpoints f (set_currentLine (-1) w1)
                      | None => (Return tt, set_currentLine (-1) w1)
                      end)).
  { destruct (_sourceFile w1) as [f|]; [|repeat split].
    apply untouched_trans with (set_currentLine (-1) w1); [repeat split|].
    exact (untouched_verifyBreakpoints f (set_currentLine (-1) w1)). }
  destruct (match _sourceFile w1 with
            | Some f => verifyBreakpoints f (set_currentLine (-1) w1)
            | None => (Return tt, set_currentLine (-1) w1)
            end) as [[[]|e] w3]; cbn [snd] in U2; [|exact U2].
  apply untouched_trans with w3; [exact U2|].
  destruct b; apply untouched_run.
Qed.

Lemma untouched_setCurrentLineInSource (d : Info.t) (w : World) :
  let w' := snd (setCurrentLineInSource d w) in
  _breakpointId w' = _breakpointId w /\ files w' = files w /\
  registry w' = registry w /\ source w' = source w /\ scheduled w' = scheduled w.
Proof.
  unfold setCurrentLineInSource, bind, get, modify.
  destruct (activeTextEditor w) as [f|]; [destruct (negb _)|]; repeat split.
Qed.

Lemma watchListener_run (w : World) :
  watchListener w = onStatusData (Map_get (getVanessaDebugInfoFile w) (disk w)) w.
Proof. reflexivity. Qed.

Lemma resolve_next_run (w : World) :
  resolve_next w
  = match pending w with
    | [] => (Return tt, w)
    | k :: rest => resolve k (set_pending rest w)
    end.
Proof. unfold resolve_next, bind, get, modify, ret. now destruct (pending w). Qed.

Lemma watchListener_files (w : World) :
  let w' := snd (watchListener w) in
  _breakpointId w' = _breakpointId w /\ files w' = files w.
Proof.
  rewrite watchListener_run. unfold onStatusData.
  destruct (truthy _); [|split; reflexivity].
  destruct (JSON_parse _) as [j|]; [|split; reflexivity].
  assert (H : forall d, _breakpointId (snd (setCurrentLineInSource d w))
                        = _breakpointId w /\
                        files (snd (setCurrentLineInSource d w)) = files w).
  { intros d. destruct (untouched_setCurrentLineInSource d w) as (A & B & _).
    split; assumption. }
  destruct (asDebugInfo j) as [d|]; [apply H|].
  destruct (setCurrentLineInSource_untyped_cases j w) as [[e ->]|[d ->]];
    [split; reflexivity|apply H].
Qed.

Lemma resolve_next_files (w : World) :
  let w' := snd (resolve_next w) in
  _breakpointId w' = _breakpointId w /\ files w' = files w.
Proof.
  rewrite resolve_next_run.
  destruct (pending w) as [|k rest]; [split; reflexivity|].
  destruct k as [d|d].
  - split; reflexivity.
  - rewrite resolve_shown_run.
    destruct (untouched_start (Info.file d) true
                (set_activeTextEditor (Some (Info.file d)) (set_pending rest w)))
      as (A & B & _).
    destruct (start _ _ _) as [[[]|e] w1]; cbn [snd] in *; split; assumption.
Qed.

Lemma saved_after (w w1 w' : World) :
  written w1 = written w -> disk w1 = disk w -> rootPath w1 = rootPath w ->
  saved w1 w' -> saved w w'.
Proof.
  intros A B C (data & D & E & F). exists data.
  unfold getBreakPointsFile in *. rewrite <- A, <- B, <- C. auto.
Qed.

Lemma setBreakPoint_effect (path : jsstring) (ln : Z) (w : World) :
  let w' := snd (setBreakPoint path ln w) in
  frontend w' = frontend w /\ position w' = position w /\
  (files w' = files w \/ saved w w').
Proof.
  rewrite setBreakPoint_run.
  destruct (verifyBreakpoints_frame path (pushed path ln w)) as (S & D & _ & C).
  destruct (verifyBreakpoints path (pushed path ln w)) as [[[]|e] w3];
    [destruct (can_write w3)|];
    cbn [snd] in *; unfold surroundings in S; injection S as S1 S2 S3 S4 S5 S6;
    cbn [pushed written rootPath activeTextEditor requests scheduled pending
         set_breakPoints set_breakpointId disk _currentLine] in *.
  - split; [|split].
    + unfold frontend. cbn [write_file activeTextEditor requests pending]. congruence.
    + unfold position. cbn [write_file _currentLine scheduled]. congruence.
    + right. apply saved_after with w3; auto.
      eexists. split; [reflexivity|]. split; reflexivity.
  - split; [|split].
    + unfold frontend. congruence.
    + unfold position. congruence.
    + left. unfold files. congruence.
  - split; [|split].
    + unfold frontend. congruence.
    + unfold position. congruence.
    + left. unfold files. congruence.
Qed.

Lemma clearBreakPoint_effect (path : jsstring) (ln : Z) (w : World) :
  let w' := snd (clearBreakPoint path ln w) in
  _breakpointId w' = _breakpointId w /\ frontend w' = frontend w /\
  position w' = position w /\ (files w' = files w \/ saved w w').
Proof.
  cbv zeta. rewrite clearBreakPoint_run.
  destruct (cleared_frame path ln w) as (Hw & Hd & Hr & _ & Hi & _ & Hp & Hf).
  destruct (can_write w); cbn [snd].
  - split; [exact Hi|]. split; [exact Hf|]. split; [exact Hp|]. right.
    eexists. cbn [written disk rootPath write_file].
    rewrite Hw, Hd, Hr. split; [reflexivity|]. split; reflexivity.
  - split; [exact Hi|]. split; [exact Hf|]. split; [exact Hp|]. left.
    unfold files. now rewrite Hw, Hd, Hr.
Qed.

Lemma clearBreakpoints_effect (path : jsstring) (w : World) :
  let w' := snd (clearBreakpoints path w) in
  _breakpointId w' = _breakpointId w /\ frontend w' = frontend w /\
  position w' = position w /\ source w' = source w /\
  (files w' = files w \/ saved w w').
Proof.
  cbv zeta. rewrite clearBreakpoints_run. destruct (can_write w); cbn [snd].
  - repeat (split; [reflexivity|]). right.
    eexists. split; [reflexivity|]. split; reflexivity.
  - repeat (split; [reflexivity|]). left. reflexivity.
Qed.

(** The counter after a call: one up after [setBreakPoint], as it was
    after any other call. *)
Lemma perform_counter_exact (c : call) (w : World) :
  _breakpointId (perform c w) = _breakpointId w + Z.of_nat (created [c]).
Proof.
  destruct c; cbn [created filter List.length Z.of_nat];
    rewrite ?Z.add_0_r;
    try (rewrite perform_setBreakPoint; apply setBreakPoint_new_id);
    try (rewrite perform_clearBreakPoint; apply clearBreakPoint_effect);
    unfold perform; cbn [call_body].
  - apply untouched_start.
  - apply (untouched_run None).
  - apply (untouched_run (Some event)).
  - apply clearBreakpoints_effect.
  - apply untouched_verifyBreakpoints.
  - apply watchListener_files.
  - apply resolve_next_files.
  - reflexivity.
  - reflexivity.
  - reflexivity.
Qed.

(** What a call does to the files. *)
Lemma perform_files (c : call) (w : World) :
  let w' := perform c w in
  match c with
  | FileChanged f d =>
      written w' = written w /\ rootPath w' = rootPath w /\
      disk w' = disk (set_disk f d w)
  | _ => files w' = files w \/ (registry_call c = true /\ saved w w')
  end.
Proof.
  destruct c; cbn zeta;
    try (rewrite perform_setBreakPoint;
         destruct (setBreakPoint_effect path ln w) as (_ & _ & [F|F]);
         [left; exact F|right; split; [reflexivity|exact F]]);
    try (rewrite perform_clearBreakPoint;
         destruct (clearBreakPoint_effect path ln w) as (_ & _ & _ & [F|F]);
         [left; exact F|right; split; [reflexivity|exact F]]);
    unfold perform; cbn [call_body].
  - left. apply untouched_start.
  - left. apply (untouched_run None).
  - left. apply (untouched_run (Some event)).
  - destruct (clearBreakpoints_effect path w) as (_ & _ & _ & _ & [F|F]);
      [left; exact F|right; split; [reflexivity|exact F]].
  - left. apply untouched_verifyBreakpoints.
  - left. apply watchListener_files.
  - left. apply resolve_next_files.
  - repeat split.
  - left. reflexivity.
  - left. reflexivity.
Qed.

(** ** Ids without gaps *)

Lemma created_cons (c : call) (r : list call) :
  created (c :: r) = (created [c] + created r)%nat.
Proof. unfold created. simpl. destruct c; reflexivity. Qed.

Lemma ids_from (b : Z) (m n : nat) :
  map (fun k => b + Z.of_nat m + Z.of_nat k) (seq 1 n)
  = map (fun k => b + Z.of_nat k) (seq (1 + m) n).
Proof.
  generalize 1%nat. induction n as [|n IH]; intros s; simpl; [reflexivity|].
  f_equal; [lia|]. apply (IH (S s)).
Qed.

(** X7. The ids given by the [setBreakPoint] calls of any sequence of
    calls are the successors of the counter the sequence starts from, in
    order and without a gap, whatever the other calls are and whether the
    calls return or throw; the counter ends that many above. *)
Theorem ids_consecutive (cs : list call) (w : World) :
  assigned_ids cs w
  = map (fun k => _breakpointId w + Z.of_nat k) (seq 1 (created cs)) /\
  _breakpointId (perform_all cs w) = _breakpointId w + Z.of_nat (created cs).
Proof.
  revert w; induction cs as [|c r IH]; intros w.
  - split; [reflexivity|]. unfold created. simpl. lia.
  - destruct (IH (perform c w)) as [A B]. rewrite created_cons.
    pose proof (perform_counter_exact c w) as Hc.
    cbn [perform_all]. split; [|rewrite B, Hc; lia].
    assert (R : assigned_ids r (perform c w)
                = map (fun k => _breakpointId w + Z.of_nat k)
                    (seq (1 + created [c]) (created r))).
    { rewrite A, Hc. apply ids_from. }
    destruct c; cbn [assigned_ids]; try exact R.
    rewrite R. change (created [SetBreakPoint path ln]) with 1%nat.
    cbn [Nat.add seq map]. f_equal.
    destruct (setBreakPoint_new_id path ln w) as [_ Hi]. rewrite Hi. lia.
Qed.

(** ** The files *)

Lemma Map_get_delete_other {V} (m : Map V) (k k' : jsstring) :
  k' <> k -> Map_get k' (Map_delete k m) = Map_get k' m.
Proof.
  intros Hne. induction m as [|[k0 v0] r IH]; simpl; [reflexivity|].
  destruct (jsstring_eqb_spec k k0) as [->|E]; simpl.
  - now rewrite (jsstring_eqb_neq Hne).
  - destruct (jsstring_eqb k' k0); auto.
Qed.

Lemma files_eq (w w' : World) :
  files w' = files w ->
  written w' = written w /\ disk w' = disk w /\ rootPath w' = rootPath w.
Proof. unfold files. intros [= A B C]. auto. Qed.

Lemma breakpoints_file_not_status_file (w : World) :
  getBreakPointsFile w <> getVanessaDebugInfoFile w.
Proof.
  unfold getBreakPointsFile, getVanessaDebugInfoFile. intros H.
  apply app_inv_head in H. apply app_inv_head in H. discriminate H.
Qed.

Lemma perform_rootPath (c : call) (w : World) :
  rootPath (perform c w) = rootPath w.
Proof.
  pose proof (perform_files c w) as F.
  destruct c; cbv zeta in F;
    try (destruct F as [F|[_ (data & _ & _ & F)]];
         [apply (files_eq _ _ F)|exact F]).
  apply F.
Qed.

Lemma perform_all_rootPath (cs : list call) (w : World) :
  rootPath (perform_all cs w) = rootPath w.
Proof.
  revert w; induction cs as [|c r IH]; intros w; [reflexivity|].
  cbn [perform_all]. rewrite IH. apply perform_rootPath.
Qed.

Lemma perform_breakPointsFile (c : call) (w : World) :
  getBreakPointsFile (perform c w) = getBreakPointsFile w.
Proof. unfold getBreakPointsFile. now rewrite perform_rootPath. Qed.

Lemma perform_written (c : call) (w : World) :
  written (perform c w) = written w \/
  (registry_call c = true /\
   exists data, written (perform c w) = written w ++ [(getBreakPointsFile w, data)]).
Proof.
  pose proof (perform_files c w) as F.
  destruct c; cbv zeta in F;
    try (destruct F as [F|[Hr (data & Hw & _)]];
         [left; apply (files_eq _ _ F)|right; split; [exact Hr|now exists data]]).
  left. apply F.
Qed.

Lemma perform_all_written (cs : list call) (w : World) :
  exists l, written (perform_all cs w) = written w ++ l /\
            Forall (fun e => fst e = getBreakPointsFile w) l /\
            (List.length l <= List.length (filter registry_call cs))%nat.
Proof.
  revert w; induction cs as [|c r IH]; intros w.
  - exists []. split; [now rewrite List.app_nil_r|]. split; [constructor|].
    simpl. lia.
  - cbn [perform_all]. destruct (IH (perform c w)) as (l & Hl & Hf & Hn).
    rewrite perform_breakPointsFile in Hf.
    destruct (perform_written c w) as [Hc|[Hr (data & Hc)]].
    + exists l. split; [now rewrite Hl, Hc|]. split; [exact Hf|].
      cbn [filter]. destruct (registry_call c); simpl; lia.
    + exists ((getBreakPointsFile w, data) :: l).
      split; [rewrite Hl, Hc, <- app_assoc; reflexivity|].
      split; [constructor; [reflexivity|exact Hf]|].
      cbn [filter]. rewrite Hr. simpl. lia.
Qed.

Lemma perform_all_disk (cs : list call) (w : World) (p : jsstring) :
  p <> getBreakPointsFile w -> left_alone p cs ->
  Map_get p (disk (perform_all cs w)) = Map_get p (disk w).
Proof.
  revert w; induction cs as [|c r IH]; intros w Hp Hcs; [reflexivity|].
  cbn [perform_all]. inversion Hcs as [|c' r' Hc Hr]; subst.
  rewrite IH; [|now rewrite perform_breakPointsFile|exact Hr].
  pose proof (perform_files c w) as F.
  destruct c; cbv zeta in F;
    try (destruct F as [F|[_ (data & _ & F & _)]];
         [now rewrite (proj1 (proj2 (files_eq _ _ F)))
         |rewrite F; now apply Map_get_set_other]).
  destruct F as (_ & _ & F). rewrite F. cbn [set_disk disk].
  destruct data; [now apply Map_get_set_other|now apply Map_get_delete_other].
Qed.

(** X8. The only file the runtime ever writes is the breakpoints file.
    After any sequence of calls, returning or throwing, the workspace root
    is as it was; every write made was a write of the breakpoints file, at
    most one for each registry call; and every other file that nothing
    outside has changed in between holds what it held -- the status file,
    which is a different file, and the feature files among them. *)
Theorem only_breakpoints_file_written (cs : list call) (w : World) :
  let w' := perform_all cs w in
  rootPath w' = rootPath w /\
  (exists l, written w' = written w ++ l /\
             Forall (fun e => fst e = getBreakPointsFile w) l /\
             (List.length l <= List.length (filter registry_call cs))%nat) /\
  (forall p, p <> getBreakPointsFile w -> left_alone p cs ->
             Map_get p (disk w') = Map_get p (disk w)) /\
  getBreakPointsFile w <> getVanessaDebugInfoFile w.
Proof.
  cbv zeta. split; [apply perform_all_rootPath|].
  split; [apply perform_all_written|].
  split; [intros p; apply perform_all_disk|].
  apply breakpoints_file_not_status_file.
Qed.

(** ** Breakpoint calls and the position *)

Lemma position_frontend_all (cs : list call) (w : World) :
  (forall c w0, In c cs ->
     position (perform c w0) = position w0 /\ frontend (perform c w0) = frontend w0) ->
  position (perform_all cs w) = position w /\
  frontend (perform_all cs w) = frontend w.
Proof.
  revert w; induction cs as [|c r IH]; intros w H; [auto|].
  cbn [perform_all]. destruct (H c w (or_introl eq_refl)) as [A B].
  destruct (IH (perform c w)) as [C D].
  - intros c0 w0 Hin. apply H. now right.
  - split; congruence.
Qed.

(** X9. Editing breakpoints does not move the program.  Any sequence of
    [setBreakPoint], [clearBreakPoint] and [clearBreakpoints] calls,
    returning or throwing, leaves the current line as it was, schedules no
    event, makes no request to the editor, and leaves the pending promises
    and the active editor alone. *)
Theorem registry_calls_keep_position (cs : list call) (w : World) :
  forallb registry_call cs = true ->
  let w' := perform_all cs w in
  _currentLine w' = _currentLine w /\ scheduled w' = scheduled w /\
  requests w' = requests w /\ pending w' = pending w /\
  activeTextEditor w' = activeTextEditor w.
Proof.
  intros Hcs. cbv zeta.
  destruct (position_frontend_all cs w) as [P F].
  - intros c w0 Hin. rewrite forallb_forall in Hcs. specialize (Hcs c Hin).
    destruct c; try discriminate.
    + rewrite perform_setBreakPoint.
      destruct (setBreakPoint_effect path ln w0) as (A & B & _). auto.
    + rewrite perform_clearBreakPoint.
      destruct (clearBreakPoint_effect path ln w0) as (_ & A & B & _). auto.
    + destruct (clearBreakpoints_effect path w0) as (_ & A & B & _). auto.
  - unfold position in P. unfold frontend in F.
    injection P as P1 P2. injection F as F1 F2 F3. auto.
Qed.

Lemma registry_calls_keep_position_witness :
  let cs := [SetBreakPoint Sample.path 2; SetBreakPoint (js "missing.feature") 0;
             ClearBreakPoint Sample.path 4; ClearBreakpoints Sample.other] in
  let w' := perform_all cs Sample.started in
  _currentLine w' = _currentLine Sample.started /\
  scheduled w' = scheduled Sample.started /\
  requests w' = requests Sample.started /\ pending w' = pending Sample.started /\
  activeTextEditor w' = activeTextEditor Sample.started.
Proof.
  intros cs.
  assert (H : forallb registry_call cs = true) by (vm_compute; reflexivity).
  exact (registry_calls_keep_position cs Sample.started H).
Defined.

(** X10. A breakpoint set in another file replaces the loaded source.
    When [setBreakPoint(path, ln)] names a readable file that is not the
    loaded one, then -- whether it returns or throws -- the runtime has
    loaded [path] and its lines, while the current line is the one it had
    in the file loaded before: the stack frame reported next names [path]
    at that line. *)
Theorem setBreakPoint_switches_source (w : World) (path text : jsstring) (ln : Z) :
  same_file (_sourceFile w) path = false ->
  Map_get path (disk w) = Some text ->
  let w' := perform (SetBreakPoint path ln) w in
  _sourceFile w' = Some path /\ _sourceLines w' = Some (split LF text) /\
  _currentLine w' = _currentLine w /\
  stack 0 0 w'
  = ([ {| Frame.index := 0; Frame.name := print_Z (_currentLine w + 1);
          Frame.file := Some path; Frame.line := _currentLine w |} ], 1).
Proof.
  intros Hs Hd. cbv zeta. rewrite perform_setBreakPoint.
  assert (H : let w' := snd (setBreakPoint path ln w) in
              _sourceFile w' = Some path /\ _sourceLines w' = Some (split LF text) /\
              _currentLine w' = _currentLine w).
  { cbv zeta. rewrite setBreakPoint_run.
    set (w0 := pushed path ln w).
    assert (Hget : exists bps, Map_get path (_breakPoints w0) = Some bps).
    { eexists. unfold w0, pushed. cbn [_breakPoints set_breakPoints].
      apply Map_get_set_same. }
    destruct Hget as (bps & Hget).
    assert (Hload : loaded_lines path w0 = Some (split LF text)).
    { unfold loaded_lines, w0, pushed.
      cbn [_sourceFile set_breakPoints set_breakpointId disk].
      rewrite Hs, Hd. reflexivity. }
    destruct (loadSource_loaded path w0 _ Hload)
      as (w1 & E1 & Hl1 & Hf1 & _ & _ & Hc1 & _).
    rewrite (verifyBreakpoints_run path w0 bps Hget), E1.
    destruct (snd (forEach_verify (_sourceLines w1) bps)) as [x|];
      [|destruct (can_write _)];
      cbn [snd write_file set_breakPoints _sourceFile _sourceLines _currentLine];
      rewrite Hl1, Hf1, Hc1; auto. }
  cbv zeta in H. destruct H as (A & B & C).
  split; [exact A|]. split; [exact B|]. split; [exact C|].
  unfold stack. now rewrite A, C.
Qed.

Lemma setBreakPoint_switches_source_witness :
  let w' := perform (SetBreakPoint Sample.other (-1)) Sample.started in
  _sourceFile w' = Some Sample.other /\
  _sourceLines w' = Some (split LF (js "Feature: g")) /\
  _currentLine w' = _currentLine Sample.started /\
  stack 0 0 w'
  = ([ {| Frame.index := 0;
          Frame.name := print_Z (_currentLine Sample.started + 1);
          Frame.file := Some Sample.other;
          Frame.line := _currentLine Sample.started |} ], 1).
Proof.
  assert (H1 : same_file (_sourceFile Sample.started) Sample.other = false)
    by (vm_compute; reflexivity).
  assert (H2 : Map_get Sample.other (disk Sample.started) = Some (js "Feature: g"))
    by (vm_compute; reflexivity).
  exact (setBreakPoint_switches_source Sample.started Sample.other
           (js "Feature: g") (-1) H1 H2).
Defined.

(** ** A status report and the step it asks for *)

Lemma truthy_stringify (v : json) : truthy (Some (JSON_stringify v)) = true.
Proof.
  pose proof (stringify_starts v []) as H. rewrite List.app_nil_r in H.
  destruct (JSON_stringify v); [contradiction|reflexivity].
Qed.

Lemma asDebugInfo_status_json (file : jsstring) (ln : Z) (status : jsstring) :
  asDebugInfo (status_json file ln status)
  = Some {| Info.file := file; Info.line := ln; Info.status := status;
            Info.done := None |}.
Proof.
  unfold asDebugInfo, status_json.
  set (ms := [(js "file", JStr file); (js "line", JNum ln 0);
              (js "status", JStr status)]).
  assert (A : json_member (js "file") ms = Some (JStr file)) by reflexivity.
  assert (B : json_member (js "line") ms = Some (JNum ln 0)) by reflexivity.
  assert (C : json_member (js "status") ms = Some (JStr status)) by reflexivity.
  assert (D : json_member (js "done") ms = None) by reflexivity.
  now rewrite A, B, C, D, json_integer_plain.
Qed.

Lemma watchListener_record (w : World) (file status : jsstring) (ln : Z) :
  Map_get (getVanessaDebugInfoFile w) (disk w)
  = Some (JSON_stringify (status_json file ln status)) ->
  watchListener w
  = setCurrentLineInSource
      {| Info.file := file; Info.line := ln; Info.status := status;
         Info.done := None |} w.
Proof.
  intros H. rewrite watchListener_run, H. unfold onStatusData.
  rewrite truthy_stringify. cbn [template].
  rewrite JSON_parse_stringify by reflexivity.
  now rewrite asDebugInfo_status_json.
Qed.

Lemma setCurrentLineInSource_direct (d : Info.t) (w : World) :
  activeTextEditor w = None \/ activeTextEditor w = Some (Info.file d) ->
  setCurrentLineInSource d w
  = (Return tt, add_request (ExecuteCommand stepOver)
                  (set_currentLine (Info.line d - 1) w)).
Proof.
  intros H. unfold setCurrentLineInSource, bind, get, modify.
  destruct H as [-> | ->]; [reflexivity|]. now rewrite jsstring_eqb_refl.
Qed.

Lemma step_without_name (w : World) (lines : list jsstring) :
  _sourceLines w = Some lines ->
  step [] w = (Return tt, add_scheduled (js "end") w).
Proof.
  intros Hl. unfold step, run. run_monad. rewrite Hl.
  apply run_loop_empty_event.
Qed.

(** X11. A status report and the step it asks for.  When the status file
    holds a text that parses to a record of the asserted type, whose line
    is an integer that a JavaScript number holds exactly, and the editor
    shows the record's file (or no editor is active), the listener
    returns, having asked for one step over and set the current line to
    [line - 1]; the [step] that answers the request then stops on index
    [line] of the loaded source with its event -- the line after the
    reported one, counting from one -- and when the loaded source has no
    such line, or the event has no name, it schedules [end] instead and
    stays on [line - 1]. *)
Theorem status_report_then_step (w : World) (text : jsstring) (j : json)
    (d : Info.t) (lines : list jsstring) (event : jsstring) :
  Map_get (getVanessaDebugInfoFile w) (disk w) = Some text ->
  text <> [] ->
  JSON_parse text = Some j ->
  asDebugInfo j = Some d ->
  - 2 ^ 53 < Info.line d <= 2 ^ 53 ->
  activeTextEditor w = None \/ activeTextEditor w = Some (Info.file d) ->
  _sourceLines w = Some lines ->
  let w1 := perform StatusChanged w in
  let w2 := perform (Step event) w1 in
  returned StatusChanged w = true /\
  requests w1 = requests w ++ [ExecuteCommand stepOver] /\
  _currentLine w1 = Info.line d - 1 /\ scheduled w1 = scheduled w /\
  returned (Step event) w1 = true /\
  requests w2 = requests w1 /\
  (event <> [] -> Info.line d < array_length lines ->
   _currentLine w2 = Info.line d /\ scheduled w2 = scheduled w ++ [event]) /\
  (event = [] \/ array_length lines <= Info.line d ->
   _currentLine w2 = Info.line d - 1 /\ scheduled w2 = scheduled w ++ [js "end"]).
Proof.
  intros Hfile Hne Hparse Hd _ Hed Hl.
  assert (E1 : watchListener w
               = (Return tt, add_request (ExecuteCommand stepOver)
                               (set_currentLine (Info.line d - 1) w))).
  { rewrite watchListener_run, Hfile. unfold onStatusData.
    destruct text as [|c text]; [congruence|]. cbn [truthy template].
    rewrite Hparse, Hd. exact (setCurrentLineInSource_direct d w Hed). }
  set (v := add_request (ExecuteCommand stepOver)
              (set_currentLine (Info.line d - 1) w)) in E1.
  assert (P1 : perform StatusChanged w = v)
    by (unfold perform; cbn [call_body]; now rewrite E1).
  assert (Hlv : _sourceLines v = Some lines) by exact Hl.
  cbv zeta. rewrite P1.
  split; [unfold returned; cbn [call_body]; now rewrite E1|].
  split; [reflexivity|]. split; [reflexivity|]. split; [reflexivity|].
  rewrite perform_step. unfold returned. cbn [call_body].
  destruct event as [|c event].
  - rewrite (step_without_name v lines Hlv).
    split; [reflexivity|]. split; [reflexivity|]. split.
    + intros H. congruence.
    + intros _. split; reflexivity.
  - destruct (Z.lt_ge_cases (Info.line d) (array_length lines)) as [Hlt|Hge].
    + assert (E2 : step (c :: event) v
                   = (Return tt, set_currentLine (_currentLine v + 1)
                                   (add_scheduled (c :: event) v))).
      { apply (step_next v lines c event Hlv). subst v. simpl. lia. }
      rewrite E2.
      split; [reflexivity|]. split; [reflexivity|]. split.
      * intros _ _. subst v. simpl. split; [lia|reflexivity].
      * intros [H|H]; [discriminate|lia].
    + assert (E2 : step (c :: event) v = (Return tt, add_scheduled (js "end") v)).
      { apply (step_end v lines (c :: event) Hlv). subst v. simpl. lia. }
      rewrite E2.
      split; [reflexivity|]. split; [reflexivity|]. split.
      * intros _ H. lia.
      * intros _. subst v. simpl. split; reflexivity.
Qed.

Lemma status_report_then_step_witness :
  let w := SampleStatus.laid_out in
  let w1 := perform StatusChanged w in
  let w2 := perform (Step (js "stopOnStep")) w1 in
  returned StatusChanged w = true /\
  requests w1 = requests w ++ [ExecuteCommand stepOver] /\
  _currentLine w1 = 2 - 1 /\ scheduled w1 = scheduled w /\
  returned (Step (js "stopOnStep")) w1 = true /\
  requests w2 = requests w1 /\
  (js "stopOnStep" <> [] -> 2 < array_length Sample.lines ->
   _currentLine w2 = 2 /\ scheduled w2 = scheduled w ++ [js "stopOnStep"]) /\
  (js "stopOnStep" = [] \/ array_length Sample.lines <= 2 ->
   _currentLine w2 = 2 - 1 /\ scheduled w2 = scheduled w ++ [js "end"]).
Proof.
  intros w.
  set (d := {| Info.file := Sample.path; Info.line := 2; Info.status := js "run";
               Info.done := None |}).
  set (j := JObj [(js "status", JStr (js "run")); (js "line", JNum 2 0);
                  (js "file", JStr Sample.path)]).
  assert (H1 : Map_get (getVanessaDebugInfoFile w) (disk w)
               = Some SampleStatus.spaced) by (vm_compute; reflexivity).
  assert (H2 : SampleStatus.spaced <> []) by (vm_compute; discriminate).
  assert (H3 : JSON_parse SampleStatus.spaced = Some j) by (vm_compute; reflexivity).
  assert (H4 : asDebugInfo j = Some d) by (vm_compute; reflexivity).
  assert (H5 : - 2 ^ 53 < Info.line d <= 2 ^ 53) by (split; [reflexivity|discriminate]).
  assert (H6 : activeTextEditor w = None \/ activeTextEditor w = Some (Info.file d))
    by (right; vm_compute; reflexivity).
  assert (H7 : _sourceLines w = Some Sample.lines) by (vm_compute; reflexivity).
  exact (status_report_then_step w SampleStatus.spaced j d Sample.lines
           (js "stopOnStep") H1 H2 H3 H4 H5 H6 H7).
Defined.

(** ** The keys of the registry *)

Section MapKeys.
Context {V : Type}.
Implicit Types (m : Map V) (k : jsstring) (v : V).

Lemma Map_get_None_keys m k : Map_get k m = None <-> ~ In k (map fst m).
Proof.
  induction m as [|[k' v'] r IH]; simpl; [tauto|].
  destruct (jsstring_eqb_spec k k') as [->|E].
  - split; [discriminate|]. intros H. exfalso. apply H. now left.
  - rewrite IH. split; [intros H [H1|H1]; [congruence|auto]|tauto].
Qed.

Lemma Map_set_keys_eq m k v :
  map fst (Map_set k v m)
  = match Map_get k m with
    | Some _ => map fst m
    | None => map fst m ++ [k]
    end.
Proof.
  induction m as [|[k' v'] r IH]; simpl; [reflexivity|].
  destruct (jsstring_eqb k k'); simpl; [reflexivity|].
  rewrite IH. now destruct (Map_get k r).
Qed.

Lemma Map_set_keys m k v :
  NoDup (map fst m) -> NoDup (map fst (Map_set k v m)).
Proof.
  intros H. rewrite Map_set_keys_eq. destruct (Map_get k m) eqn:E; [exact H|].
  apply (Permutation_NoDup (Permutation_cons_append (map fst m) k)).
  constructor; [now apply Map_get_None_keys|exact H].
Qed.

Lemma In_keys_delete m k x :
  In x (map fst (Map_delete k m)) -> In x (map fst m).
Proof.
  induction m as [|[k' v'] r IH]; simpl; [auto|].
  destruct (jsstring_eqb k k'); simpl; [auto|]. intros [H|H]; auto.
Qed.

Lemma Map_delete_keys m k :
  NoDup (map fst m) ->
  NoDup (map fst (Map_delete k m)) /\ Map_get k (Map_delete k m) = None.
Proof.
  induction m as [|[k' v'] r IH]; simpl; [auto|].
  intros H. inversion H as [|x l Hx Hl]; subst.
  destruct (jsstring_eqb_spec k k') as [->|E].
  - split; [exact Hl|]. now apply Map_get_None_keys.
  - destruct (IH Hl) as [A B]. simpl. rewrite (jsstring_eqb_neq E). split; [|exact B].
    constructor; [|exact A]. intros Hin. apply Hx. eapply In_keys_delete, Hin.
Qed.
End MapKeys.

Lemma keys_kept_refl (w : World) : keys_kept w w.
Proof. intros H. exact H. Qed.

Lemma keys_kept_trans (w1 w2 w3 : World) :
  keys_kept w1 w2 -> keys_kept w2 w3 -> keys_kept w1 w3.
Proof. unfold keys_kept. auto. Qed.

Lemma keys_kept_same (w w' : World) :
  _breakPoints w' = _breakPoints w -> keys_kept w w'.
Proof. unfold keys_kept, keys_ok. now intros ->. Qed.

Lemma keys_kept_registry (w w' : World) :
  registry w' = registry w -> keys_kept w w'.
Proof. unfold registry. intros [= A _]. now apply keys_kept_same. Qed.

Lemma keys_kept_loadSource (file : jsstring) (w : World) :
  keys_kept w (snd (loadSource file w)).
Proof. apply keys_kept_same. apply loadSource_frame. Qed.

Lemma keys_kept_verifyBreakpoints (path : jsstring) (w : World) :
  keys_kept w (snd (verifyBreakpoints path w)).
Proof.
  destruct (Map_get path (_breakPoints w)) as [bps|] eqn:Hget.
  - rewrite (verifyBreakpoints_run path w bps Hget).
    pose proof (keys_kept_loadSource path w) as K.
    destruct (loadSource path w) as [[[]|e] w1]; cbn [snd] in *; [|exact K].
    intros H. unfold keys_ok. cbn [_breakPoints set_breakPoints].
    apply Map_set_keys. exact (K H).
  - rewrite (verifyBreakpoints_absent path w Hget). apply keys_kept_refl.
Qed.

Lemma keys_kept_run (stepEvent : option jsstring) (w : World) :
  keys_kept w (snd (run stepEvent w)).
Proof. apply keys_kept_registry. apply run_frame. Qed.

Lemma keys_kept_start (file : jsstring) (b : bool) (w : World) :
  keys_kept w (snd (start file b w)).
Proof.
  rewrite start_run. pose proof (keys_kept_loadSource file w) as U1.
  destruct (loadSource file w) as [[[]|e] w1]; cbn [snd] in U1; [|exact U1].
  apply keys_kept_trans with w1; [exact U1|].
  assert (U2 : keys_kept w1
                 (snd match _sourceFile w1 with
                      | Some f => verifyBreakpoints f (set_currentLine (-1) w1)
                      | None => (Return tt, set_currentLine (-1) w1)
                      end)).
  { destruct (_sourceFile w1) as [f|]; [|now apply keys_kept_same].
    apply keys_kept_trans with (set_currentLine (-1) w1);
      [now apply keys_kept_same|].
    exact (keys_kept_verifyBreakpoints f (set_currentLine (-1) w1)). }
  destruct (match _sourceFile w1 with
            | Some f => verifyBreakpoints f (set_currentLine (-1) w1)
            | None => (Return tt, set_currentLine (-1) w1)
            end) as [[[]|e] w3]; cbn [snd] in U2; [|exact U2].
  apply keys_kept_trans with w3; [exact U2|].
  destruct b; apply keys_kept_run.
Qed.

Lemma keys_kept_setBreakPoint (path : jsstring) (ln : Z) (w : World) :
  keys_kept w (snd (setBreakPoint path ln w)).
Proof.
  rewrite setBreakPoint_run.
  apply keys_kept_trans with (pushed path ln w).
  { intros H. unfold keys_ok, pushed. cbn [_breakPoints set_breakPoints].
    now apply Map_set_keys. }
  pose proof (keys_kept_verifyBreakpoints path (pushed path ln w)) as K.
  destruct (verifyBreakpoints path (pushed path ln w)) as [[[]|e] w3];
    [destruct (can_write w3)|]; cbn [snd] in *; exact K.
Qed.

Lemma keys_kept_clearBreakPoint (path : jsstring) (ln : Z) (w : World) :
  keys_kept w (snd (clearBreakPoint path ln w)).
Proof.
  apply keys_kept_trans with (snd (cleared path ln w)).
  - unfold cleared.
    destruct (Map_get path (_breakPoints w)) as [bps|]; [destruct (0 <=? _)|];
      cbn [snd]; try apply keys_kept_refl.
    intros H. unfold keys_ok. cbn [_breakPoints set_breakPoints].
    now apply Map_set_keys.
  - rewrite clearBreakPoint_run. destruct (can_write w); cbn [snd];
      now apply keys_kept_same.
Qed.

Lemma keys_kept_perform (c : call) (w : World) : keys_kept w (perform c w).
Proof.
  destruct c;
    try (rewrite perform_setBreakPoint; apply keys_kept_setBreakPoint);
    try (rewrite perform_clearBreakPoint; apply keys_kept_clearBreakPoint);
    unfold perform; cbn [call_body].
  - apply keys_kept_start.
  - apply (keys_kept_run None).
  - apply (keys_kept_run (Some event)).
  - rewrite clearBreakpoints_run. intros H. unfold keys_ok.
    destruct (can_write w); cbn [snd _breakPoints write_file set_breakPoints];
      now apply Map_delete_keys.
  - apply keys_kept_verifyBreakpoints.
  - rewrite watchListener_run. unfold onStatusData.
    destruct (truthy _); [|apply keys_kept_refl].
    destruct (JSON_parse _) as [j|]; [|apply keys_kept_refl].
    assert (H : forall d, keys_kept w (snd (setCurrentLineInSource d w))).
    { intros d. apply keys_kept_registry. apply untouched_setCurrentLineInSource. }
    destruct (asDebugInfo j) as [d|]; [apply H|].
    destruct (setCurrentLineInSource_untyped_cases j w) as [[e ->]|[d ->]];
      [apply keys_kept_refl|apply H].
  - rewrite resolve_next_run.
    destruct (pending w) as [|[d|d] rest]; [apply keys_kept_refl| |].
    + now apply keys_kept_same.
    + rewrite resolve_shown_run.
      pose proof (keys_kept_start (Info.file d) true
                    (set_activeTextEditor (Some (Info.file d)) (set_pending rest w)))
        as K.
      destruct (start _ _ _) as [[[]|e] w1]; cbn [snd] in *; exact K.
  - now apply keys_kept_same.
  - now apply keys_kept_same.
  - now apply keys_kept_same.
Qed.

Lemma reachable_keys_ok (cs : list call) (files : Map jsstring)
    (root editor : option jsstring) :
  keys_ok (perform_all cs (initial files root editor)).
Proof.
  assert (H : forall w, keys_ok w -> keys_ok (perform_all cs w)).
  { induction cs as [|c r IH]; intros w Hw; [exact Hw|].
    cbn [perform_all]. apply IH. now apply keys_kept_perform. }
  apply H. constructor.
Qed.

(** X12. [clearBreakpoints(path)] forgets the file.  After any sequence of
    calls on a fresh runtime, the registry after the call has no entry for
    [path], the entries of the other files are as they were, and the
    counter is not reset -- whether the call returns or throws.  It
    returns exactly when the breakpoints file can be written: the file has
    then been written once and read back gives the registry, without a
    record for [path], and a [clearBreakPoint] on that file returns
    [undefined].  When the file cannot be written the call throws after
    the entry was deleted, and no file has changed. *)
Theorem clearBreakpoints_forgets (cs : list call) (files : Map jsstring)
    (root editor : option jsstring) (path : jsstring) :
  let w := perform_all cs (initial files root editor) in
  let w' := perform (ClearBreakpoints path) w in
  Map_get path (_breakPoints w') = None /\
  (forall p, p <> path -> Map_get p (_breakPoints w') = Map_get p (_breakPoints w)) /\
  _breakpointId w' = _breakpointId w /\
  returned (ClearBreakpoints path) w = can_write w /\
  (can_write w = true ->
   persisted w w' /\
   (forall m, reload (JSON_stringify (breakPointsInfo (_breakPoints w'))) = Some m ->
              ~ In path (map fst m)) /\
   (forall ln, fst (clearBreakPoint path ln w') = Return None)) /\
  (can_write w = false ->
   written w' = written w /\ disk w' = disk w /\
   forall ln, fst (clearBreakPoint path ln w') = Throw IOError).
Proof.
  intros w w'.
  pose proof (reachable_keys_ok cs files root editor) as K. fold w in K.
  destruct (Map_delete_keys (_breakPoints w) path K) as [_ Hnone].
  assert (Hb : _breakPoints w' = Map_delete path (_breakPoints w)).
  { unfold w', perform. cbn [call_body]. rewrite clearBreakpoints_run.
    now destruct (can_write w). }
  assert (Hc : can_write w' = can_write w).
  { unfold w', perform. cbn [call_body]. rewrite clearBreakpoints_run.
    destruct (can_write w) eqn:Q; cbn [snd]; exact Q. }
  assert (Hclear : forall ln, fst (cleared path ln w') = None).
  { intros ln. unfold cleared. now rewrite Hb, Hnone. }
  split; [now rewrite Hb|].
  split; [intros p Hp; rewrite Hb; now apply Map_get_delete_other|].
  split.
  { unfold w', perform. cbn [call_body]. rewrite clearBreakpoints_run.
    now destruct (can_write w). }
  split.
  { unfold returned. cbn [call_body]. rewrite clearBreakpoints_run.
    now destruct (can_write w). }
  split.
  - intros Hcan.
    assert (E : w' = write_file (getBreakPointsFile w)
                       (JSON_stringify
                          (breakPointsInfo (Map_delete path (_breakPoints w))))
                       (set_breakPoints (Map_delete path (_breakPoints w)) w)).
    { unfold w', perform. cbn [call_body].
      now rewrite clearBreakpoints_run, Hcan. }
    assert (P : persisted w w').
    { rewrite E.
      exact (persisted_write w (set_breakPoints (Map_delete path (_breakPoints w)) w)
               eq_refl). }
    split; [exact P|]. split.
    + intros m Hm. destruct P as (_ & _ & _ & P). destruct (P m Hm) as [Hk _].
      rewrite Hk, Hb. now apply Map_get_None_keys.
    + intros ln. rewrite clearBreakPoint_run, Hc, Hcan. cbn [fst].
      now rewrite Hclear.
  - intros Hcan.
    assert (E : w' = set_breakPoints (Map_delete path (_breakPoints w)) w).
    { unfold w', perform. cbn [call_body].
      now rewrite clearBreakpoints_run, Hcan. }
    split; [now rewrite E|]. split; [now rewrite E|].
    intros ln. now rewrite clearBreakPoint_run, Hc, Hcan.
Qed.

(** ** Setting a breakpoint and clearing it again *)

Lemma Map_set_set {V} (m : Map V) (k : jsstring) (v v' : V) :
  Map_set k v (Map_set k v' m) = Map_set k v m.
Proof.
  induction m as [|[k0 v0] r IH]; simpl.
  - now rewrite jsstring_eqb_refl.
  - destruct (jsstring_eqb k k0) eqn:E; simpl; rewrite E; [reflexivity|].
    now rewrite IH.
Qed.

Lemma Map_set_same_value {V} (m : Map V) (k : jsstring) (v : V) :
  Map_get k m = Some v -> Map_set k v m = m.
Proof.
  induction m as [|[k0 v0] r IH]; simpl; [discriminate|].
  destruct (jsstring_eqb k k0).
  - now intros [= ->].
  - intros H. now rewrite (IH H).
Qed.

Lemma forEach_verify_app (sourceLines : option (list jsstring))
    (a a' b : list VanessaBreakpoint) :
  forEach_verify sourceLines a = (a', None) ->
  forEach_verify sourceLines (a ++ b)
  = (a' ++ fst (forEach_verify sourceLines b), snd (forEach_verify sourceLines b)).
Proof.
  revert a'; induction a as [|x r IH]; intros a'; simpl.
  - intros [= <-]. now destruct (forEach_verify sourceLines b).
  - destruct (verifyBreakpoint sourceLines x) as [x'|e]; [|discriminate].
    destruct (forEach_verify sourceLines r) as [r' e] eqn:E.
    intros [= <- ->]. now rewrite (IH r' eq_refl).
Qed.

Lemma clearBreakPoint_last (path : jsstring) (w : World)
    (pre : list VanessaBreakpoint) (bp : VanessaBreakpoint) :
  Map_get path (_breakPoints w) = Some (pre ++ [bp]) ->
  Forall (fun b => line b <> line bp) pre ->
  can_write w = true ->
  clearBreakPoint path (line bp) w
  = (Return (Some bp),
     write_file (getBreakPointsFile w)
       (JSON_stringify (breakPointsInfo (Map_set path pre (_breakPoints w))))
       (set_breakPoints (Map_set path pre (_breakPoints w)) w)).
Proof.
  intros Hget Hpre Hcan.
  assert (E : findIndex (fun b => line b =? line bp) (pre ++ [bp])
              = Z.of_nat (List.length pre)).
  { apply findIndex_first; [|apply Z.eqb_refl].
    eapply Forall_impl; [|exact Hpre]. intros b Hb. now apply Z.eqb_neq. }
  assert (C : cleared path (line bp) w
              = (Some bp, set_breakPoints (Map_set path pre (_breakPoints w)) w)).
  { unfold cleared. rewrite Hget, E.
    replace (0 <=? Z.of_nat (List.length pre)) with true
      by (symmetry; apply Z.leb_le; lia).
    rewrite Nat2Z.id, array_get_middle, splice1_middle, List.app_nil_r.
    reflexivity. }
  rewrite clearBreakPoint_run, Hcan, C. reflexivity.
Qed.

(** X13. Setting a breakpoint and clearing it again.  On a file whose
    source loads and whose breakpoints (if it has any) are settled, the
    breakpoints file being writable, [setBreakPoint(path, ln)] with a
    non-negative line returns a breakpoint [bp] put after the file's
    breakpoints, which it leaves as they are; when none of them stands on
    the line of [bp], [clearBreakPoint(path, bp.line)] then returns [bp]
    itself and the file's sequence is as it was before the two calls: the
    registry is as it was when the file had an entry, and has got an empty
    entry for the file when it had none.  The counter stays one up, and
    each call has written the breakpoints file, the second with the
    registry as it then is. *)
Theorem setBreakPoint_then_clear (w : World) (path : jsstring) (ln : Z)
    (lines : list jsstring) :
  let old := match Map_get path (_breakPoints w) with
             | Some a => a
             | None => []
             end in
  loaded_lines path w = Some lines ->
  0 <= ln ->
  settled (Some lines) old ->
  can_write w = true ->
  exists bp w1,
    setBreakPoint path ln w = (Return bp, w1) /\
    Map_get path (_breakPoints w1) = Some (old ++ [bp]) /\
    (Forall (fun b => line b <> line bp) old ->
     exists w2,
       clearBreakPoint path (line bp) w1 = (Return (Some bp), w2) /\
       _breakPoints w2 = Map_set path old (_breakPoints w) /\
       (Map_get path (_breakPoints w) = Some old ->
        _breakPoints w2 = _breakPoints w) /\
       _breakpointId w2 = _breakpointId w + 1 /\
       exists first,
         written w2
         = written w ++ [(getBreakPointsFile w, first);
                         (getBreakPointsFile w,
                          JSON_stringify (breakPointsInfo (_breakPoints w2)))]).
Proof.
  intros old Hload Hln Hset Hcan.
  set (bp0 := {| id := _breakpointId w + 1; line := ln; verified := false |}).
  assert (Hget0 : Map_get path (_breakPoints (pushed path ln w)) = Some (old ++ [bp0])).
  { unfold pushed. cbn [_breakPoints set_breakPoints]. apply Map_get_set_same. }
  destruct (loadSource_loaded path (pushed path ln w) lines Hload)
    as (w1 & E1 & Hl1 & Hf1 & Hb1 & Hi1 & Hc1 & Hs1 & Hr1 & Hw1 & Hd1 & Hroot1 & _).
  assert (Hcan1 : can_write w1 = true).
  { pose proof (loadSource_access path (pushed path ln w)) as [_ A].
    rewrite E1 in A. cbn [snd] in A. rewrite A. exact Hcan. }
  destruct (verifyBreakpoint_once lines bp0 Hln) as (bp & Ebp & _).
  assert (E2 : forEach_verify (Some lines) (old ++ [bp0]) = (old ++ [bp], None)).
  { rewrite (forEach_verify_app (Some lines) old old [bp0] Hset).
    cbn [forEach_verify]. rewrite Ebp. reflexivity. }
  assert (Hm : Map_set path (old ++ [bp]) (_breakPoints w1)
               = Map_set path (old ++ [bp]) (_breakPoints w)).
  { rewrite Hb1. unfold pushed. cbn [_breakPoints set_breakPoints].
    apply Map_set_set. }
  assert (Hroot : getBreakPointsFile w1 = getBreakPointsFile w).
  { unfold getBreakPointsFile. now rewrite Hroot1. }
  set (v := write_file (getBreakPointsFile w1)
              (JSON_stringify
                 (breakPointsInfo (Map_set path (old ++ [bp]) (_breakPoints w1))))
              (set_breakPoints (Map_set path (old ++ [bp]) (_breakPoints w1)) w1)).
  exists bp, v. split; [|split].
  - rewrite setBreakPoint_run.
    rewrite (verifyBreakpoints_run path _ _ Hget0), E1, Hl1, E2.
    cbn [fst snd _breakPoints set_breakPoints].
    change (can_write (set_breakPoints _ w1)) with (can_write w1).
    rewrite Hcan1, Map_get_set_same, last_last. reflexivity.
  - unfold v. cbn [_breakPoints write_file set_breakPoints].
    apply Map_get_set_same.
  - intros Hfree.
    assert (Hgv : Map_get path (_breakPoints v) = Some (old ++ [bp])).
    { unfold v. cbn [_breakPoints write_file set_breakPoints].
      apply Map_get_set_same. }
    assert (Hcanv : can_write v = true) by exact Hcan1.
    eexists. split; [exact (clearBreakPoint_last path v old bp Hgv Hfree Hcanv)|].
    assert (Hback : Map_set path old (_breakPoints v)
                    = Map_set path old (_breakPoints w)).
    { unfold v. cbn [_breakPoints write_file set_breakPoints].
      rewrite Hm. apply Map_set_set. }
    cbn [_breakPoints _breakpointId written write_file set_breakPoints].
    rewrite Hback. split; [reflexivity|]. split; [|split].
    + intros Hentry. now apply Map_set_same_value.
    + unfold v. cbn [_breakpointId write_file set_breakPoints]. rewrite Hi1.
      reflexivity.
    + assert (Hv : written v
                   = written w
                     ++ [(getBreakPointsFile w,
                          JSON_stringify
                            (breakPointsInfo
                               (Map_set path (old ++ [bp]) (_breakPoints w1))))]).
      { unfold v. cbn [written write_file set_breakPoints].
        rewrite Hw1, Hroot. reflexivity. }
      assert (Hrv : getBreakPointsFile v = getBreakPointsFile w) by exact Hroot.
      eexists. rewrite Hv, Hrv, <- app_assoc. reflexivity.
Qed.

Lemma setBreakPoint_then_clear_witness :
  let w := Sample.fresh in
  exists bp w1,
    setBreakPoint Sample.path 4 w = (Return bp, w1) /\
    Map_get Sample.path (_breakPoints w1) = Some ([] ++ [bp]) /\
    (Forall (fun b => line b <> line bp) [] ->
     exists w2,
       clearBreakPoint Sample.path (line bp) w1 = (Return (Some bp), w2) /\
       _breakPoints w2 = Map_set Sample.path [] (_breakPoints w) /\
       (Map_get Sample.path (_breakPoints w) = Some [] ->
        _breakPoints w2 = _breakPoints w) /\
       _breakpointId w2 = _breakpointId w + 1 /\
       exists first,
         written w2
         = written w
           ++ [(getBreakPointsFile w, first);
               (getBreakPointsFile w,
                JSON_stringify (breakPointsInfo (_breakPoints w2)))]).
Proof.
  intros w.
  assert (H1 : loaded_lines Sample.path w = Some Sample.lines)
    by (vm_compute; reflexivity).
  assert (H2 : 0 <= 4) by lia.
  assert (H3 : settled (Some Sample.lines)
                 match Map_get Sample.path (_breakPoints w) with
                 | Some a => a
                 | None => []
                 end) by (vm_compute; reflexivity).
  assert (H4 : can_write w = true) by (vm_compute; reflexivity).
  exact (setBreakPoint_then_clear w Sample.path 4 Sample.lines H1 H2 H3 H4).
Defined.


(* ===================================================================== *)
(** * Part II, continued. The extension                                   *)
(* ===================================================================== *)

(** ** Reading the user settings *)

Lemma asSettings_back (t : Extension.Settings.t) :
  Extension.asSettings (Extension.settings_json t) = Some t.
Proof. destruct t as [[a|] [b|] [c|] [d|]]; reflexivity. Qed.

Lemma asIUserSettings_back (s : Extension.IUserSettings) :
  Extension.asIUserSettings (Extension.user_json s) = Some s.
Proof.
  unfold Extension.asIUserSettings, Extension.user_json.
  set (ms := [(js "user", JStr (Extension.user s));
              (js "settings", Extension.settings_json (Extension.settings s))]).
  assert (A : json_member (js "user") ms = Some (JStr (Extension.user s)))
    by reflexivity.
  assert (B : json_member (js "settings") ms
              = Some (Extension.settings_json (Extension.settings s)))
    by reflexivity.
  rewrite A, B, asSettings_back. now destruct s.
Qed.

Lemma asUserSettings_back (l : list Extension.IUserSettings) :
  Extension.asUserSettings (Extension.userSettings_json l) = Some l.
Proof.
  unfold Extension.asUserSettings, Extension.userSettings_json.
  set (ms := [(js "userSettings", JArr (map Extension.user_json l))]).
  assert (A : json_member (js "userSettings") ms
              = Some (JArr (map Extension.user_json l))) by reflexivity.
  rewrite A. apply traverse_map. exact asIUserSettings_back.
Qed.

Lemma userSettings_json_integral (l : list Extension.IUserSettings) :
  integral (Extension.userSettings_json l) = true.
Proof.
  unfold Extension.userSettings_json. cbn [integral forallb snd].
  rewrite andb_true_r. apply forallb_forall. intros j Hj.
  apply in_map_iff in Hj. destruct Hj as (s & <- & _).
  destruct s as [u [[a|] [b|] [c|] [d|]]]; reflexivity.
Qed.

Lemma find_first {A} (f : A -> bool) (pre post : list A) (x : A) :
  Forall (fun y => f y = false) pre -> f x = true ->
  find f (pre ++ x :: post) = Some x.
Proof.
  induction 1 as [|y r Hy Hr IH]; simpl; intros Hx.
  - now rewrite Hx.
  - rewrite Hy. auto.
Qed.

Lemma find_nothing {A} (f : A -> bool) (l : list A) :
  Forall (fun y => f y = false) l -> find f l = None.
Proof. induction 1 as [|y r Hy Hr IH]; simpl; [reflexivity|now rewrite Hy]. Qed.

Lemma getRunParamsFor1C_settings (toUpperCase : jsstring -> jsstring)
    (h : Extension.Host) (l : list Extension.IUserSettings) :
  Map_get (getUserSettingsFile (Extension.world h)) (disk (Extension.world h))
  = Some (JSON_stringify (Extension.userSettings_json l)) ->
  Extension.getRunParamsFor1C toUpperCase h
  = Return (find (fun s => jsstring_eqb (Extension.user s)
                             (toUpperCase (toUpperCase (Extension.username h))))
              l).
Proof.
  intros H. unfold Extension.getRunParamsFor1C. rewrite H, truthy_stringify.
  rewrite (JSON_parse_stringify _ (userSettings_json_integral l)).
  now rewrite asUserSettings_back.
Qed.

(** X14. The settings of the user.  When the settings file holds a text
    that parses to the settings of a list of users, [getRunParamsFor1C]
    returns the first entry of the list whose [user] is the name of the
    operating-system user, upper-cased (twice): entries that follow it for
    the same user are never used, and when no entry has that name the
    result is [undefined]. *)
Theorem getRunParamsFor1C_first_match (toUpperCase : jsstring -> jsstring)
    (h : Extension.Host) (data : jsstring) (j : json)
    (l : list Extension.IUserSettings) :
  Map_get (getUserSettingsFile (Extension.world h)) (disk (Extension.world h))
  = Some data ->
  data <> [] ->
  JSON_parse data = Some j ->
  Extension.asUserSettings j = Some l ->
  let userName := toUpperCase (toUpperCase (Extension.username h)) in
  (Forall (fun s => Extension.user s <> userName) l ->
   Extension.getRunParamsFor1C toUpperCase h = Return None) /\
  (forall pre s post,
      l = pre ++ s :: post ->
      Forall (fun x => Extension.user x <> userName) pre ->
      Extension.user s = userName ->
      Extension.getRunParamsFor1C toUpperCase h = Return (Some s)).
Proof.
  intros H Hne Hparse Hl userName.
  assert (E : Extension.getRunParamsFor1C toUpperCase h
              = Return (find (fun s => jsstring_eqb (Extension.user s) userName) l)).
  { unfold Extension.getRunParamsFor1C. rewrite H.
    destruct data as [|c data]; [congruence|]. cbn [truthy].
    now rewrite Hparse, Hl. }
  rewrite E. split.
  - intros Hno. rewrite find_nothing; [reflexivity|].
    eapply Forall_impl; [|exact Hno]. intros s Hs. now apply jsstring_eqb_neq.
  - intros pre s post -> Hpre Hs. rewrite find_first; [reflexivity| |].
    + eapply Forall_impl; [|exact Hpre]. intros x Hx. now apply jsstring_eqb_neq.
    + rewrite Hs. apply jsstring_eqb_refl.
Qed.

Lemma getRunParamsFor1C_first_match_witness :
  let h := Extension.Demo.host false (Some Extension.Demo.edited) in
  let userName := Extension.Demo.upper (Extension.Demo.upper (js "Boris")) in
  (Forall (fun s => Extension.user s <> userName) Extension.Demo.edited_entries ->
   Extension.getRunParamsFor1C Extension.Demo.upper h = Return None) /\
  (forall pre s post,
      Extension.Demo.edited_entries = pre ++ s :: post ->
      Forall (fun x => Extension.user x <> userName) pre ->
      Extension.user s = userName ->
      Extension.getRunParamsFor1C Extension.Demo.upper h = Return (Some s)).
Proof.
  intros h.
  set (j := match JSON_parse Extension.Demo.edited with
            | Some v => v
            | None => JNull
            end).
  assert (H1 : Map_get (getUserSettingsFile (Extension.world h))
                 (disk (Extension.world h))
               = Some Extension.Demo.edited) by (vm_compute; reflexivity).
  assert (H2 : Extension.Demo.edited <> []) by (vm_compute; discriminate).
  assert (H3 : JSON_parse Extension.Demo.edited = Some j)
    by (vm_compute; reflexivity).
  assert (H4 : Extension.asUserSettings j = Some Extension.Demo.edited_entries)
    by (vm_compute; reflexivity).
  exact (getRunParamsFor1C_first_match Extension.Demo.upper h
           Extension.Demo.edited j Extension.Demo.edited_entries H1 H2 H3 H4).
Defined.

Example sample_edited_settings :
  Extension.getRunParamsFor1C Extension.Demo.upper
    (Extension.Demo.host false (Some Extension.Demo.edited))
  = Return (hd_error Extension.Demo.edited_entries).
Proof. vm_compute. reflexivity. Qed.

Example sample_settings_of_user :
  option_map Extension.settings
    (match Extension.getRunParamsFor1C Extension.Demo.upper Extension.Demo.configured with
     | Return r => r
     | Throw _ => None
     end)
  = Some {| Extension.Settings.DEBUGGER_DB := Some (js "first");
            Extension.Settings.DEBUGGER_DB_USER := Some (js "boris");
            Extension.Settings.DEBUGGER_DB_PSW := Some [];
            Extension.Settings.DEBUGGER_VANESSA_PATH := None |}.
Proof. vm_compute. reflexivity. Qed.

(** ** The [run1c] command *)

Lemma run1c_returns (toUpperCase : jsstring -> jsstring) (h : Extension.Host)
    (userParams : option Extension.IUserSettings) (prev : option jsstring) :
  Extension.getRunParamsFor1C toUpperCase h = Return userParams ->
  Extension.run1c toUpperCase prev h
  = (Return prev,
     {| Extension.world := Extension.world h;
        Extension.COLD_RESTART := false;
        Extension.username := Extension.username h;
        Extension.executed :=
          Extension.executed h
          ++ (if truthy prev && negb (Extension.COLD_RESTART h)
              then [Extension.run_command userParams (Extension.world h)]
              else []) |}).
Proof.
  intros H. unfold Extension.run1c. rewrite H.
  destruct h as [w cold name done]. cbn [Extension.COLD_RESTART Extension.world
    Extension.username Extension.executed].
  destruct (truthy prev), cold; cbn [andb negb Extension.exec Extension.setRestartMode
    Extension.COLD_RESTART Extension.world Extension.username Extension.executed];
    rewrite ?List.app_nil_r; reflexivity.
Qed.

Lemma getRunParamsFor1C_same (toUpperCase : jsstring -> jsstring)
    (h h' : Extension.Host) :
  Extension.world h' = Extension.world h ->
  Extension.username h' = Extension.username h ->
  Extension.getRunParamsFor1C toUpperCase h'
  = Extension.getRunParamsFor1C toUpperCase h.
Proof. intros A B. unfold Extension.getRunParamsFor1C. now rewrite A, B. Qed.

(** X15. Without settings.  When the settings file does not exist or is
    empty, the [run1c] callback never throws: it returns the answer it was
    given, leaves [COLD_RESTART] unset, and launches -- when the answer is
    a non-empty text and no cold restart is under way -- the bare command:
    the starter followed by the [/C] argument, with none of the [/S],
    [/N], [/P] and [/Execute] options. *)
Theorem run1c_without_settings (toUpperCase : jsstring -> jsstring)
    (h : Extension.Host) (prev : option jsstring) :
  Map_get (getUserSettingsFile (Extension.world h)) (disk (Extension.world h)) = None \/
  Map_get (getUserSettingsFile (Extension.world h)) (disk (Extension.world h)) = Some [] ->
  exists h',
    Extension.run1c toUpperCase prev h = (Return prev, h') /\
    Extension.COLD_RESTART h' = false /\
    Extension.world h' = Extension.world h /\
    Extension.executed h'
    = Extension.executed h
      ++ (if truthy prev && negb (Extension.COLD_RESTART h)
          then [Extension.enterprise ++ Extension.additional (Extension.world h)]
          else []).
Proof.
  intros H.
  assert (E : Extension.getRunParamsFor1C toUpperCase h = Return None).
  { unfold Extension.getRunParamsFor1C. destruct H as [-> | ->]; reflexivity. }
  eexists. split; [exact (run1c_returns toUpperCase h None prev E)|].
  repeat split.
Qed.

Lemma run1c_without_settings_witness :
  exists h',
    Extension.run1c Extension.Demo.upper (Some (js "a.feature"))
      (Extension.Demo.host false (Some []))
    = (Return (Some (js "a.feature")), h') /\
    Extension.COLD_RESTART h' = false /\
    Extension.world h' = Extension.world (Extension.Demo.host false (Some [])) /\
    Extension.executed h'
    = Extension.executed (Extension.Demo.host false (Some []))
      ++ (if truthy (Some (js "a.feature"))
             && negb (Extension.COLD_RESTART (Extension.Demo.host false (Some [])))
          then [Extension.enterprise
                ++ Extension.additional
                     (Extension.world (Extension.Demo.host false (Some [])))]
          else []).
Proof.
  assert (H : Map_get (getUserSettingsFile
                         (Extension.world (Extension.Demo.host false (Some []))))
                (disk (Extension.world (Extension.Demo.host false (Some [])))) = None \/
              Map_get (getUserSettingsFile
                         (Extension.world (Extension.Demo.host false (Some []))))
                (disk (Extension.world (Extension.Demo.host false (Some [])))) = Some [])
    by (right; vm_compute; reflexivity).
  exact (run1c_without_settings Extension.Demo.upper
           (Extension.Demo.host false (Some [])) (Some (js "a.feature")) H).
Defined.

(** X16. Settings that are not JSON.  When the settings file holds a
    non-empty text that [JSON.parse] rejects, the [run1c] callback throws
    the [SyntaxError] whatever the answer is -- also when the box was
    dismissed and when a cold restart is under way: nothing is launched
    and [COLD_RESTART] stays as it was. *)
Theorem run1c_malformed_settings (toUpperCase : jsstring -> jsstring)
    (h : Extension.Host) (c : code_unit) (data : jsstring) (prev : option jsstring) :
  Map_get (getUserSettingsFile (Extension.world h)) (disk (Extension.world h))
  = Some (c :: data) ->
  JSON_parse (c :: data) = None ->
  Extension.run1c toUpperCase prev h = (Throw SyntaxError, h).
Proof.
  intros H Hp. unfold Extension.run1c, Extension.getRunParamsFor1C.
  rewrite H. cbn [truthy]. now rewrite Hp.
Qed.

Lemma run1c_malformed_settings_witness :
  let h := Extension.Demo.host true (Some (js "{user")) in
  Extension.run1c Extension.Demo.upper None h = (Throw SyntaxError, h).
Proof.
  intros h.
  assert (H1 : Map_get (getUserSettingsFile (Extension.world h))
                 (disk (Extension.world h))
               = Some (123%N :: js "user")) by (vm_compute; reflexivity).
  assert (H2 : JSON_parse (123%N :: js "user") = None) by (vm_compute; reflexivity).
  exact (run1c_malformed_settings Extension.Demo.upper h 123%N (js "user") None
           H1 H2).
Defined.

(** X17. A cold restart skips one launch.  When the settings can be read,
    any number of successive [run1c] callbacks return; each launches the
    same command, which depends on the settings, the workspace and the
    active editor but not on the text entered, once for each answer that
    is a non-empty text -- except that, when a cold restart is under way,
    the first answer launches nothing and only ends the cold restart. *)
Theorem cold_restart_skips_first (toUpperCase : jsstring -> jsstring)
    (answers : list (option jsstring)) (h : Extension.Host)
    (userParams : option Extension.IUserSettings) :
  Extension.getRunParamsFor1C toUpperCase h = Return userParams ->
  exists h',
    Extension.run1c_all toUpperCase answers h = Some h' /\
    Extension.world h' = Extension.world h /\
    Extension.COLD_RESTART h'
    = match answers with
      | [] => Extension.COLD_RESTART h
      | _ :: _ => false
      end /\
    Extension.executed h'
    = Extension.executed h
      ++ repeat (Extension.run_command userParams (Extension.world h))
           (List.length
              (filter truthy
                 (if Extension.COLD_RESTART h then tl answers else answers))).
Proof.
  revert h; induction answers as [|prev r IH]; intros h H.
  - exists h. cbn [Extension.run1c_all tl filter List.length repeat].
    destruct (Extension.COLD_RESTART h); cbn [filter List.length repeat];
      rewrite List.app_nil_r; auto.
  - cbn [Extension.run1c_all]. rewrite (run1c_returns toUpperCase h userParams prev H).
    match goal with |- context [Extension.run1c_all _ r ?v] => set (h1 := v) end.
    destruct (IH h1) as (h' & E & Hw & Hc & He).
    { rewrite <- H. now apply getRunParamsFor1C_same. }
    exists h'. split; [exact E|]. split; [exact Hw|]. split.
    + rewrite Hc. now destruct r.
    + rewrite He. cbn [h1 Extension.executed Extension.COLD_RESTART Extension.world].
      rewrite <- app_assoc. f_equal.
      destruct (Extension.COLD_RESTART h); cbn [tl filter].
      * rewrite andb_false_r. reflexivity.
      * rewrite andb_true_r. destruct (truthy prev); reflexivity.
Qed.

Lemma cold_restart_skips_first_witness :
  exists h',
    Extension.run1c_all Extension.Demo.upper
      [Some (js "a.feature"); None; Some (js "typed.feature")]
      (Extension.Demo.host true None)
    = Some h' /\
    Extension.world h' = Extension.world (Extension.Demo.host true None) /\
    Extension.COLD_RESTART h' = false /\
    Extension.executed h'
    = Extension.executed (Extension.Demo.host true None)
      ++ repeat (Extension.run_command None
                   (Extension.world (Extension.Demo.host true None)))
           (List.length
              (filter truthy
                 (if Extension.COLD_RESTART (Extension.Demo.host true None)
                  then tl [Some (js "a.feature"); None; Some (js "typed.feature")]
                  else [Some (js "a.feature"); None; Some (js "typed.feature")]))).
Proof.
  assert (H : Extension.getRunParamsFor1C Extension.Demo.upper
                (Extension.Demo.host true None) = Return None)
    by (vm_compute; reflexivity).
  exact (cold_restart_skips_first Extension.Demo.upper
           [Some (js "a.feature"); None; Some (js "typed.feature")]
           (Extension.Demo.host true None) None H).
Defined.

Example sample_command :
  Extension.executed
    (snd (Extension.run1c Extension.Demo.upper (Some (js "typed.feature"))
            Extension.Demo.configured))
  = [ Extension.enterprise
      ++ js "/S " ++ [Chr.quote] ++ js "first" ++ [Chr.quote] ++ js " "
      ++ js "/N " ++ [Chr.quote] ++ js "boris" ++ [Chr.quote] ++ js " "
      ++ js "/C " ++ [Chr.quote]
      ++ js "feature=a.feature breaks=C:\ws\.vscode\breaks.json "
      ++ js "debugInfo=C:\ws\.vscode\debugInfo.json "
      ++ js "commands=C:\ws\.vscode\commandsForVanessa.json "
      ++ [Chr.quote] ].
Proof. vm_compute. reflexivity. Qed.

(** ** The configuration provider *)

Lemma resolveDebugConfiguration_run (languageId : option jsstring) (port : Z)
    (config : Extension.Config.t) (p : Extension.Provider) :
  Extension.resolveDebugConfiguration languageId port config p
  = let config1 :=
      if Extension.defaults_apply languageId config then
        {| Extension.Config.type := Some (js "vanessa");
           Extension.Config.request := Some (js "launch");
           Extension.Config.name := Some (js "Launch");
           Extension.Config.program := Some Extension.run1CCommand;
           Extension.Config.stopOnEntry := Some true;
           Extension.Config.debugServer := Extension.Config.debugServer config |}
      else config in
    if truthy (Extension.Config.program config1) then
      let server := match Extension._server p with
                    | Some s => s
                    | None => port
                    end in
      (Some {| Extension.Config.type := Extension.Config.type config1;
               Extension.Config.request := Extension.Config.request config1;
               Extension.Config.name := Extension.Config.name config1;
               Extension.Config.program := Extension.Config.program config1;
               Extension.Config.stopOnEntry := Extension.Config.stopOnEntry config1;
               Extension.Config.debugServer := Some server |},
       {| Extension._server := Some server; Extension.shown := Extension.shown p |})
    else
      (None, {| Extension._server := Extension._server p;
                Extension.shown :=
                  Extension.shown p ++ [js "Cannot find a program to debug"] |}).
Proof.
  unfold Extension.resolveDebugConfiguration, Extension.defaults_apply.
  destruct (negb (truthy (Extension.Config.type config))
            && negb (truthy (Extension.Config.request config))
            && negb (truthy (Extension.Config.name config))); cbn [andb].
  - destruct languageId as [l|]; [destruct (jsstring_eqb l (js "feature"))|];
      cbv zeta; destruct (truthy _); reflexivity.
  - cbv zeta. destruct (truthy _); reflexivity.
Qed.

(** X18. What [resolveDebugConfiguration] comes to.  The launch is aborted
    exactly when the configuration has no program and the defaults do not
    apply (they apply when type, request and name are all missing and the
    active editor shows a feature file); an aborted launch shows the
    message and creates no server.  Otherwise the configuration returned
    has a program and carries the port of the provider's server, which is
    the server it had or else a new one on the port on offer; when the
    defaults apply, the program and the stop-on-entry flag of the given
    configuration are overwritten, and when they do not, every attribute
    but the port is returned as given. *)
Theorem resolveDebugConfiguration_outcome (languageId : option jsstring) (port : Z)
    (config : Extension.Config.t) (p : Extension.Provider) :
  let r := Extension.resolveDebugConfiguration languageId port config p in
  (fst r = None <->
   truthy (Extension.Config.program config) = false /\
   Extension.defaults_apply languageId config = false) /\
  (fst r = None ->
   Extension._server (snd r) = Extension._server p /\
   Extension.shown (snd r)
   = Extension.shown p ++ [js "Cannot find a program to debug"]) /\
  (forall c, fst r = Some c ->
     Extension.shown (snd r) = Extension.shown p /\
     truthy (Extension.Config.program c) = true /\
     Extension.Config.debugServer c = Extension._server (snd r) /\
     (Extension._server (snd r) = Some port /\ Extension._server p = None \/
      Extension._server (snd r) = Extension._server p) /\
     (Extension.defaults_apply languageId config = true ->
      Extension.Config.type c = Some (js "vanessa") /\
      Extension.Config.request c = Some (js "launch") /\
      Extension.Config.name c = Some (js "Launch") /\
      Extension.Config.program c = Some Extension.run1CCommand /\
      Extension.Config.stopOnEntry c = Some true) /\
     (Extension.defaults_apply languageId config = false ->
      Extension.Config.type c = Extension.Config.type config /\
      Extension.Config.request c = Extension.Config.request config /\
      Extension.Config.name c = Extension.Config.name config /\
      Extension.Config.program c = Extension.Config.program config /\
      Extension.Config.stopOnEntry c = Extension.Config.stopOnEntry config)).
Proof.
  cbv zeta. rewrite resolveDebugConfiguration_run. cbv zeta.
  destruct (Extension.defaults_apply languageId config) eqn:D.
  - cbn [Extension.Config.program].
    assert (T : truthy (Some Extension.run1CCommand) = true) by reflexivity.
    rewrite T. cbn [fst snd].
    split; [split; [discriminate|intros [_ H]; discriminate]|].
    split; [discriminate|]. intros c [= <-].
    cbn [Extension.shown Extension._server Extension.Config.type
         Extension.Config.request Extension.Config.name Extension.Config.program
         Extension.Config.stopOnEntry Extension.Config.debugServer].
    repeat split; try discriminate.
    destruct (Extension._server p) as [s|]; [right; reflexivity|left; auto].
  - destruct (truthy (Extension.Config.program config)) eqn:T; cbn [fst snd].
    + split; [split; [discriminate|intros [H _]; discriminate]|].
      split; [discriminate|]. intros c [= <-].
      cbn [Extension.shown Extension._server Extension.Config.type
           Extension.Config.request Extension.Config.name Extension.Config.program
           Extension.Config.stopOnEntry Extension.Config.debugServer].
      repeat split; try discriminate; try exact T.
      destruct (Extension._server p) as [s|]; [right; reflexivity|left; auto].
    + split; [split; auto|]. split; [auto|]. discriminate.
Qed.

Lemma resolve_all_server (calls : list (option jsstring * Z * Extension.Config.t))
    (p : Extension.Provider) (q : Z) :
  Extension._server p = Some q ->
  Extension._server (snd (Extension.resolve_all calls p)) = Some q.
Proof.
  revert p; induction calls as [|[[l port] config] r IH]; intros p H; [exact H|].
  cbn [Extension.resolve_all]. rewrite resolveDebugConfiguration_run. cbv zeta.
  destruct (truthy _).
  - specialize (IH {| Extension._server :=
                        Some match Extension._server p with
                             | Some s => s
                             | None => port
                             end;
                      Extension.shown := Extension.shown p |}).
    destruct (Extension.resolve_all r _) as [cs p2]. cbn [snd] in *.
    apply IH. cbn [Extension._server]. now rewrite H.
  - specialize (IH {| Extension._server := Extension._server p;
                      Extension.shown :=
                        Extension.shown p ++ [js "Cannot find a program to debug"] |}).
    destruct (Extension.resolve_all r _) as [cs p2]. cbn [snd] in *.
    apply IH. exact H.
Qed.

(** X19. One server for all sessions.  Over any sequence of launches the
    provider creates a server at most once: every configuration returned
    carries the same port, that of the provider's server at the end, which
    is the server the provider started with if it had one, and which
    exists as soon as one launch was not aborted. *)
Theorem one_server (calls : list (option jsstring * Z * Extension.Config.t))
    (p : Extension.Provider) :
  let r := Extension.resolve_all calls p in
  (forall c, In (Some c) (fst r) ->
             Extension.Config.debugServer c = Extension._server (snd r) /\
             Extension._server (snd r) <> None) /\
  (forall q, Extension._server p = Some q -> Extension._server (snd r) = Some q) /\
  (Forall (fun c => c = None) (fst r) ->
   Extension._server (snd r) = Extension._server p).
Proof.
  cbv zeta. split; [|split].
  - revert p; induction calls as [|[[l port] config] rest IH]; intros p c Hin;
      [contradiction|].
    cbn [Extension.resolve_all] in *.
    rewrite resolveDebugConfiguration_run in *. cbv zeta in *.
    destruct (truthy _).
    + match goal with
      | H : context [Extension.resolve_all rest ?v] |- _ => set (p1 := v) in *
      end.
      pose proof (resolve_all_server rest p1 _ eq_refl) as S.
      specialize (IH p1 c).
      destruct (Extension.resolve_all rest p1) as [cs p2]. cbn [fst snd] in *.
      destruct Hin as [[= <-]|Hin]; [|now apply IH].
      cbn [Extension.Config.debugServer]. rewrite S. split; [reflexivity|discriminate].
    + match goal with
      | H : context [Extension.resolve_all rest ?v] |- _ => set (p1 := v) in *
      end.
      specialize (IH p1 c).
      destruct (Extension.resolve_all rest p1) as [cs p2]. cbn [fst snd] in *.
      destruct Hin as [Hin|Hin]; [discriminate|now apply IH].
  - intros q. apply resolve_all_server.
  - revert p; induction calls as [|[[l port] config] rest IH]; intros p Hall;
      [reflexivity|].
    cbn [Extension.resolve_all] in *.
    rewrite resolveDebugConfiguration_run in *. cbv zeta in *.
    destruct (truthy _).
    + destruct (Extension.resolve_all rest _) as [cs p2]. cbn [fst snd] in *.
      inversion Hall as [|x xs Hx Hxs]; subst. discriminate.
    + specialize (IH {| Extension._server := Extension._server p;
                        Extension.shown :=
                          Extension.shown p ++ [js "Cannot find a program to debug"] |}).
      destruct (Extension.resolve_all rest _) as [cs p2]. cbn [fst snd] in *.
      inversion Hall as [|x xs Hx Hxs]; subst. now apply IH.
Qed.

Example sample_launches :
  map (option_map Extension.Config.debugServer)
    (fst (Extension.resolve_all
            [(None, 5001, Extension.Demo.empty);
             (Some (js "feature"), 5002, Extension.Demo.empty);
             (Some (js "feature"), 5003, Extension.Demo.launch)]
            {| Extension._server := None; Extension.shown := [] |}))
  = [None; Some (Some 5002); Some (Some 5002)].
Proof. vm_compute. reflexivity. Qed.

(** ** The runtime and the settings *)

Lemma settings_file_not_breakpoints_file (w : World) :
  getUserSettingsFile w <> getBreakPointsFile w.
Proof.
  unfold getUserSettingsFile, getBreakPointsFile. intros H.
  apply app_inv_head in H. discriminate H.
Qed.

(** X20. The runtime leaves the settings alone.  Whatever calls the
    runtime makes, returning or throwing, as long as nothing outside
    changes the settings file, [getRunParamsFor1C] gives afterwards what
    it gave before, and the breakpoints, status, commands and settings
    files are where they were. *)
Theorem settings_survive_runtime (toUpperCase : jsstring -> jsstring)
    (cs : list call) (h : Extension.Host) :
  left_alone (getUserSettingsFile (Extension.world h)) cs ->
  let h' := after_calls cs h in
  Extension.getRunParamsFor1C toUpperCase h'
  = Extension.getRunParamsFor1C toUpperCase h /\
  getUserSettingsFile (Extension.world h') = getUserSettingsFile (Extension.world h) /\
  getBreakPointsFile (Extension.world h') = getBreakPointsFile (Extension.world h) /\
  getVanessaDebugInfoFile (Extension.world h')
  = getVanessaDebugInfoFile (Extension.world h) /\
  getVanessaCommandsFile (Extension.world h')
  = getVanessaCommandsFile (Extension.world h).
Proof.
  intros Hcs. cbv zeta.
  pose proof (perform_all_rootPath cs (Extension.world h)) as R.
  assert (S : getUserSettingsFile (Extension.world (after_calls cs h))
              = getUserSettingsFile (Extension.world h)).
  { unfold getUserSettingsFile, after_calls. cbn [Extension.world]. now rewrite R. }
  split; [|split; [exact S|]].
  - unfold Extension.getRunParamsFor1C. rewrite S.
    unfold after_calls at 1. cbn [Extension.world Extension.username].
    rewrite (perform_all_disk cs (Extension.world h) _
               (settings_file_not_breakpoints_file (Extension.world h)) Hcs).
    reflexivity.
  - unfold getBreakPointsFile, getVanessaDebugInfoFile, getVanessaCommandsFile,
      after_calls. cbn [Extension.world]. rewrite R. auto.
Qed.

Lemma settings_survive_runtime_witness :
  let cs := [SetBreakPoint Sample.path 1; Start Sample.path true;
             ClearBreakpoints Sample.path;
             FileChanged Sample.path (Some (js "Feature: new"))] in
  let h' := after_calls cs Extension.Demo.configured in
  Extension.getRunParamsFor1C Extension.Demo.upper h'
  = Extension.getRunParamsFor1C Extension.Demo.upper Extension.Demo.configured /\
  getUserSettingsFile (Extension.world h')
  = getUserSettingsFile (Extension.world Extension.Demo.configured) /\
  getBreakPointsFile (Extension.world h')
  = getBreakPointsFile (Extension.world Extension.Demo.configured) /\
  getVanessaDebugInfoFile (Extension.world h')
  = getVanessaDebugInfoFile (Extension.world Extension.Demo.configured) /\
  getVanessaCommandsFile (Extension.world h')
  = getVanessaCommandsFile (Extension.world Extension.Demo.configured).
Proof.
  intros cs.
  assert (H : left_alone
                (getUserSettingsFile (Extension.world Extension.Demo.configured)) cs).
  { repeat constructor. vm_compute. discriminate. }
  exact (settings_survive_runtime Extension.Demo.upper cs
           Extension.Demo.configured H).
Defined.

(** ** A breakpoint on a negative line *)

Lemma verifyBreakpoint_negative (lines : list jsstring) (bp : VanessaBreakpoint) :
  line bp < 0 -> verified bp = false ->
  verifyBreakpoint (Some lines) bp = Throw TypeError.
Proof.
  intros Hl Hv. unfold verifyBreakpoint. rewrite Hv. cbn [negb].
  replace (line bp <? array_length lines) with true
    by (symmetry; apply Z.ltb_lt; unfold array_length; lia).
  unfold array_get. replace (line bp <? 0) with true
    by (symmetry; now apply Z.ltb_lt).
  reflexivity.
Qed.

Lemma verifyBreakpoint_throws (lines : list jsstring) (bp : VanessaBreakpoint)
    (e : exn) :
  verifyBreakpoint (Some lines) bp = Throw e -> e = TypeError.
Proof.
  unfold verifyBreakpoint. destruct (negb (verified bp)); [|discriminate].
  destruct (line bp <? array_length lines); [|discriminate].
  destruct (array_get lines (line bp)); [|now intros [= <-]].
  cbv zeta. destruct (_ || _); discriminate.
Qed.

Lemma forEach_verify_poisoned (lines : list jsstring)
    (bps : list VanessaBreakpoint) (bp : VanessaBreakpoint) :
  In bp bps -> line bp < 0 -> verified bp = false ->
  snd (forEach_verify (Some lines) bps) = Some TypeError /\
  In bp (fst (forEach_verify (Some lines) bps)).
Proof.
  intros Hin Hl Hv. induction bps as [|x r IH]; [contradiction|].
  cbn [forEach_verify].
  destruct (verifyBreakpoint (Some lines) x) as [x'|e] eqn:E.
  - destruct Hin as [->|Hin].
    { rewrite (verifyBreakpoint_negative lines bp Hl Hv) in E. discriminate. }
    destruct (IH Hin) as [A B].
    destruct (forEach_verify (Some lines) r) as [r' e']. cbn [fst snd] in *.
    split; [exact A|now right].
  - cbn [fst snd]. split; [|exact Hin].
    now rewrite (verifyBreakpoint_throws lines x e E).
Qed.

Lemma verifyBreakpoints_poisoned (w : World) (path : jsstring)
    (lines : list jsstring) (bps : list VanessaBreakpoint) (bp : VanessaBreakpoint) :
  loaded_lines path w = Some lines ->
  Map_get path (_breakPoints w) = Some bps ->
  In bp bps -> line bp < 0 -> verified bp = false ->
  exists w' bps',
    verifyBreakpoints path w = (Throw TypeError, w') /\
    Map_get path (_breakPoints w') = Some bps' /\ In bp bps' /\
    loaded_lines path w' = Some lines /\
    written w' = written w /\ scheduled w' = scheduled w /\
    _breakpointId w' = _breakpointId w /\ _currentLine w' = _currentLine w.
Proof.
  intros Hload Hget Hin Hl Hv.
  destruct (loadSource_loaded path w lines Hload)
    as (w1 & E1 & Hl1 & Hf1 & Hb1 & Hi1 & Hc1 & Hs1 & Hr1 & Hw1 & _).
  destruct (forEach_verify_poisoned lines bps bp Hin Hl Hv) as [A B].
  eexists. exists (fst (forEach_verify (Some lines) bps)).
  split.
  { rewrite (verifyBreakpoints_run path w bps Hget), E1, Hl1, A. reflexivity. }
  cbn [_breakPoints set_breakPoints written scheduled _breakpointId _currentLine].
  split; [apply Map_get_set_same|]. split; [exact B|].
  split; [|auto].
  unfold loaded_lines. cbn [_sourceFile _sourceLines set_breakPoints].
  rewrite Hf1. cbn [same_file]. now rewrite jsstring_eqb_refl.
Qed.

(** X21. A breakpoint on a negative line poisons its file.  Once the
    sequence of a file whose source loads holds an unverified breakpoint
    with a negative line, every [setBreakPoint] on the file throws a
    [TypeError] from its verification pass, after raising the counter and
    without writing the breakpoints file, and [start] of that file throws
    it before stepping: no event is scheduled and the current line is left
    at [-1].  After each of these calls the breakpoint is still in the
    sequence and the source still loaded, so the same holds again. *)
Theorem negative_line_poisons (w : World) (path : jsstring)
    (lines : list jsstring) (bps : list VanessaBreakpoint) (bp : VanessaBreakpoint) :
  loaded_lines path w = Some lines ->
  Map_get path (_breakPoints w) = Some bps ->
  In bp bps -> line bp < 0 -> verified bp = false ->
  (forall ln, exists w' bps',
      setBreakPoint path ln w = (Throw TypeError, w') /\
      written w' = written w /\ _breakpointId w' = _breakpointId w + 1 /\
      loaded_lines path w' = Some lines /\
      Map_get path (_breakPoints w') = Some bps' /\ In bp bps') /\
  (forall stopOnEntry, exists w' bps',
      start path stopOnEntry w = (Throw TypeError, w') /\
      scheduled w' = scheduled w /\ _currentLine w' = -1 /\
      loaded_lines path w' = Some lines /\
      Map_get path (_breakPoints w') = Some bps' /\ In bp bps').
Proof.
  intros Hload Hget Hin Hl Hv. split.
  - intros ln.
    destruct (verifyBreakpoints_poisoned (pushed path ln w) path lines
                (bps ++ [ {| id := _breakpointId w + 1; line := ln;
                             verified := false |} ]) bp)
      as (w' & bps' & E & Hg & Hi & Hlo & Hw & _ & Hid & _); auto.
    { unfold pushed. cbn [_breakPoints set_breakPoints]. rewrite Hget.
      apply Map_get_set_same. }
    { apply in_or_app. now left. }
    exists w', bps'. rewrite setBreakPoint_run, E.
    split; [reflexivity|]. split; [exact Hw|]. split; [exact Hid|].
    split; [exact Hlo|]. split; [exact Hg|exact Hi].
  - intros b.
    destruct (loadSource_loaded path w lines Hload)
      as (w1 & E1 & Hl1 & Hf1 & Hb1 & Hi1 & Hc1 & Hs1 & _).
    destruct (verifyBreakpoints_poisoned (set_currentLine (-1) w1) path lines bps bp)
      as (w' & bps' & E & Hg & Hi & Hlo & _ & Hs & _ & Hc); auto.
    { unfold loaded_lines. cbn [_sourceFile _sourceLines set_currentLine].
      rewrite Hf1. cbn [same_file]. now rewrite jsstring_eqb_refl. }
    { cbn [_breakPoints set_currentLine]. now rewrite Hb1. }
    exists w', bps'. rewrite start_run, E1, Hf1, E.
    split; [reflexivity|]. split; [rewrite Hs; exact Hs1|].
    split; [exact Hc|]. split; [exact Hlo|]. split; [exact Hg|exact Hi].
Qed.

Lemma negative_line_poisons_witness :
  let w := perform (SetBreakPoint Sample.path (-1)) Sample.fresh in
  let bp := {| id := 2; line := -1; verified := false |} in
  (forall ln, exists w' bps',
      setBreakPoint Sample.path ln w = (Throw TypeError, w') /\
      written w' = written w /\ _breakpointId w' = _breakpointId w + 1 /\
      loaded_lines Sample.path w' = Some Sample.lines /\
      Map_get Sample.path (_breakPoints w') = Some bps' /\ In bp bps') /\
  (forall stopOnEntry, exists w' bps',
      start Sample.path stopOnEntry w = (Throw TypeError, w') /\
      scheduled w' = scheduled w /\ _currentLine w' = -1 /\
      loaded_lines Sample.path w' = Some Sample.lines /\
      Map_get Sample.path (_breakPoints w') = Some bps' /\ In bp bps').
Proof.
  intros w bp.
  assert (H1 : loaded_lines Sample.path w = Some Sample.lines)
    by (vm_compute; reflexivity).
  assert (H2 : Map_get Sample.path (_breakPoints w) = Some [bp])
    by (vm_compute; reflexivity).
  assert (H3 : In bp [bp]) by (left; reflexivity).
  assert (H4 : line bp < 0) by (cbn; lia).
  assert (H5 : verified bp = false) by reflexivity.
  exact (negative_line_poisons w Sample.path Sample.lines [bp] bp H1 H2 H3 H4 H5).
Defined.
